(** * Verification of the relational mapping and schema-migration engine

    A shallow embedding of the Go package [orm] (SQLite dialect driver,
    row fetching, bulk script execution, connection opening) together with
    the properties its design document states about it.

    Conventions of the embedding.
    - A Go [string] is modelled by the sequence of its code points ([rune]s):
      the text is taken to be valid UTF-8, so that [[]rune(s)] is the identity
      and byte-level searches for ASCII bytes agree with rune-level ones.
    - Go [int] counters are modelled in [Z]; none of them can reach 2^63 on
      an input that fits in memory.
    - The database behind the [DB] interface, [database/sql] and
      [encoding/json] are external: they appear as records of operations
      over an abstract state. *)

From Stdlib Require Import NArith ZArith List String Ascii Bool Lia.
From stdpp Require Import base option list gmap.
Import ListNotations.

#[local] Open Scope N_scope.
#[local] Unset Default Proof Using.

(** ** Go strings *)

Definition rune := N.
Definition gostring := list rune.

(** ASCII literals, written as Rocq strings. *)
Definition str (s : string) : gostring :=
  List.map N_of_ascii (list_ascii_of_string s).
Arguments str : simpl never.

Fixpoint streq (a b : gostring) : bool :=
  match a, b with
  | [], [] => true
  | x :: a', y :: b' => (x =? y) && streq a' b'
  | _, _ => false
  end.

Definition r_dquote : rune := 34.
Definition r_squote : rune := 39.
Definition r_bquote : rune := 96.
Definition r_lparen : rune := 40.
Definition r_rparen : rune := 41.
Definition r_comma : rune := 44.
Definition r_space : rune := 32.
Definition r_newline : rune := 10.
Definition r_semicolon : rune := 59.
Definition r_lbracket : rune := 91.
Definition r_rbracket : rune := 93.

(** [strings.HasPrefix]. *)
Fixpoint HasPrefix (s prefix : gostring) : bool :=
  match prefix, s with
  | [], _ => true
  | p :: prefix', c :: s' => (c =? p) && HasPrefix s' prefix'
  | _ :: _, [] => false
  end.

(** [unicode.IsSpace]: the code points with the White_Space property. *)
Definition isSpace (c : rune) : bool :=
  ((9 <=? c) && (c <=? 13)) || (c =? 32) || (c =? 133) || (c =? 160)
  || (c =? 5760) || ((8192 <=? c) && (c <=? 8202))
  || (c =? 8232) || (c =? 8233) || (c =? 8239) || (c =? 8287) || (c =? 12288).

Fixpoint dropWhile (p : rune -> bool) (s : gostring) : gostring :=
  match s with
  | [] => []
  | c :: s' => if p c then dropWhile p s' else s
  end.

(** [strings.TrimSpace]. *)
Definition TrimSpace (s : gostring) : gostring :=
  rev (dropWhile isSpace (rev (dropWhile isSpace s))).

(** [unicode.ToUpper] as far as the prefix tests of this package can see it:
    exact on ASCII and on the two other code points whose upper case is an
    ASCII letter (dotless i and long s); every other code point is left
    alone, and none of them upper-cases into ASCII. *)
Definition toUpperRune (c : rune) : rune :=
  if (97 <=? c) && (c <=? 122) then c - 32
  else if c =? 305 then 73
  else if c =? 383 then 83
  else c.

Definition ToUpper (s : gostring) : gostring := List.map toUpperRune s.

(** [strings.Join]. *)
Fixpoint Join (elems : list gostring) (sep : gostring) : gostring :=
  match elems with
  | [] => []
  | [e] => e
  | e :: rest => e ++ sep ++ Join rest sep
  end.

(** ** Errors and results *)

Inductive error : Type :=
| errorString (msg : gostring)          (* errors.New, fmt.Errorf *)
| StatusNotFound (what : gostring).      (* errors.NewNotFound *)

(** [err.Error()]; for a NotFound status the text of its argument is kept. *)
Definition errText (e : error) : gostring :=
  match e with
  | errorString m => m
  | StatusNotFound w => w
  end.

Inductive result (A : Type) : Type :=
| Ok (a : A)
| Err (e : error).
Arguments Ok {A} a.
Arguments Err {A} e.

Definition isNotFound (e : error) : bool :=
  match e with StatusNotFound _ => true | _ => false end.

(** ** The regular expressions of sqlite.go

    Each pattern of the source is a fixed, small expression; its matcher is
    written out by hand, following Go's leftmost-first semantics. *)

(** [\w] (and [\d]): ASCII letters, digits and underscore. *)
Definition isWord (c : rune) : bool :=
  ((48 <=? c) && (c <=? 57)) || ((65 <=? c) && (c <=? 90))
  || ((97 <=? c) && (c <=? 122)) || (c =? 95).

(** A name made of word runes only, and not empty. *)
Definition isWordName (n : gostring) : bool :=
  negb (streq n []) && forallb isWord n.

(** [\w] under the [(?i)] flag: the class is closed under simple case
    folding, which adds the long s and the Kelvin sign. *)
Definition isWordFold (c : rune) : bool :=
  isWord c || (c =? 383) || (c =? 8490).

(** The class of the two name quotes (double quote, backtick) used by the
    header and column patterns. *)
Definition isNameQuote (c : rune) : bool := (c =? r_dquote) || (c =? r_bquote).

(** One literal rune of a pattern under [(?i)]; none of the letters of
    CREATE TABLE has a fold partner outside ASCII. *)
Definition eqFold (p c : rune) : bool :=
  (c =? p) || ((65 <=? p) && (p <=? 90) && (c =? p + 32)).

(** Match a literal case-insensitively at the start of [s]; the matched
    text (in its original case) and the rest. *)
Fixpoint matchFold (pat s : gostring) : option (gostring * gostring) :=
  match pat with
  | [] => Some ([], s)
  | p :: pat' =>
    match s with
    | [] => None
    | c :: s' =>
      if eqFold p c then
        match matchFold pat' s' with
        | Some (m, r) => Some (c :: m, r)
        | None => None
        end
      else None
    end
  end.

(** Longest prefix of runes satisfying [p], and the rest. *)
Fixpoint span (p : rune -> bool) (s : gostring) : gostring * gostring :=
  match s with
  | [] => ([], [])
  | c :: s' =>
    if p c then let '(a, b) := span p s' in (c :: a, b) else ([], s)
  end.

(** An optional single rune of class [p] (greedy). *)
Definition optRune (p : rune -> bool) (s : gostring) : gostring * gostring :=
  match s with
  | c :: s' => if p c then ([c], s') else ([], s)
  | [] => ([], [])
  end.

(** Index of the last occurrence of [c] in [s]. *)
Fixpoint lastIndex (c : rune) (s : gostring) : option nat :=
  match s with
  | [] => None
  | x :: s' =>
    match lastIndex c s' with
    | Some k => Some (S k)
    | None => if x =? c then Some O else None
    end
  end.

(** The optional trailing group of the header pattern: after a space and an
    opening parenthesis, the greedy any-rune loop stays on the line (dot does
    not match a newline) and gives back up to the last closing parenthesis. An unmatched group captures the empty string. *)
Definition bodyGroup (s : gostring) : gostring :=
  match s with
  | sp :: lp :: rest =>
    if (sp =? r_space) && (lp =? r_lparen) then
      let line := fst (span (fun c => negb (c =? r_newline)) rest) in
      match lastIndex r_rparen line with
      | Some k => take k line
      | None => []
      end
    else []
  | _ => []
  end.

(** The header pattern anchored at the start of [s]: capture groups 1 and 2. *)
Definition headerAt (s : gostring) : option (gostring * gostring) :=
  match matchFold (str "CREATE TABLE ") s with
  | None => None
  | Some (kw, r0) =>
    let '(q1, r1) := optRune isNameQuote r0 in
    let '(w, r2) := span isWordFold r1 in
    match w with
    | [] => None
    | _ :: _ =>
      let '(q2, r3) := optRune isNameQuote r2 in
      Some (kw ++ q1 ++ w ++ q2, bodyGroup r3)
    end
  end.

(** [reg.FindStringSubmatch(sql)]: the leftmost match. *)
Fixpoint findHeader (sql : gostring) : option (gostring * gostring) :=
  match headerAt sql with
  | Some m => Some m
  | None =>
    match sql with
    | [] => None
    | _ :: sql' => findHeader sql'
    end
  end.

(** ** The CREATE TABLE tokenizer: [sqliteParseDDL] *)

Record sqliteDDL : Type := mkDDL { head : gostring; fields : list gostring }.

Definition errInvalidDDL : error := errorString (str "invalid DDL").
Definition errUnbalanced : error :=
  errorString (str "invalid DDL, unbalanced brackets").

(** The loop variables of the scan. *)
Record scanState : Type := mkScan {
  bracketLevel : Z;
  quote : rune;
  buf : gostring;
  scanned : list gostring      (* the local [fields] *)
}.

Inductive iteration : Type :=
| Proceed (st : scanState) (skip : bool)   (* [skip]: the body did [i++] *)
| Continue (st : scanState)                (* the [continue] of a separator *)
| Abort (e : error).

Definition isQuoteRune (c : rune) : bool :=
  (c =? r_squote) || (c =? r_dquote) || (c =? r_bquote).

(** One pass through the body of the [for] loop, at rune [c] with lookahead
    [next] (0 past the end). *)
Definition loopBody (c next : rune) (st : scanState) : iteration :=
  let finish (st : scanState) (skip : bool) :=
    if (bracketLevel st <? 0)%Z then Abort errUnbalanced
    else Proceed (mkScan (bracketLevel st) (quote st) (buf st ++ [c]) (scanned st)) skip in
  if isQuoteRune c then
    if c =? next then
      finish (mkScan (bracketLevel st) (quote st) (buf st ++ [c]) (scanned st)) true
    else if 0 <? quote st then
      finish (mkScan (bracketLevel st) 0 (buf st) (scanned st)) false
    else
      finish (mkScan (bracketLevel st) c (buf st) (scanned st)) false
  else if quote st =? 0 then
    if c =? r_lparen then
      finish (mkScan (bracketLevel st + 1) (quote st) (buf st) (scanned st)) false
    else if c =? r_rparen then
      finish (mkScan (bracketLevel st - 1) (quote st) (buf st) (scanned st)) false
    else if (bracketLevel st =? 0)%Z then
      if c =? r_comma then
        Continue (mkScan (bracketLevel st) (quote st) [] (scanned st ++ [TrimSpace (buf st)]))
      else finish st false
    else finish st false
  else finish st false.

(** What follows the loop. *)
Definition afterLoop (ddlHead : gostring) (st : scanState) : result sqliteDDL :=
  if negb (bracketLevel st =? 0)%Z then Err errUnbalanced
  else if negb (streq (buf st) [])
  then Ok (mkDDL ddlHead (scanned st ++ [TrimSpace (buf st)]))
  else Ok (mkDDL ddlHead (scanned st)).

(** The loop over [ddlBodyRunes], from index [i] on ([rs] is the slice from
    [i]). *)
Fixpoint scanLoop (ddlHead : gostring) (rs : list rune) (st : scanState)
  : result sqliteDDL :=
  match rs with
  | [] => afterLoop ddlHead st
  | c :: rest =>
    match loopBody c (hd 0 rest) st with
    | Abort e => Err e
    | Continue st' => scanLoop ddlHead rest st'
    | Proceed st' false => scanLoop ddlHead rest st'
    | Proceed st' true =>
      match rest with
      | _ :: rest' => scanLoop ddlHead rest' st'
      | [] => afterLoop ddlHead st'
      end
    end
  end.

Definition sqliteParseDDL (sql : gostring) : result sqliteDDL :=
  match findHeader sql with
  | None => Err errInvalidDDL
  | Some (ddlHead, ddlBody) => scanLoop ddlHead ddlBody (mkScan 0 0 [] [])
  end.

(** The column pattern of [getColumns] (start of text, an optional name
    quote, one or more word runes, an optional name quote): capture group 1. *)
Definition columnIdent (f : gostring) : option gostring :=
  let '(_, r) := optRune isNameQuote f in
  match fst (span isWord r) with
  | [] => None
  | w => Some w
  end.

(** The method [getColumns] of [sqliteDDL]. *)
Fixpoint columnsOf (fs : list gostring) : list gostring :=
  match fs with
  | [] => []
  | f :: fs' =>
    let fUpper := ToUpper f in
    if HasPrefix fUpper (str "PRIMARY KEY")
       || HasPrefix fUpper (str "CHECK")
       || HasPrefix fUpper (str "CONSTRAINT")
    then columnsOf fs'
    else
      match columnIdent f with
      | Some name => ([r_bquote] ++ name ++ [r_bquote]) :: columnsOf fs'
      | None => columnsOf fs'
      end
  end.

Definition getColumns (p : sqliteDDL) : list gostring := columnsOf (fields p).

(** ** The document model ([compile], [addConstraint], [removeConstraint],
    [hasConstraint]) *)

(** The constraint pattern: at the start of the clause, CONSTRAINT and a
    space, an optional name quote, the name (quoted by [regexp.QuoteMeta],
    so literal), then a double quote, a backtick or a space. *)
Definition isConstraintEnd (c : rune) : bool :=
  (c =? r_dquote) || (c =? r_bquote) || (c =? r_space).

Definition nameThenEnd (n s : gostring) : bool :=
  HasPrefix s n
  && match drop (length n) s with
     | c :: _ => isConstraintEnd c
     | [] => false
     end.

Definition matchConstraint (n f : gostring) : bool :=
  HasPrefix f (str "CONSTRAINT ")
  && (let r := drop 11 f in
      match r with
      | q :: r' => (isNameQuote q && nameThenEnd n r') || nameThenEnd n r
      | [] => nameThenEnd n r
      end).

Definition compile (p : sqliteDDL) : gostring :=
  match fields p with
  | [] => head p
  | _ => head p ++ str " (" ++ Join (fields p) [r_comma] ++ str ")"
  end.

(** The loop of [addConstraint]: the first matching clause is replaced. *)
Fixpoint replaceConstraint (n sql : gostring) (fs : list gostring)
  : option (list gostring) :=
  match fs with
  | [] => None
  | f :: rest =>
    if matchConstraint n f then Some (sql :: rest)
    else match replaceConstraint n sql rest with
         | Some rest' => Some (f :: rest')
         | None => None
         end
  end.

Definition addConstraint (n sql : gostring) (p : sqliteDDL) : sqliteDDL :=
  match replaceConstraint n sql (fields p) with
  | Some fs => mkDDL (head p) fs
  | None => mkDDL (head p) (fields p ++ [sql])
  end.

(** The loop of [removeConstraint]: the first matching clause is removed. *)
Fixpoint dropConstraint (n : gostring) (fs : list gostring) : option (list gostring) :=
  match fs with
  | [] => None
  | f :: rest =>
    if matchConstraint n f then Some rest
    else match dropConstraint n rest with
         | Some rest' => Some (f :: rest')
         | None => None
         end
  end.

Definition removeConstraint (n : gostring) (p : sqliteDDL) : bool * sqliteDDL :=
  match dropConstraint n (fields p) with
  | Some fs => (true, mkDDL (head p) fs)
  | None => (false, p)
  end.

Definition hasConstraint (n : gostring) (p : sqliteDDL) : bool :=
  existsb (matchConstraint n) (fields p).

(** The statement of the design document's tokenizer example. *)
Definition exampleDDL : gostring :=
  str "CREATE TABLE " ++ [r_dquote] ++ str "t" ++ [r_dquote]
  ++ str " (`a` INT, `b` TEXT DEFAULT 'x,y', CONSTRAINT "
  ++ [r_dquote] ++ str "pk" ++ [r_dquote] ++ str " PRIMARY KEY(`a`))".

(** ** The tokenizer as the design document words it

    The document describes the scan through the role each rune of the body
    plays: a doubled quote is two literal runes; any other quote rune opens
    or closes a quoted span; outside quoted spans a parenthesis changes the
    nesting depth and a comma is a candidate separator; every other rune is
    literal. *)

Inductive token : Type :=
| TLiteral (c : rune)
| TQuote (c : rune)
| TOpen
| TClose
| TComma.

Fixpoint classify (inQuote : bool) (s : list rune) : list token :=
  match s with
  | [] => []
  | c :: rest =>
    if isQuoteRune c then
      match rest with
      | n :: rest' =>
        if c =? n then TLiteral c :: TLiteral c :: classify inQuote rest'
        else TQuote c :: classify (negb inQuote) rest
      | [] => [TQuote c]
      end
    else if inQuote then TLiteral c :: classify inQuote rest
    else if c =? r_lparen then TOpen :: classify inQuote rest
    else if c =? r_rparen then TClose :: classify inQuote rest
    else if c =? r_comma then TComma :: classify inQuote rest
    else TLiteral c :: classify inQuote rest
  end.

Definition tokenRune (t : token) : rune :=
  match t with
  | TLiteral c | TQuote c => c
  | TOpen => r_lparen
  | TClose => r_rparen
  | TComma => r_comma
  end.

(** Change of nesting depth caused by a token. *)
Definition weight (t : token) : Z :=
  match t with
  | TOpen => 1
  | TClose => -1
  | _ => 0
  end%Z.

(** Nesting depth after a run of tokens. *)
Fixpoint depth (ts : list token) : Z :=
  match ts with
  | [] => 0
  | t :: ts' => weight t + depth ts'
  end%Z.

(** Whether the depth, starting from [d], becomes negative along the way. *)
Fixpoint goesNegative (d : Z) (ts : list token) : bool :=
  match ts with
  | [] => false
  | t :: ts' => ((d + weight t <? 0) || goesNegative (d + weight t) ts')%Z
  end.


(** The clauses: the text between separators, a separator being a comma
    token met at depth 0; each clause is trimmed, and an empty remainder
    after the last separator is no clause. [d] is the depth so far and [cur]
    the text of the clause being read. *)
Fixpoint clauses (d : Z) (cur : gostring) (ts : list token) : list gostring :=
  match ts with
  | [] => match cur with [] => [] | _ => [TrimSpace cur] end
  | TComma :: ts' =>
    if (d =? 0)%Z then TrimSpace cur :: clauses d [] ts'
    else clauses d (cur ++ [r_comma]) ts'
  | t :: ts' => clauses (d + weight t) (cur ++ [tokenRune t]) ts'
  end.

(** ** State passing

    Every operation on the database takes the state of the database and
    returns its answer with the state that follows. *)

Definition M (S A : Type) : Type := S -> A * S.

Definition ret {S A : Type} (a : A) : M S A := fun s => (a, s).

Definition bindM {S A B : Type} (c : M S A) (k : A -> M S B) : M S B :=
  fun s => let '(a, s') := c s in k a s'.

(** [c] then [k], unless [c] returned an error (Go: [if err != nil return err]). *)
Definition andThen {S : Type} (c : M S (option error)) (k : M S (option error))
  : M S (option error) :=
  bindM c (fun r => match r with Some e => ret (Some e) | None => k end).

Notation "'do' x <- c ; k" := (bindM c (fun x => k))
  (at level 10, x name, c at level 100, k at level 200).
Notation "'try' c ; k" := (andThen c k)
  (at level 10, c at level 100, k at level 200).

(** ** The [DB] interface, as the SQLite driver uses it *)

(** What [rows.ColumnTypes()] reports for one column ([database/sql]). *)
Record sqlColumnType : Type := mkColumnType {
  ctName : gostring;
  ctDatabaseTypeName : gostring;
  ctLength : option Z;          (* [Length()]: the size when [ok] *)
  ctNullable : option bool      (* [Nullable()]: the flag when [ok] *)
}.

Record DB (S : Type) : Type := mkDB {
  (* [p.Exec(sql, args...)], the result value dropped *)
  Exec : gostring -> list gostring -> M S (option error);
  (* [p.Query(sql, args...).Row(&s)] into a string *)
  QueryRowString : gostring -> list gostring -> M S (result gostring);
  (* [p.Query(sql, args...).Row(&count)] into an int64 *)
  QueryRowCount : gostring -> list gostring -> M S (result Z);
  (* [p.Query(sql)] followed by [rows.ColumnTypes()] and [rows.Close()] *)
  QueryColumnTypes : gostring -> M S (result (list sqlColumnType))
}.
Arguments Exec {S} _ _ _ _.
Arguments QueryRowString {S} _ _ _ _.
Arguments QueryRowCount {S} _ _ _ _.
Arguments QueryColumnTypes {S} _ _ _.

(** ** Column bindings and options *)

Record FieldOptions : Type := mkFieldOptions {
  name : gostring;
  driverDataType : gostring;
  size : option Z;              (* [*int64] *)
  notNull : option bool;        (* [*bool] *)
  unique : option bool;         (* [*bool] *)
  defaultValue : gostring;
  class : gostring              (* index class *)
}.

(** A [field] of the reflected record type: its [FieldOptions] (embedded in
    the source) and the flags the driver reads. *)
Record field : Type := mkField {
  options :> FieldOptions;
  primaryKey : bool;
  autoIncrement : bool;
  indexKey : bool
}.

(** [SqlOptions]: the table name and the sample. The schema reflector
    ([tableFields]) is not part of the files at hand: the ordered column
    bindings it derives from the sample stand for the sample itself. *)
Record SqlOptions : Type := mkSqlOptions {
  Table : gostring;
  sample : list field
}.

Definition tableFields (o : SqlOptions) : list field := sample o.

(** Modelled from the spec: [tableFieldLookup] is not under src; it looks the
    column binding of the given name up in the bindings of the sample (names
    are unique within a record type). *)
Fixpoint lookupField (fs : list field) (n : gostring) : option FieldOptions :=
  match fs with
  | [] => None
  | f :: fs' => if streq (name f) n then Some (options f) else lookupField fs' n
  end.

Definition tableFieldLookup (o : SqlOptions) (n : gostring) : option FieldOptions :=
  lookupField (tableFields o) n.

(** Modelled from the spec: the pointer helpers of package [util] are not
    under src; a nil pointer reads as the zero value. *)
Definition Int64Value (p : option Z) : Z := match p with Some v => v | None => 0%Z end.
Definition BoolValue (p : option bool) : bool := match p with Some b => b | None => false end.

Definition isNil {A : Type} (p : option A) : bool :=
  match p with Some _ => false | None => true end.

(** ** The dialect driver interface *)

Record Driver (S : Type) : Type := mkDriver {
  HasTable : gostring -> M S bool;
  HasColumn : gostring -> SqlOptions -> M S bool;
  HasIndex : gostring -> SqlOptions -> M S bool;
  ColumnTypes : SqlOptions -> M S (result (list FieldOptions));
  CreateTable : SqlOptions -> M S (option error);
  DropTable : SqlOptions -> M S (option error);
  AddColumn : gostring -> SqlOptions -> M S (option error);
  DropColumn : gostring -> SqlOptions -> M S (option error);
  AlterColumn : gostring -> SqlOptions -> M S (option error);
  CreateIndex : gostring -> SqlOptions -> M S (option error);
  DropIndex : gostring -> SqlOptions -> M S (option error)
}.
Arguments HasTable {S} _ _ _.
Arguments HasColumn {S} _ _ _ _.
Arguments HasIndex {S} _ _ _ _.
Arguments ColumnTypes {S} _ _ _.
Arguments CreateTable {S} _ _ _.
Arguments DropTable {S} _ _ _.
Arguments AddColumn {S} _ _ _ _.
Arguments DropColumn {S} _ _ _ _.
Arguments AlterColumn {S} _ _ _ _.
Arguments CreateIndex {S} _ _ _ _.
Arguments DropIndex {S} _ _ _ _.

(** ** Package regexp

    The patterns that hold a table or column name are compiled at run time
    from a text into which the name is spliced as it is. The package is
    external: compiling may fail, and what a compiled pattern matches and
    how the replacement text is expanded is the package's. *)

Record Regexp (Re : Type) : Type := mkRegexp {
  Compile : gostring -> result Re;                          (* [regexp.Compile] *)
  ReplaceAllString : Re -> gostring -> gostring -> gostring (* [reg.ReplaceAllString(src, repl)] *)
}.
Arguments Compile {Re} _ _.
Arguments ReplaceAllString {Re} _ _ _ _.

(** The pattern texts, as the source concatenates them. *)
Definition tablePatternText (table : gostring) : gostring :=
  (str " ('|`|" ++ [r_dquote] ++ str "| )") ++ table
  ++ (str "('|`|" ++ [r_dquote] ++ str "| ) ").

Definition dropPatternText (column : gostring) : gostring :=
  (str "(`|'|" ++ [r_dquote] ++ str "| |\[)") ++ column
  ++ (str "(`|'|" ++ [r_dquote] ++ str "| |\]) .*?,").

Definition alterPatternText (column : gostring) : gostring :=
  (str "(`|'|" ++ [r_dquote] ++ str "| )") ++ column
  ++ (str "(`|'|" ++ [r_dquote] ++ str "| ) .*?,").

(** ** The name patterns, matched by hand

    What the three patterns match when the name spliced into them is made
    of word runes, so that it stands for itself. [matchLen s] is the length
    of the match of the pattern at the start of [s], if there is one; these
    patterns never match the empty string. Matches are replaced from left to
    right, the search resuming after each match, by a replacement text
    without dollar sign, which stands for itself. [skip] counts the runes of
    the current match still to be passed over. *)
Fixpoint replaceAllFrom (matchLen : gostring -> option nat) (repl : gostring)
    (skip : nat) (s : gostring) : gostring :=
  match s with
  | [] => []
  | c :: s' =>
    match skip with
    | S k => replaceAllFrom matchLen repl k s'
    | O =>
      match matchLen s with
      | Some (S n) => repl ++ replaceAllFrom matchLen repl n s'
      | _ => c :: replaceAllFrom matchLen repl O s'
      end
    end
  end.

Definition replaceAll (matchLen : gostring -> option nat)
    (src repl : gostring) : gostring :=
  replaceAllFrom matchLen repl O src.

(** The lazy any-rune loop followed by [stop]: the number of runes before
    the first [stop], none of them a newline. *)
Fixpoint lazyUpTo (stop : rune) (s : gostring) : option nat :=
  match s with
  | [] => None
  | c :: s' =>
    if c =? stop then Some O
    else if c =? r_newline then None
    else match lazyUpTo stop s' with Some k => Some (S k) | None => None end
  end.

(** The table pattern of [recreateTable]: a space, one of quote, backtick,
    double quote or space, the table name, one of the same four, a space. *)
Definition isTableQuote (c : rune) : bool :=
  (c =? r_squote) || (c =? r_bquote) || (c =? r_dquote) || (c =? r_space).

Definition tablePatternAt (table : gostring) (s : gostring) : option nat :=
  match s with
  | sp :: q1 :: r =>
    if (sp =? r_space) && isTableQuote q1 && HasPrefix r table then
      match drop (length table) r with
      | q2 :: sp2 :: _ =>
        if isTableQuote q2 && (sp2 =? r_space)
        then Some (4 + length table)%nat else None
      | _ => None
      end
    else None
  | _ => None
  end.

(** The column patterns of [DropColumn] and [AlterColumn]: an opening
    delimiter, the column name, a closing delimiter, a space, then lazily any
    runes up to the first comma. *)
Definition columnPatternAt (opening closing : rune -> bool) (column : gostring)
    (s : gostring) : option nat :=
  match s with
  | q1 :: r =>
    if opening q1 && HasPrefix r column then
      match drop (length column) r with
      | q2 :: sp :: tail =>
        if closing q2 && (sp =? r_space) then
          match lazyUpTo r_comma tail with
          | Some k => Some (3 + length column + k + 1)%nat
          | None => None
          end
        else None
      | _ => None
      end
    else None
  | [] => None
  end.

Definition isDropOpen (c : rune) : bool := isTableQuote c || (c =? r_lbracket).
Definition isDropClose (c : rune) : bool := isTableQuote c || (c =? r_rbracket).

(** A regexp package that knows the three name patterns, for names made of
    word runes, and refuses every other pattern text. Its replacement texts
    stand for themselves. *)
Definition matcher : Type := gostring -> option nat.

Definition errPattern : error := errorString (str "error parsing regexp").

(** The text of [p] between [pre] and [suf], when [p] starts with the one
    and ends with the other. *)
Definition between (pre suf p : gostring) : option gostring :=
  if (length pre + length suf <=? length p)%nat
     && HasPrefix p pre && HasPrefix (rev p) (rev suf)
  then Some (take (length p - length pre - length suf) (drop (length pre) p))
  else None.

Definition namePatterns : Regexp matcher :=
  mkRegexp matcher
    (fun p =>
       let wordOnly (m : gostring -> matcher) (n : gostring) : result matcher :=
         if isWordName n then Ok (m n) else Err errPattern in
       match between (str " ('|`|" ++ [r_dquote] ++ str "| )")
                     (str "('|`|" ++ [r_dquote] ++ str "| ) ") p with
       | Some n => wordOnly tablePatternAt n
       | None =>
         match between (str "(`|'|" ++ [r_dquote] ++ str "| |\[)")
                       (str "(`|'|" ++ [r_dquote] ++ str "| |\]) .*?,") p with
         | Some n => wordOnly (columnPatternAt isDropOpen isDropClose) n
         | None =>
           match between (str "(`|'|" ++ [r_dquote] ++ str "| )")
                         (str "(`|'|" ++ [r_dquote] ++ str "| ) .*?,") p with
           | Some n => wordOnly (columnPatternAt isTableQuote isTableQuote) n
           | None => Err errPattern
           end
         end
       end)
    (fun m src repl => replaceAll m src repl).

(** ** The SQLite dialect driver (sqlite.go) *)

Definition FullDataTypeOf (f : FieldOptions) : gostring :=
  let SQL := driverDataType f in
  let SQL := if negb (isNil (notNull f)) && BoolValue (notNull f)
             then SQL ++ str " NOT NULL" else SQL in
  let SQL := if negb (isNil (unique f)) && BoolValue (unique f)
             then SQL ++ str " UNIQUE" else SQL in
  if negb (streq (defaultValue f) [])
  then SQL ++ str " DEFAULT " ++ defaultValue f else SQL.

Definition convertFieldOptions (c : sqlColumnType) : FieldOptions :=
  mkFieldOptions (ctName c) (ctDatabaseTypeName c) (ctLength c)
    (match ctNullable c with Some nullable => Some (negb nullable) | None => None end)
    None [] [].

(** [strings.TrimSuffix] for a one-rune suffix. *)
Definition trimSuffixRune (s : gostring) (c : rune) : gostring :=
  match rev s with
  | x :: r => if x =? c then rev r else s
  | [] => s
  end.

(** The value a count query leaves in [count]: zero when the row could not
    be read. *)
Definition countOf (r : result Z) : Z := match r with Ok n => n | Err _ => 0%Z end.

Section Sqlite.
Context {Re : Type} (regexp : Regexp Re).
Context {S : Type} (p : DB S).

Definition getRawDDL (table : gostring) : M S (result gostring) :=
  QueryRowString p
    (str "SELECT sql FROM sqlite_master WHERE type = ? AND tbl_name = ? AND name = ?")
    [str "table"; table; table].

(** The statements that follow the CREATE of the temporary table. *)
Definition recreateQueries (table newTableName : gostring) (columns : list gostring)
  : list gostring :=
  [ str "INSERT INTO `" ++ newTableName ++ str "`(" ++ Join columns [r_comma]
      ++ str ") SELECT " ++ Join columns [r_comma] ++ str " FROM `" ++ table ++ str "`";
    str "DROP TABLE `" ++ table ++ str "`";
    str "ALTER TABLE `" ++ newTableName ++ str "` RENAME TO `" ++ table ++ str "`" ].

Fixpoint execQueries (queries : list gostring) : M S (option error) :=
  match queries with
  | [] => ret None
  | query :: rest => try Exec p query []; execQueries rest
  end.

Definition recreateTable (o : SqlOptions)
    (getCreateSQL : gostring -> result (gostring * list gostring))
  : M S (option error) :=
  let table := Table o in
  do r <- getRawDDL table;
  match r with
  | Err err => ret (Some err)
  | Ok rawDDL =>
    let newTableName := table ++ str "__temp" in
    match getCreateSQL rawDDL with
    | Err err => ret (Some err)
    | Ok (createSQL, sqlArgs) =>
      if streq createSQL [] then ret None
      else
        match Compile regexp (tablePatternText table) with
        | Err err => ret (Some err)
        | Ok tableReg =>
          let createSQL :=
            ReplaceAllString regexp tableReg createSQL
              (str " `" ++ newTableName ++ str "` ") in
          match sqliteParseDDL createSQL with
          | Err err => ret (Some err)
          | Ok createDDL =>
            let columns := getColumns createDDL in
            try Exec p createSQL sqlArgs;
            execQueries (recreateQueries table newTableName columns)
          end
        end
    end
  end.

(** The closure [DropColumn] hands to [recreateTable]. *)
Definition dropColumnSQL (column : gostring) (rawDDL : gostring)
  : result (gostring * list gostring) :=
  match Compile regexp (dropPatternText column) with
  | Err err => Err err
  | Ok reg => Ok (ReplaceAllString regexp reg rawDDL [], [])
  end.

Definition Sqlite_DropColumn (column : gostring) (o : SqlOptions) : M S (option error) :=
  recreateTable o (dropColumnSQL column).

(** The closure [AlterColumn] hands to [recreateTable]. *)
Definition alterColumnSQL (column : gostring) (o : SqlOptions) (rawDDL : gostring)
  : result (gostring * list gostring) :=
  match tableFieldLookup o column with
  | None => Err (errorString (str "failed to look up field with name: " ++ column))
  | Some f =>
    match Compile regexp (alterPatternText (name f)) with
    | Err err => Err err
    | Ok reg =>
      Ok (ReplaceAllString regexp reg rawDDL
            (str "`" ++ name f ++ str "` " ++ FullDataTypeOf f ++ str ","), [])
    end
  end.

Definition Sqlite_AlterColumn (column : gostring) (o : SqlOptions) : M S (option error) :=
  recreateTable o (alterColumnSQL column o).

Definition Sqlite_AddColumn (column : gostring) (o : SqlOptions) : M S (option error) :=
  match tableFieldLookup o column with
  | None => ret (Some (errorString (str "failed to look up field with name: " ++ column)))
  | Some f =>
    Exec p (str "ALTER TABLE `" ++ Table o ++ str "` ADD `" ++ name f ++ str "` "
            ++ FullDataTypeOf f) []
  end.

Definition Sqlite_CreateIndex (n : gostring) (o : SqlOptions) : M S (option error) :=
  match tableFieldLookup o n with
  | None => ret (Some (errorString (str "failed to create index with name " ++ n)))
  | Some f =>
    let createIndexSQL := str "CREATE " in
    let createIndexSQL :=
      if negb (streq (class f) []) then createIndexSQL ++ class f ++ str " "
      else createIndexSQL in
    let createIndexSQL :=
      createIndexSQL ++ str "INDEX `" ++ name f ++ str "` ON " ++ Table o
        ++ str "(" ++ name f ++ str ")" in
    Exec p createIndexSQL []
  end.

Definition Sqlite_DropIndex (n : gostring) (o : SqlOptions) : M S (option error) :=
  Exec p (str "DROP INDEX `" ++ n ++ str "`") [].

Definition Sqlite_HasIndex (n : gostring) (o : SqlOptions) : M S bool :=
  do r <- QueryRowCount p
    (str "SELECT count(*) FROM sqlite_master WHERE type = ? AND tbl_name = ? AND name = ?")
    [str "index"; Table o; n];
  ret (0 <? countOf r)%Z.

Definition Sqlite_HasTable (tableName : gostring) : M S bool :=
  do r <- QueryRowCount p
    (str "SELECT count(*) FROM sqlite_master WHERE type='table' AND name=?")
    [tableName];
  ret (0 <? countOf r)%Z.

Definition Sqlite_HasColumn (n : gostring) (o : SqlOptions) : M S bool :=
  do r <- QueryRowCount p
    (str "SELECT count(*) FROM sqlite_master WHERE type = ? AND tbl_name = ? AND (sql LIKE ? OR sql LIKE ? OR sql LIKE ? OR sql LIKE ? OR sql LIKE ?)")
    [ str "table"; Table o;
      str "%" ++ [r_dquote] ++ n ++ [r_dquote] ++ str " %";
      str "%" ++ n ++ str " %";
      str "%`" ++ n ++ str "`%";
      str "%[" ++ n ++ str "]%";
      str "%" ++ [9] ++ n ++ [9] ++ str "%" ];
  ret (0 <? countOf r)%Z.

Definition Sqlite_ColumnTypes (o : SqlOptions) : M S (result (list FieldOptions)) :=
  do r <- QueryColumnTypes p (str "select * from `" ++ Table o ++ str "` limit 1");
  match r with
  | Err err => ret (Err err)
  | Ok rawColumnTypes => ret (Ok (List.map convertFieldOptions rawColumnTypes))
  end.

Definition Sqlite_DropTable (o : SqlOptions) : M S (option error) :=
  Exec p (str "DROP TABLE IF EXISTS `" ++ Table o ++ str "`") [].

(** The text of the CREATE TABLE statement [CreateTable] builds. *)
Definition createTableSQL (o : SqlOptions) : gostring :=
  let fields := tableFields o in
  let SQL := str "CREATE TABLE `" ++ Table o ++ str "` (" in
  let SQL :=
    fold_left (fun SQL (f : field) =>
                 SQL ++ str "`" ++ name f ++ str "` " ++ FullDataTypeOf f ++ str ",")
              fields SQL in
  let primaryKeys :=
    List.map (fun f : field => str "`" ++ name f ++ str "`")
             (List.filter primaryKey fields) in
  let SQL :=
    match primaryKeys with
    | [] => SQL
    | _ => SQL ++ str "PRIMARY KEY (" ++ Join primaryKeys [r_comma] ++ str "),"
    end in
  trimSuffixRune SQL r_comma ++ str ")".

(** The deferred calls of [CreateTable], in the order they were deferred:
    each creates its index only while [err] is still nil. *)
Fixpoint runDeferred (deferred : list field) (o : SqlOptions) (err : option error)
  : M S (option error) :=
  match deferred with
  | [] => ret err
  | f :: rest =>
    (* deferred calls run last in, first out *)
    do err <- runDeferred rest o err;
    match err with
    | None => Sqlite_CreateIndex (name f) o
    | Some e => ret (Some e)
    end
  end.

Definition Sqlite_CreateTable (o : SqlOptions) : M S (option error) :=
  let deferred := List.filter indexKey (tableFields o) in
  do err <- Exec p (createTableSQL o) [];
  runDeferred deferred o err.

Definition Sqlite : Driver S :=
  mkDriver S Sqlite_HasTable Sqlite_HasColumn Sqlite_HasIndex Sqlite_ColumnTypes
    Sqlite_CreateTable Sqlite_DropTable Sqlite_AddColumn Sqlite_DropColumn
    Sqlite_AlterColumn Sqlite_CreateIndex Sqlite_DropIndex.

End Sqlite.

(** ** Automigrate ([AutoMigrate], [MigrateColumn]) *)

(** The inner loop of [AutoMigrate]: the first actual column of that name. *)
Fixpoint foundField (actualFields : list FieldOptions) (expectName : gostring)
  : option FieldOptions :=
  match actualFields with
  | [] => None
  | acturalField :: rest =>
    if streq (name acturalField) expectName then Some acturalField
    else foundField rest expectName
  end.

(** The flag [alterColumn] of [MigrateColumn]. *)
Definition alterColumn (expect actual : FieldOptions) : bool :=
  let alterColumn := false in
  let alterColumn :=
    if negb (isNil (size actual))
       && negb (Int64Value (size expect) =? Int64Value (size actual))%Z
    then true else alterColumn in
  let alterColumn :=
    if negb (isNil (notNull expect))
       && negb (Bool.eqb (BoolValue (notNull expect)) (BoolValue (notNull actual)))
    then true else alterColumn in
  alterColumn.

Section AutoMigrate.
Context {S : Type} (p : Driver S).

Definition MigrateColumn (expect actual : FieldOptions) (o : SqlOptions)
  : M S (option error) :=
  if alterColumn expect actual then AlterColumn p (name expect) o else ret None.

(** The first loop of [AutoMigrate]. *)
Fixpoint migrateColumns (actualFields : list FieldOptions) (expectFields : list field)
    (o : SqlOptions) : M S (option error) :=
  match expectFields with
  | [] => ret None
  | expectField :: rest =>
    try (match foundField actualFields (name expectField) with
         | None => AddColumn p (name expectField) o
         | Some found => MigrateColumn (options expectField) found o
         end);
    migrateColumns actualFields rest o
  end.

(** The second loop of [AutoMigrate]. *)
Fixpoint migrateIndexes (expectFields : list field) (o : SqlOptions)
  : M S (option error) :=
  match expectFields with
  | [] => ret None
  | f :: rest =>
    if indexKey f then
      do has <- HasIndex p (name f) o;
      if negb has then (try CreateIndex p (name f) o; migrateIndexes rest o)
      else migrateIndexes rest o
    else migrateIndexes rest o
  end.

Definition AutoMigrate (o : SqlOptions) : M S (option error) :=
  do has <- HasTable p (Table o);
  if negb has then CreateTable p o
  else
    do r <- ColumnTypes p o;
    let actualFields := match r with Ok l => l | Err _ => [] end in
    let expectFields := tableFields o in
    try migrateColumns actualFields expectFields o;
    migrateIndexes expectFields o.

End AutoMigrate.

(** ** Observing a run

    The statements a driver sends to [Exec], in order. *)

Definition statement : Type := gostring * list gostring.

Definition logged {S : Type} (p : DB S) : DB (S * list statement) :=
  mkDB (S * list statement)
    (fun sql args '(s, log) =>
       let '(r, s') := Exec p sql args s in (r, (s', log ++ [(sql, args)])))
    (fun sql args '(s, log) =>
       let '(r, s') := QueryRowString p sql args s in (r, (s', log)))
    (fun sql args '(s, log) =>
       let '(r, s') := QueryRowCount p sql args s in (r, (s', log)))
    (fun sql '(s, log) =>
       let '(r, s') := QueryColumnTypes p sql s in (r, (s', log))).

(** The state after the statements of [log] have been sent one after the
    other, whatever each of them returned. *)
Definition runAll {S : Type} (p : DB S) (log : list statement) (s : S) : S :=
  fold_left (fun s (st : statement) => snd (Exec p (fst st) (snd st) s)) log s.

(** What each statement of [log] returns when they are sent one after the
    other from state [s]. *)
Fixpoint outcomes {S : Type} (p : DB S) (log : list statement) (s : S)
  : list (option error) :=
  match log with
  | [] => []
  | st :: rest =>
    fst (Exec p (fst st) (snd st) s) :: outcomes p rest (snd (Exec p (fst st) (snd st) s))
  end.


(** ** A catalogue in memory

    A small database for running the driver: the state is the catalogue, the
    table names with the text of their CREATE statements. *)

Definition catalogue : Type := list (gostring * gostring).

Fixpoint catalogueFind (t : gostring) (s : catalogue) : option gostring :=
  match s with
  | [] => None
  | (n, ddl) :: s' => if streq n t then Some ddl else catalogueFind t s'
  end.

Fixpoint catalogueRemove (t : gostring) (s : catalogue) : catalogue :=
  match s with
  | [] => []
  | (n, ddl) :: s' =>
    if streq n t then catalogueRemove t s' else (n, ddl) :: catalogueRemove t s'
  end.

(** The table name in a matched header: what follows CREATE TABLE, without
    its quotes. *)
Definition headerName (h : gostring) : gostring :=
  List.filter (fun c => negb (isNameQuote c)) (drop 13 h).

(** The name between backticks at the start of [s], and what follows. *)
Definition backticked (s : gostring) : gostring * gostring :=
  let '(n, r) := span (fun c => negb (c =? r_bquote)) s in (n, drop 1 r).

Definition errNoSuchTable : error := errorString (str "no such table").
Definition errTableExists : error := errorString (str "table already exists").

Definition memExec (sql : gostring) (args : list gostring) : M catalogue (option error) :=
  fun s =>
    match findHeader sql with
    | Some (h, _) =>
      match catalogueFind (headerName h) s with
      | Some _ => (Some errTableExists, s)
      | None => (None, s ++ [(headerName h, sql)])
      end
    | None =>
      if HasPrefix sql (str "DROP TABLE `") then
        let '(t, _) := backticked (drop 12 sql) in
        match catalogueFind t s with
        | Some _ => (None, catalogueRemove t s)
        | None => (Some errNoSuchTable, s)
        end
      else if HasPrefix sql (str "ALTER TABLE `") then
        let '(t, r) := backticked (drop 13 sql) in
        if HasPrefix r (str " RENAME TO `") then
          let '(t', _) := backticked (drop 12 r) in
          match catalogueFind t s with
          | Some ddl =>
            (None,
             catalogueRemove t s
               ++ [(t', replaceAll (tablePatternAt t) ddl (str " `" ++ t' ++ str "` "))])
          | None => (Some errNoSuchTable, s)
          end
        else (None, s)
      else (None, s)
    end.

Definition memDB : DB catalogue :=
  mkDB catalogue
    memExec
    (fun sql args s =>
       match args with
       | [_; t; _] =>
         match catalogueFind t s with
         | Some ddl => (Ok ddl, s)
         | None => (Err (StatusNotFound (str "object")), s)
         end
       | _ => (Err (StatusNotFound (str "object")), s)
       end)
    (fun sql args s =>
       match args with
       | [t] => (Ok (match catalogueFind t s with Some _ => 1 | None => 0 end)%Z, s)
       | _ => (Ok 0%Z, s)
       end)
    (fun sql s => (Ok [], s)).


(** A table with three columns. *)
Definition exampleTable : SqlOptions := mkSqlOptions (str "t") [].
Definition exampleCatalogue : catalogue :=
  [(str "t", str "CREATE TABLE `t` (`a` INT,`b` TEXT,`c` INT)")].


(** ** Observing a migration

    The calls [AutoMigrate] makes on the driver, in order: the questions it
    asks, with the answers it got, and the DDL operations it issues. *)

Inductive event : Type :=
| QHasTable (t : gostring) (answer : bool)
| QHasColumn (n : gostring) (answer : bool)
| QHasIndex (n : gostring) (answer : bool)
| QColumnTypes (answer : result (list FieldOptions))
| OpCreateTable
| OpDropTable
| OpAddColumn (n : gostring)
| OpDropColumn (n : gostring)
| OpAlterColumn (n : gostring)
| OpCreateIndex (n : gostring)
| OpDropIndex (n : gostring).

Definition isDDL (ev : event) : bool :=
  match ev with
  | QHasTable _ _ | QHasColumn _ _ | QHasIndex _ _ | QColumnTypes _ => false
  | _ => true
  end.

(** The DDL operations of a run. *)
Definition ddlOps (log : list event) : list event := List.filter isDDL log.

Definition asking {S A : Type} (q : M S A) (ev : A -> event) : M (S * list event) A :=
  fun '(s, log) => let '(a, s') := q s in (a, (s', log ++ [ev a])).

Definition issuing {S A : Type} (op : M S A) (ev : event) : M (S * list event) A :=
  fun '(s, log) => let '(a, s') := op s in (a, (s', log ++ [ev])).

Definition traced {S : Type} (p : Driver S) : Driver (S * list event) :=
  mkDriver (S * list event)
    (fun t => asking (HasTable p t) (QHasTable t))
    (fun n o => asking (HasColumn p n o) (QHasColumn n))
    (fun n o => asking (HasIndex p n o) (QHasIndex n))
    (fun o => asking (ColumnTypes p o) QColumnTypes)
    (fun o => issuing (CreateTable p o) OpCreateTable)
    (fun o => issuing (DropTable p o) OpDropTable)
    (fun n o => issuing (AddColumn p n o) (OpAddColumn n))
    (fun n o => issuing (DropColumn p n o) (OpDropColumn n))
    (fun n o => issuing (AlterColumn p n o) (OpAlterColumn n))
    (fun n o => issuing (CreateIndex p n o) (OpCreateIndex n))
    (fun n o => issuing (DropIndex p n o) (OpDropIndex n)).








(** The statement [CreateIndex] sends for a column binding. *)
Definition createIndexSQL (o : SqlOptions) (f : FieldOptions) : gostring :=
  let createIndexSQL := str "CREATE " in
  let createIndexSQL :=
    if negb (streq (class f) []) then createIndexSQL ++ class f ++ str " "
    else createIndexSQL in
  createIndexSQL ++ str "INDEX `" ++ name f ++ str "` ON " ++ Table o
    ++ str "(" ++ name f ++ str ")".


(** The statements of [CreateTable]: the deferred index creations run last
    in, first out, each through the lookup of its column. *)
Definition indexStatements (o : SqlOptions) (fs : list field) : list statement :=
  flat_map
    (fun f : field =>
       match tableFieldLookup o (name f) with
       | Some f' => [(createIndexSQL o f', [])]
       | None => []
       end)
    fs.

(** ** A schema in memory

    A driver for one table whose operations do what their names say: the
    state records whether the table exists, the columns the database would
    report and the names of its indexes. *)

Record schema : Type := mkSchema {
  tableExists : bool;
  columns : list FieldOptions;
  indexes : list gostring
}.

Fixpoint hasName (n : gostring) (names : list gostring) : bool :=
  match names with
  | [] => false
  | m :: rest => streq m n || hasName n rest
  end.

Definition errMem (msg : string) : error := errorString (str msg).

Definition memDriver : Driver schema :=
  mkDriver schema
    (* HasTable *)
    (fun t s => (tableExists s, s))
    (* HasColumn *)
    (fun n o s => (match foundField (columns s) n with Some _ => true | None => false end, s))
    (* HasIndex *)
    (fun n o s => (hasName n (indexes s), s))
    (* ColumnTypes *)
    (fun o s => if tableExists s then (Ok (columns s), s)
                else (Err (errMem "no such table"), s))
    (* CreateTable *)
    (fun o s =>
       if tableExists s then (Some (errMem "table already exists"), s)
       else (None, mkSchema true (List.map options (sample o))
                     (List.map (fun f : field => name f) (List.filter indexKey (sample o)))))
    (* DropTable *)
    (fun o s => (None, mkSchema false [] []))
    (* AddColumn *)
    (fun n o s =>
       if negb (tableExists s) then (Some (errMem "no such table"), s)
       else
         match tableFieldLookup o n, foundField (columns s) n with
         | Some f, None => (None, mkSchema (tableExists s) (columns s ++ [f]) (indexes s))
         | Some _, Some _ => (Some (errMem "duplicate column name"), s)
         | None, _ => (Some (errMem "failed to look up field"), s)
         end)
    (* DropColumn *)
    (fun n o s =>
       (None, mkSchema (tableExists s)
                (List.filter (fun a => negb (streq (name a) n)) (columns s)) (indexes s)))
    (* AlterColumn *)
    (fun n o s =>
       if negb (tableExists s) then (Some (errMem "no such table"), s)
       else
         match tableFieldLookup o n, foundField (columns s) n with
         | Some f, Some _ =>
           (None, mkSchema (tableExists s)
                    (List.map (fun a => if streq (name a) n then f else a) (columns s))
                    (indexes s))
         | Some _, None => (Some (errMem "no such column"), s)
         | None, _ => (Some (errMem "failed to look up field"), s)
         end)
    (* CreateIndex *)
    (fun n o s =>
       if negb (tableExists s) then (Some (errMem "no such table"), s)
       else if hasName n (indexes s) then (Some (errMem "index already exists"), s)
       else (None, mkSchema (tableExists s) (columns s) (indexes s ++ [n])))
    (* DropIndex *)
    (fun n o s =>
       (None, mkSchema (tableExists s) (columns s)
                (List.filter (fun m => negb (streq m n)) (indexes s)))).

(** A desired schema of two columns, the second one indexed. *)
Definition userFields : list field :=
  [ mkField (mkFieldOptions (str "id") (str "integer") None (Some true) None [] []) true false false;
    mkField (mkFieldOptions (str "name") (str "text") (Some 10%Z) None None [] []) false false true ].

Definition userTable : SqlOptions := mkSqlOptions (str "user") userFields.


(** ** A catalogue that reports its columns

    As the catalogue in memory, and the column types of a table are read
    off the statement stored for it: for each column clause the name, the
    word that follows it as the type, no length, and nullable unless the
    clause holds NOT NULL. *)

(** [strings.Contains]. *)
Fixpoint Contains (s substr : gostring) : bool :=
  HasPrefix s substr
  || match s with
     | [] => false
     | _ :: s' => Contains s' substr
     end.

Definition clauseColumn (f : gostring) : list sqlColumnType :=
  match columnIdent f with
  | None => []
  | Some n =>
    let afterName := dropWhile (fun c => negb (isSpace c)) f in
    let typeName := fst (span (fun c => negb (isSpace c)) (TrimSpace afterName)) in
    [mkColumnType n typeName None (Some (negb (Contains (ToUpper f) (str "NOT NULL"))))]
  end.

Definition isConstraintClause (f : gostring) : bool :=
  HasPrefix (ToUpper f) (str "PRIMARY KEY")
  || HasPrefix (ToUpper f) (str "CHECK")
  || HasPrefix (ToUpper f) (str "CONSTRAINT").

Definition reportColumns (ddl : gostring) : list sqlColumnType :=
  match sqliteParseDDL ddl with
  | Ok d =>
    flat_map (fun f => if isConstraintClause f then [] else clauseColumn f) (fields d)
  | Err _ => []
  end.

Definition reportingDB : DB catalogue :=
  mkDB catalogue
    (Exec memDB) (QueryRowString memDB) (QueryRowCount memDB)
    (fun sql s =>
       (* the table of the select statement [ColumnTypes] sends *)
       match catalogueFind (fst (backticked (drop 15 sql))) s with
       | Some ddl => (Ok (reportColumns ddl), s)
       | None => (Err errNoSuchTable, s)
       end).

(** A desired table of two columns, the last one NOT NULL, and a catalogue
    in which the table exists with that column nullable. *)
Definition memberTable : SqlOptions :=
  mkSqlOptions (str "t")
    [ mkField (mkFieldOptions (str "id") (str "integer") None None None [] [])
        false false false;
      mkField (mkFieldOptions (str "name") (str "text") None (Some true) None [] [])
        false false false ].

Definition memberCatalogue : catalogue :=
  [(str "t", str "CREATE TABLE `t` (`id` integer,`name` text)")].

(** The same two columns the other way round: the column to alter is not
    the last one. *)
Definition leadingTable : SqlOptions :=
  mkSqlOptions (str "t") (rev (sample memberTable)).

Definition leadingCatalogue : catalogue :=
  [(str "t", str "CREATE TABLE `t` (`name` text,`id` integer)")].

(** ** Fetching rows (the [Rows] of a query)

    [database/sql], [encoding/json] and the reflection helpers of the value
    binder are external to the files at hand. A result set is the list of
    the rows the driver still has to deliver; what a scan or a decode does
    to a destination is given by a record of operations. *)

(** [strings.ToLower], exact on ASCII. *)
Definition toLowerRune (c : rune) : rune :=
  if (65 <=? c) && (c <=? 90) then c + 32 else c.
Definition ToLower (s : gostring) : gostring := List.map toLowerRune s.

Section Fetch.
Context {R V C B P : Type}.
(* R: a row as the driver holds it      V: a record (struct) value
   C: a scalar destination value        B: the destinations a binder has bound
   P: the place of a nested field inside a record *)

(** The cursor [*sql.Rows]. *)
Record sqlRows : Type := mkRows {
  columnNames : list gostring;
  current : option R;
  pending : list R;
  closed : bool
}.

Definition rowsNext (rows : sqlRows) : bool * sqlRows :=
  match pending rows with
  | [] => (false, mkRows (columnNames rows) None [] true)
  | r :: rest => (true, mkRows (columnNames rows) (Some r) rest (closed rows))
  end.

Definition rowsClose (rows : sqlRows) : sqlRows :=
  mkRows (columnNames rows) None [] true.

Definition rowsColumns (rows : sqlRows) : result (list gostring) :=
  if closed rows then Err (errorString (str "sql: Rows are closed"))
  else Ok (columnNames rows).

(** A destination handed to [Row]: a record, settable when it was passed by
    pointer ([isStructMode] holds of it), or a scalar. *)
Inductive target : Type :=
| Struct (settable : bool) (v : V)
| Scalar (c : C).

Definition isStructMode (dst : target) : bool :=
  match dst with Struct _ _ => true | Scalar _ => false end.

(** The destination handed to [Rows], as [rowsInputValue] sorts it out. *)
Inductive sliceTarget : Type :=
| NotSettable                      (* not passed by pointer *)
| NilPointer                       (* a nil pointer behind the pointer *)
| NotSlice                         (* a pointer to something else *)
| ScalarSlice (elems : list C)
| StructSlice (elems : list V).

(** The value the second pass decodes from. *)
Inductive proxy : Type :=
| ProxyNil
| ProxyInt64 (i : Z)
| ProxyBytes (b : gostring)
| ProxyOther.

Record transfer : Type := mkTransfer {
  dstProxy : proxy;
  dst : P;
  ptr : bool
}.

(** The external operations. *)
Record Scanner : Type := mkScanner {
  zeroV : V;                                   (* [reflect.New(sample).Elem()] *)
  zeroC : C;
  (* [rows.Scan(dst...)] on the destinations of the caller *)
  sqlScan : R -> list target -> option error * list target;
  (* [rows.Scan(row.Addr().Interface())] on one scalar *)
  sqlScanScalar : R -> C -> option error * C;
  (* [binder.bind]: the destinations for the columns of the result *)
  bind : gmap gostring nat -> V -> result B;
  (* [rows.Scan(p.dest...)]: fills the plain fields of the record and the
     proxies of the transfers *)
  sqlScanBound : R -> B -> V -> option error * (V * list transfer);
  (* [rv.Set(reflect.New(...))] when the pointer field is nil *)
  allocate : P -> V -> V;
  (* [*dst = time.Unix(i, 0)] when the field is a time *)
  setTime : P -> Z -> V -> V;
  (* [json.Unmarshal(jsonStr, field)] *)
  jsonUnmarshal : gostring -> P -> V -> option error * V
}.

Context (sc : Scanner).

Record Rows : Type := mkRowsQuery {
  ignoreNotFound : bool;     (* of the embedded options *)
  maxRows : Z;
  rows : sqlRows;            (* non-nil whenever [err] is nil *)
  err : option error
}.

(** [transfer.unmarshal]. A JSON decoding error is logged and dropped. *)
Definition unmarshal (p : transfer) (v : V) : option error * V :=
  match dstProxy p with
  | ProxyNil => (None, v)
  | proxyValue =>
    let v := if ptr p then allocate sc (dst p) v else v in
    match proxyValue with
    | ProxyInt64 i => (None, setTime sc (dst p) i v)
    | ProxyBytes jsonStr =>
      let '(_, v) := jsonUnmarshal sc jsonStr (dst p) v in (None, v)
    | _ => (None, v)
    end
  end.

Fixpoint unmarshalAll (tran : list transfer) (v : V) : option error * V :=
  match tran with
  | [] => (None, v)
  | t :: rest =>
    match unmarshal t v with
    | (Some e, v') => (Some e, v')
    | (None, v') => unmarshalAll rest v'
    end
  end.

Record binder : Type := mkBinder { fieldMap : gmap gostring nat }.

(** The loop of [genBinder] over the column names. *)
Fixpoint genFieldMap (names : list gostring) (i : nat) (m : gmap gostring nat)
  : gmap gostring nat :=
  match names with
  | [] => m
  | n :: rest => genFieldMap rest (S i) (<[ToLower n := i]> m)
  end.

Definition genBinder (p : Rows) : result binder :=
  match rowsColumns (rows p) with
  | Err e => Err e
  | Ok names => Ok (mkBinder (genFieldMap names 0 ∅))
  end.

(** [binder.scan] on the current row [r]. *)
Definition binder_scan (b : binder) (r : R) (sample : V) : option error * V :=
  match bind sc (fieldMap b) sample with
  | Err e => (Some e, sample)
  | Ok bound =>
    match sqlScanBound sc r bound sample with
    | (Some e, (v, _)) => (Some (errorString (str "Scan() err: " ++ errText e)), v)
    | (None, (v, tran)) => unmarshalAll tran v
    end
  end.

(** [Rows.scanRow]. *)
Definition scanRow (p : Rows) (r : R) (settable : bool) (v : V) : option error * V :=
  if negb settable then (Some (errorString (str "scan target can not be set")), v)
  else
    match genBinder p with
    | Err e => (Some e, v)
    | Ok b =>
      match binder_scan b r v with
      | (Some e, v') => (Some (errorString (str "rows.scan() err: " ++ errText e)), v')
      | (None, v') => (None, v')
      end
    end.

(** [Rows.Row]: the error, the destinations and the cursor afterwards. *)
Definition Rows_Row (p : Rows) (dsts : list target)
  : option error * list target * sqlRows :=
  match err p with
  | Some e => (Some e, dsts, rows p)
  | None =>
    let '(more, rows1) := rowsNext (rows p) in
    match more, current rows1 with
    | true, Some r =>
      match dsts with
      | [Struct settable v] =>
        let '(e, v') :=
          scanRow (mkRowsQuery (ignoreNotFound p) (maxRows p) rows1 (err p)) r settable v in
        (e, [Struct settable v'], rowsClose rows1)
      | _ =>
        let '(e, dsts') := sqlScan sc r dsts in (e, dsts', rowsClose rows1)
      end
    | _, _ =>
      if negb (ignoreNotFound p)
      then (Some (StatusNotFound (str "object")), dsts, rowsClose rows1)
      else (None, dsts, rowsClose rows1)
    end
  end.

(** The loop of [Rows] over scalar elements; [n] rows were appended so far. *)
Fixpoint scanScalars (limit : Z) (remaining : list R) (n : Z) (elems : list C)
  : option error * list C :=
  match remaining with
  | [] => (None, elems)
  | r :: rest =>
    match sqlScanScalar sc r (zeroC sc) with
    | (Some e, _) => (Some (errorString (str "rows.scan() err: " ++ errText e)), elems)
    | (None, row) =>
      let elems := elems ++ [row] in
      let n := (n + 1)%Z in
      if (n >=? limit)%Z then (None, elems) else scanScalars limit rest n elems
    end
  end.

(** The loop of [Rows] over record elements: what [b.scan] returns is dropped. *)
Fixpoint scanStructs (b : binder) (limit : Z) (remaining : list R) (n : Z) (elems : list V)
  : list V :=
  match remaining with
  | [] => elems
  | r :: rest =>
    let '(_, row) := binder_scan b r (zeroV sc) in
    let elems := elems ++ [row] in
    let n := (n + 1)%Z in
    if (n >=? limit)%Z then elems else scanStructs b limit rest n elems
  end.

(** [Rows.Rows]: the error and the destination afterwards. *)
Definition Rows_Rows (p : Rows) (dst : sliceTarget) : option error * sliceTarget :=
  match err p with
  | Some e => (Some e, dst)
  | None =>
    let limit := maxRows p in
    match dst with
    | NotSettable => (Some (errorString (str "scan target can not be set")), dst)
    | NilPointer | NotSlice =>
      (Some (errorString (str "needs a pointer to a slice")), dst)
    | ScalarSlice elems =>
      let '(e, elems') := scanScalars limit (pending (rows p)) 0 elems in
      (e, ScalarSlice elems')
    | StructSlice elems =>
      match genBinder p with
      | Err e => (Some e, dst)
      | Ok b => (None, StructSlice (scanStructs b limit (pending (rows p)) 0 elems))
      end
    end
  end.

End Fetch.

Arguments sqlRows : clear implicits.
Arguments target : clear implicits.
Arguments sliceTarget : clear implicits.
Arguments transfer : clear implicits.
Arguments Scanner : clear implicits.
Arguments Rows : clear implicits.

(** The number of elements of a destination of [Rows]. *)
Definition sliceLength {V C : Type} (dst : sliceTarget V C) : Z :=
  match dst with
  | ScalarSlice elems => Z.of_nat (length elems)
  | StructSlice elems => Z.of_nat (length elems)
  | _ => 0
  end.

(** ** Connection options (options.go) *)

Record DBOptions : Type := mkDBOptions {
  driver : gostring;
  dsn : gostring;
  optIgnoreNotFound : bool;          (* [ignoreNotFound] *)
  withoutPing : bool;
  optMaxRows : Z;                    (* [maxRows] *)
  maxIdleCount : option Z;
  maxOpenConns : option Z;
  connMaxLifetime : option Z;
  connMaxIdletime : option Z;
  stringSize : Z;
  optErr : option error              (* [err] *)
}.

Definition NewDefaultDBOptions : DBOptions :=
  mkDBOptions [] [] false false 1000 None None None None 255 None.

Definition WithMaxRows (n : Z) (o : DBOptions) : DBOptions :=
  mkDBOptions (driver o) (dsn o) (optIgnoreNotFound o) (withoutPing o) n
    (maxIdleCount o) (maxOpenConns o) (connMaxLifetime o) (connMaxIdletime o)
    (stringSize o) (optErr o).

Definition Validate (o : DBOptions) : option error := optErr o.

(** ** A result set in memory

    Rows of two columns, an integer id that may be NULL and a JSON text, and
    the record they are bound into. *)

Record userRow : Type := mkUserRow { rowId : option Z; rowMeta : gostring }.
Record user : Type := mkUser { userId : Z; userMeta : option bool }.

(** The error [database/sql] returns for a NULL in an integer column. *)
Definition errScanNull : error :=
  errorString (str "sql: Scan error on column index 0, name " ++ [r_dquote]
               ++ str "id" ++ [r_dquote]
               ++ str ": converting NULL to int64 is unsupported").

Definition userScanner : Scanner userRow user Z unit unit :=
  mkScanner
    (mkUser 0 None) 0%Z
    (* Scan into the destinations of the caller: the id column *)
    (fun r dsts =>
       match dsts, rowId r with
       | [Scalar _], Some n => (None, [Scalar n])
       | [Scalar _], None => (Some errScanNull, dsts)
       | _, _ => (Some (errorString (str "sql: wrong number of destination arguments in Scan")), dsts)
       end)
    (fun r c => match rowId r with Some n => (None, n) | None => (Some errScanNull, c) end)
    (fun _ _ => Ok tt)
    (fun r _ v =>
       match rowId r with
       | Some n => (None, (mkUser n (userMeta v), [mkTransfer (ProxyBytes (rowMeta r)) tt true]))
       | None => (Some errScanNull, (v, []))
       end)
    (fun _ v => match userMeta v with None => mkUser (userId v) (Some false) | Some _ => v end)
    (fun _ _ v => v)
    (fun jsonStr _ v =>
       if streq jsonStr (str "true") then (None, mkUser (userId v) (Some true))
       else if streq jsonStr (str "false") then (None, mkUser (userId v) (Some false))
       else (Some (errorString (str "invalid character looking for beginning of value")), v)).

Definition userRows (rs : list userRow) : sqlRows userRow :=
  mkRows [str "id"; str "meta"] None rs false.

Definition userQuery (ignoreNotFound : bool) (maxRows : Z) (rs : list userRow)
  : Rows userRow :=
  mkRowsQuery ignoreNotFound maxRows (userRows rs) None.

(** ** Bulk script execution ([ExecRows]) *)

(** [strings.Split(s, sep)] for the separator newline; [cur] is the line
    being read. *)
Fixpoint splitLines (s : gostring) (cur : gostring) : list gostring :=
  match s with
  | [] => [cur]
  | c :: s' =>
    if c =? r_newline then cur :: splitLines s' [] else splitLines s' (cur ++ [c])
  end.

(** [strings.Index(s, sep)] for a one-rune separator; [None] is -1. *)
Fixpoint indexRune (c : rune) (s : gostring) : option nat :=
  match s with
  | [] => None
  | x :: s' =>
    if x =? c then Some O
    else match indexRune c s' with Some k => Some (S k) | None => None end
  end.

(** [s[len(s)-1] == ';'], for a non-empty [s]. *)
Definition endsWithSemicolon (s : gostring) : bool :=
  match rev s with
  | c :: _ => c =? r_semicolon
  | [] => false
  end.

(** The cases of the [switch]. *)
Definition isKeyword (w : gostring) : bool :=
  streq w (str "SET") || streq w (str "CREATE")
  || streq w (str "INSERT") || streq w (str "DROP").

(** The lines the loop passes over wherever they stand. *)
Definition isSkipped (line : gostring) : bool :=
  (length line =? 0)%nat || HasPrefix line (str "-- ").

(** The loop over the lines, with its variables [cmd], [in] and [cmds]. *)
Fixpoint scriptLoop (lines : list gostring) (cmd : gostring) (inCmd : bool)
    (cmds : list gostring) : list gostring :=
  match lines with
  | [] => cmds
  | line :: rest =>
    if isSkipped line then scriptLoop rest cmd inCmd cmds
    else if inCmd then
      let cmd := cmd ++ str " " ++ TrimSpace line in
      if endsWithSemicolon cmd then scriptLoop rest cmd false (cmds ++ [cmd])
      else scriptLoop rest cmd inCmd cmds
    else
      match indexRune r_space line with
      | Some (S n') =>
        if isKeyword (take (S n') line) then
          let cmd := line in
          if endsWithSemicolon line then scriptLoop rest cmd inCmd (cmds ++ [cmd])
          else scriptLoop rest cmd true cmds
        else scriptLoop rest cmd inCmd cmds
      | _ => scriptLoop rest cmd inCmd cmds
      end
  end.

Definition scriptCommands (bytes : gostring) : list gostring :=
  scriptLoop (splitLines bytes []) [] false [].

(** [*sql.DB] and [*sql.Tx] as [ExecRows] uses them. *)
Record SqlDB (S : Type) : Type := mkSqlDB {
  Begin : M S (option error);
  TxExec : gostring -> M S (option error);
  TxCommit : M S (option error);
  TxRollback : M S (option error)
}.
Arguments Begin {S} _ _.
Arguments TxExec {S} _ _ _.
Arguments TxCommit {S} _ _.
Arguments TxRollback {S} _ _.

Section ExecRows.
Context {S : Type} (p : SqlDB S).

(** The loop over [cmds]. *)
Fixpoint execCommands (cmds : list gostring) : M S (option error) :=
  match cmds with
  | [] => ret None
  | cmd :: rest =>
    do r <- TxExec p cmd;
    match r with
    | Some e =>
      ret (Some (errorString (str "sql " ++ cmd ++ [r_newline] ++ str "err " ++ errText e)))
    | None => execCommands rest
    end
  end.

Definition ExecRows (bytes : gostring) : M S (option error) :=
  do r <- Begin p;
  match r with
  | Some e => ret (Some (errorString (str "Begin() err: " ++ errText e)))
  | None =>
    let cmds := scriptCommands bytes in
    do err <- execCommands cmds;
    (* the deferred function; what Rollback and Commit return is dropped *)
    do _ <- (match err with Some _ => TxRollback p | None => TxCommit p end);
    ret err
  end.

End ExecRows.

(** The calls on the database, in order. *)
Inductive txEvent : Type :=
| EvBegin
| EvExec (cmd : gostring)
| EvCommit
| EvRollback.

Definition noting {S A : Type} (op : M S A) (ev : txEvent) : M (S * list txEvent) A :=
  fun '(s, log) => let '(a, s') := op s in (a, (s', log ++ [ev])).

Definition recorded {S : Type} (p : SqlDB S) : SqlDB (S * list txEvent) :=
  mkSqlDB (S * list txEvent)
    (noting (Begin p) EvBegin)
    (fun cmd => noting (TxExec p cmd) (EvExec cmd))
    (noting (TxCommit p) EvCommit)
    (noting (TxRollback p) EvRollback).

(** The state after the commands of [cmds] have been sent one after the
    other, whatever each of them returned. *)
Definition txRunAll {S : Type} (p : SqlDB S) (cmds : list gostring) (s : S) : S :=
  fold_left (fun s cmd => snd (TxExec p cmd s)) cmds s.

(** ** The script format

    A script is a sequence of chunks: lines that are passed over, and
    statements. A statement starts on a line of its own with one of the four
    keywords followed by a space, and ends with the first line that ends
    with a semicolon; the lines in between may be comments or blank. *)

Inductive chunk : Type :=
| Skip (line : gostring)
| Statement (first : gostring) (more : list gostring).

Definition noNewline (line : gostring) : bool :=
  forallb (fun c => negb (c =? r_newline)) line.

Definition startsStatement (line : gostring) : bool :=
  negb (isSkipped line)
  && match indexRune r_space line with
     | Some (S n') => isKeyword (take (S n') line)
     | _ => false
     end.

(** The continuation lines of a statement: the last one ends it, no earlier
    one does. *)
Fixpoint continues (more : list gostring) : bool :=
  match more with
  | [] => false
  | [line] => negb (isSkipped line) && endsWithSemicolon (TrimSpace line)
  | line :: rest =>
    (isSkipped line || negb (endsWithSemicolon (TrimSpace line))) && continues rest
  end.

Definition wellFormed (c : chunk) : bool :=
  match c with
  | Skip line => noNewline line && negb (startsStatement line)
  | Statement first more =>
    noNewline first && forallb noNewline more && startsStatement first
    && match more with
       | [] => endsWithSemicolon first
       | _ => negb (endsWithSemicolon first) && continues more
       end
  end.

Definition chunkLines (c : chunk) : list gostring :=
  match c with
  | Skip line => [line]
  | Statement first more => first :: more
  end.

(** The text of a script: its lines, joined by newlines. *)
Definition render (script : list chunk) : gostring :=
  Join (flat_map chunkLines script) [r_newline].

(** The command a statement stands for: its first line as it is, then each
    continuation line that is not passed over, trimmed, after a space. *)
Definition statementText (first : gostring) (more : list gostring) : gostring :=
  fold_left (fun cmd line => if isSkipped line then cmd else cmd ++ str " " ++ TrimSpace line)
            more first.

Definition statements (script : list chunk) : list gostring :=
  flat_map (fun c => match c with
                     | Skip _ => []
                     | Statement first more => [statementText first more]
                     end) script.

(** Every command of [cmds] succeeds when they are sent one after the other
    from state [s]. *)
Fixpoint allSucceed {S : Type} (p : SqlDB S) (cmds : list gostring) (s : S) : Prop :=
  match cmds with
  | [] => True
  | cmd :: rest =>
    fst (TxExec p cmd s) = None /\ allSucceed p rest (snd (TxExec p cmd s))
  end.

(** ** A transactional store in memory

    The committed commands and, while a transaction is open, the commands
    it has run on top of them. The one command that fails is the drop of a
    table called missing. *)

Record txStore : Type := mkTxStore {
  committed : list gostring;
  working : option (list gostring)
}.

Definition memTx : SqlDB txStore :=
  mkSqlDB txStore
    (fun s =>
       match working s with
       | Some _ => (Some (errorString (str "transaction already open")), s)
       | None => (None, mkTxStore (committed s) (Some (committed s)))
       end)
    (fun cmd s =>
       match working s with
       | None => (Some (errorString (str "sql: transaction has already been committed or rolled back")), s)
       | Some w =>
         if streq cmd (str "DROP TABLE missing;")
         then (Some (errorString (str "no such table: missing")), s)
         else (None, mkTxStore (committed s) (Some (w ++ [cmd])))
       end)
    (fun s =>
       match working s with
       | Some w => (None, mkTxStore w None)
       | None => (Some (errorString (str "sql: transaction has already been committed or rolled back")), s)
       end)
    (fun s => (None, mkTxStore (committed s) None)).

(** A script of a comment, a statement on one line, a blank line and a
    statement on three lines with a comment inside. *)
Definition exampleScript : list chunk :=
  [ Skip (str "-- schema");
    Statement (str "SET NAMES utf8;") [];
    Skip [];
    Statement (str "CREATE TABLE t (")
      [str "  a INT,"; str "-- the key"; str "  b TEXT);"];
    Skip [] ].

(** ** Opening a connection ([Register], [Open], [open])

    The dialect registry is a map from names to factories. [Drv] is the type
    of dialect drivers, [RawDB] the handle of [database/sql]. The goroutine
    that closes the handle when the context is done is left out. *)

Section Open.
Context {Drv RawDB : Type}.

(** Package [database/sql] as [open] uses it. *)
Record SqlPackage : Type := mkSqlPackage {
  sqlOpen : gostring -> gostring -> result RawDB;
  Ping : RawDB -> option error;
  SetMaxIdleConns : Z -> RawDB -> RawDB;
  SetMaxOpenConns : Z -> RawDB -> RawDB;
  SetConnMaxLifetime : Z -> RawDB -> RawDB;
  SetConnMaxIdleTime : Z -> RawDB -> RawDB
}.

Record ormDB : Type := mkOrmDB {
  Options : DBOptions;
  rawDB : RawDB;
  dbDriver : Drv                    (* the [Driver] of the embedded [dbBase] *)
}.

Definition DBFactory : Type := ormDB -> Drv.

(** [Register]: [None] is the panic on a name that is already taken. *)
Definition Register (n : gostring) (d : DBFactory) (dbFactories : gmap gostring DBFactory)
  : option (gmap gostring DBFactory) :=
  match dbFactories !! n with
  | Some _ => None
  | None => Some (<[n := d]> dbFactories)
  end.

Context (sql : SqlPackage) (dbFactories : gmap gostring DBFactory) (nonDriver : Drv).

Definition setIf (f : Z -> RawDB -> RawDB) (v : option Z) (db : RawDB) : RawDB :=
  match v with Some n => f n db | None => db end.

Definition open (opts : DBOptions) : result ormDB :=
  match sqlOpen sql (driver opts) (dsn opts) with
  | Err err => Err err
  | Ok rawDB =>
    match (if negb (withoutPing opts) then Ping sql rawDB else None) with
    | Some err => Err err
    | None =>
      let rawDB := setIf (SetMaxIdleConns sql) (maxIdleCount opts) rawDB in
      let rawDB := setIf (SetMaxOpenConns sql) (maxOpenConns opts) rawDB in
      let rawDB := setIf (SetConnMaxLifetime sql) (connMaxLifetime opts) rawDB in
      let rawDB := setIf (SetConnMaxIdleTime sql) (connMaxIdletime opts) rawDB in
      let db := mkOrmDB opts rawDB nonDriver in
      match dbFactories !! driver opts with
      | Some f => Ok (mkOrmDB opts rawDB (f db))
      | None => Ok db
      end
    end
  end.

Definition WithDirver (d : gostring) (o : DBOptions) : DBOptions :=
  mkDBOptions d (dsn o) (optIgnoreNotFound o) (withoutPing o) (optMaxRows o)
    (maxIdleCount o) (maxOpenConns o) (connMaxLifetime o) (connMaxIdletime o)
    (stringSize o) (optErr o).

Definition WithDsn (d : gostring) (o : DBOptions) : DBOptions :=
  mkDBOptions (driver o) d (optIgnoreNotFound o) (withoutPing o) (optMaxRows o)
    (maxIdleCount o) (maxOpenConns o) (connMaxLifetime o) (connMaxIdletime o)
    (stringSize o) (optErr o).

(** The options [Open] builds: the zero value, then the options of the
    caller, then the driver name and the data source name. *)
Definition openOptions (driverName dataSourceName : gostring)
    (opts : list (DBOptions -> DBOptions)) : DBOptions :=
  fold_left (fun o opt => opt o)
    (opts ++ [WithDirver driverName; WithDsn dataSourceName])
    (mkDBOptions [] [] false false 0 None None None None 0 None).

Definition Open (driverName dataSourceName : gostring)
    (opts : list (DBOptions -> DBOptions)) : result ormDB :=
  let o := openOptions driverName dataSourceName opts in
  match Validate o with
  | Some err => Err err
  | None => open o
  end.

End Open.

Arguments SqlPackage : clear implicits.
Arguments ormDB : clear implicits.
Arguments DBFactory : clear implicits.

(** A [database/sql] in which every data source opens and answers the ping;
    the handle records the settings of its pool. *)
Record poolSettings : Type := mkPool {
  poolMaxIdle : option Z;
  poolMaxOpen : option Z
}.

Definition memSql : SqlPackage poolSettings :=
  mkSqlPackage
    (fun _ _ => Ok (mkPool None None))
    (fun _ => None)
    (fun n db => mkPool (Some n) (poolMaxOpen db))
    (fun n db => mkPool (poolMaxIdle db) (Some n))
    (fun _ db => db)
    (fun _ db => db).

(** The registry after the [init] of sqlite.go, drivers being told apart
    by a label. *)
Definition sqliteRegistry : gmap gostring (DBFactory gostring poolSettings) :=
  <[str "sqlite3" := fun _ => str "Sqlite"]> ∅.

(** An existing table whose column name is nullable and of size 5, while
    the desired schema wants it NOT NULL and of size 10. *)
Definition profileFields : list field :=
  [ mkField (mkFieldOptions (str "id") (str "integer") None None None [] []) true false false;
    mkField (mkFieldOptions (str "name") (str "text") (Some 10%Z) (Some true) None [] [])
      false false false ].

Definition profileTable : SqlOptions := mkSqlOptions (str "profile") profileFields.

Definition profileSchema : schema :=
  mkSchema true
    [ mkFieldOptions (str "id") (str "integer") None (Some false) None [] [];
      mkFieldOptions (str "name") (str "text") (Some 5%Z) (Some false) None [] [];
      mkFieldOptions (str "legacy") (str "blob") None (Some false) None [] [] ]
    [].

(** ** The statement of [CreateTable], clause by clause

    A rune that plays no part in the scan of a
    statement (no quote, parenthesis, comma or newline); the text of the
    clause of a column and of the clause of the primary key. *)

Definition isPlain (c : rune) : bool :=
  negb (isQuoteRune c) && negb (c =? r_lparen) && negb (c =? r_rparen)
  && negb (c =? r_comma) && negb (c =? r_newline).

Definition quotedName (f : field) : gostring := str "`" ++ name f ++ str "`".

Definition columnClause (f : field) : gostring :=
  str "`" ++ name f ++ str "` " ++ FullDataTypeOf f.

Definition primaryKeyClauses (fs : list field) : list gostring :=
  match List.map quotedName (List.filter primaryKey fs) with
  | [] => []
  | primaryKeys => [str "PRIMARY KEY (" ++ Join primaryKeys [r_comma] ++ str ")"]
  end.

Definition createTableClauses (o : SqlOptions) : list gostring :=
  List.map columnClause (tableFields o) ++ primaryKeyClauses (tableFields o).

(** ** The row iterator ([Iterator], [rowsIterator])

    The iterator is the query itself: [Next] and [Close] are those of the
    cursor, [Row] binds the current row without advancing or closing. *)

Section Iterator.
Context {R V C B P : Type} (sc : Scanner R V C B P).

Definition withRows (p : Rows R) (rows1 : sqlRows R) : Rows R :=
  mkRowsQuery (ignoreNotFound p) (maxRows p) rows1 (err p).

Definition Rows_Iterator (p : Rows R) : result (Rows R) :=
  match err p with
  | Some e => Err e
  | None => Ok p
  end.

Definition rowsIterator_Next (it : Rows R) : bool * Rows R :=
  let '(more, rows1) := rowsNext (rows it) in (more, withRows it rows1).

Definition rowsIterator_Close (it : Rows R) : option error * Rows R :=
  (None, withRows it (rowsClose (rows it))).

(** The error of [rows.Scan] when no row is current ([database/sql]). *)
Definition errNoCurrentRow (rows1 : sqlRows R) : error :=
  if closed rows1 then errorString (str "sql: Rows are closed")
  else errorString (str "sql: Scan called without calling Next").

(** [scanRow] when no row is current: the scan of the binder fails. *)
Definition scanNoRow (it : Rows R) (settable : bool) (v : V) : option error * V :=
  if negb settable then (Some (errorString (str "scan target can not be set")), v)
  else
    match genBinder it with
    | Err e => (Some e, v)
    | Ok b =>
      match bind sc (fieldMap b) v with
      | Err e => (Some (errorString (str "rows.scan() err: " ++ errText e)), v)
      | Ok _ =>
        (Some (errorString (str "rows.scan() err: " ++ str "Scan() err: "
                            ++ errText (errNoCurrentRow (rows it)))), v)
      end
    end.

Definition rowsIterator_Row (it : Rows R) (dsts : list (target V C))
  : option error * list (target V C) :=
  match err it with
  | Some e => (Some e, dsts)
  | None =>
    match dsts with
    | [Struct settable v] =>
      let '(e, v') :=
        match current (rows it) with
        | Some r => scanRow sc it r settable v
        | None => scanNoRow it settable v
        end in
      (e, [Struct settable v'])
    | _ =>
      match current (rows it) with
      | Some r => sqlScan sc r dsts
      | None => (Some (errNoCurrentRow (rows it)), dsts)
      end
    end
  end.

End Iterator.

(** The remaining options of a connection (options.go). *)

Definition WithIgnoreNotFound (o : DBOptions) : DBOptions :=
  mkDBOptions (driver o) (dsn o) true (withoutPing o) (optMaxRows o)
    (maxIdleCount o) (maxOpenConns o) (connMaxLifetime o) (connMaxIdletime o)
    (stringSize o) (optErr o).

Definition WithoutPing (o : DBOptions) : DBOptions :=
  mkDBOptions (driver o) (dsn o) (optIgnoreNotFound o) true (optMaxRows o)
    (maxIdleCount o) (maxOpenConns o) (connMaxLifetime o) (connMaxIdletime o)
    (stringSize o) (optErr o).

Definition WithMaxIdleCount (n : Z) (o : DBOptions) : DBOptions :=
  mkDBOptions (driver o) (dsn o) (optIgnoreNotFound o) (withoutPing o) (optMaxRows o)
    (Some n) (maxOpenConns o) (connMaxLifetime o) (connMaxIdletime o)
    (stringSize o) (optErr o).

Definition WithMaxOpenConns (n : Z) (o : DBOptions) : DBOptions :=
  mkDBOptions (driver o) (dsn o) (optIgnoreNotFound o) (withoutPing o) (optMaxRows o)
    (maxIdleCount o) (Some n) (connMaxLifetime o) (connMaxIdletime o)
    (stringSize o) (optErr o).

Definition WithConnMaxLifetime (d : Z) (o : DBOptions) : DBOptions :=
  mkDBOptions (driver o) (dsn o) (optIgnoreNotFound o) (withoutPing o) (optMaxRows o)
    (maxIdleCount o) (maxOpenConns o) (Some d) (connMaxIdletime o)
    (stringSize o) (optErr o).

Definition WithConnMaxIdletime (d : Z) (o : DBOptions) : DBOptions :=
  mkDBOptions (driver o) (dsn o) (optIgnoreNotFound o) (withoutPing o) (optMaxRows o)
    (maxIdleCount o) (maxOpenConns o) (connMaxLifetime o) (Some d)
    (stringSize o) (optErr o).

(** The options of this file that a caller can pass to [Open] (the context
    option apart, the context being left out of the model). *)
Inductive DBOption : Type :=
| OptIgnoreNotFound
| OptWithoutPing
| OptDirver (driver : gostring)
| OptMaxRows (n : Z)
| OptDsn (dsn : gostring)
| OptMaxIdleCount (n : Z)
| OptMaxOpenConns (n : Z)
| OptConnMaxLifetime (d : Z)
| OptConnMaxIdletime (d : Z).

Definition applyDBOption (opt : DBOption) : DBOptions -> DBOptions :=
  match opt with
  | OptIgnoreNotFound => WithIgnoreNotFound
  | OptWithoutPing => WithoutPing
  | OptDirver d => WithDirver d
  | OptMaxRows n => WithMaxRows n
  | OptDsn d => WithDsn d
  | OptMaxIdleCount n => WithMaxIdleCount n
  | OptMaxOpenConns n => WithMaxOpenConns n
  | OptConnMaxLifetime d => WithConnMaxLifetime d
  | OptConnMaxIdletime d => WithConnMaxIdletime d
  end.

(** A [database/sql] whose data sources open but do not answer the ping. *)
Definition refusingSql : SqlPackage poolSettings :=
  mkSqlPackage
    (fun _ _ => Ok (mkPool None None))
    (fun _ => Some (errorString (str "connection refused")))
    (fun n db => mkPool (Some n) (poolMaxOpen db))
    (fun n db => mkPool (poolMaxIdle db) (Some n))
    (fun _ db => db)
    (fun _ db => db).

(** ** The options of a statement (options.go)

    [Options] and the functions that set its fields. [queries.Parse], the
    selector it returns and the sample are external; a [*int64] is a
    reference of type [Ref]. *)

Module StatementOptions.
Section Options.
Context {Selector Sample Ref : Type}.
Context (Parse : gostring -> option Selector * option error).

Record Options : Type := mkOptions {
  err : option error;
  sample : option Sample;
  total : option Ref;
  table : gostring;
  tableOptions : list gostring;
  selector : option Selector;
  cols : list gostring;
  orderby : list gostring;
  offset : option Z;
  limit : option Z;
  ignoreNotFound : bool
}.

Definition zero : Options := mkOptions None None None [] [] None [] [] None None false.

Definition WithTable (t : gostring) (o : Options) : Options :=
  mkOptions (err o) (sample o) (total o) t (tableOptions o) (selector o) (cols o)
    (orderby o) (offset o) (limit o) (ignoreNotFound o).

Definition WithTableOptions (options : list gostring) (o : Options) : Options :=
  mkOptions (err o) (sample o) (total o) (table o) (tableOptions o ++ options)
    (selector o) (cols o) (orderby o) (offset o) (limit o) (ignoreNotFound o).

Definition WithIgnoreNotFoundErr (o : Options) : Options :=
  mkOptions (err o) (sample o) (total o) (table o) (tableOptions o) (selector o) (cols o)
    (orderby o) (offset o) (limit o) true.

Definition WithTotal (t : option Ref) (o : Options) : Options :=
  mkOptions (err o) (sample o) t (table o) (tableOptions o) (selector o) (cols o)
    (orderby o) (offset o) (limit o) (ignoreNotFound o).

Definition WithSelector (s : gostring) (o : Options) : Options :=
  let '(sel, e) := Parse s in
  mkOptions e (sample o) (total o) (table o) (tableOptions o) sel (cols o)
    (orderby o) (offset o) (limit o) (ignoreNotFound o).

Definition WithLimit (off lim : Z) (o : Options) : Options :=
  mkOptions (err o) (sample o) (total o) (table o) (tableOptions o) (selector o) (cols o)
    (orderby o) (Some off) (Some lim) (ignoreNotFound o).

Definition WithCols (l : list gostring) (o : Options) : Options :=
  mkOptions (err o) (sample o) (total o) (table o) (tableOptions o) (selector o) l
    (orderby o) (offset o) (limit o) (ignoreNotFound o).

Definition WithOrderby (l : list gostring) (o : Options) : Options :=
  mkOptions (err o) (sample o) (total o) (table o) (tableOptions o) (selector o) (cols o)
    l (offset o) (limit o) (ignoreNotFound o).

Definition WithSample (s : option Sample) (o : Options) : Options :=
  mkOptions (err o) s (total o) (table o) (tableOptions o) (selector o) (cols o)
    (orderby o) (offset o) (limit o) (ignoreNotFound o).

(** [NewOptions]: the options applied in order to the zero value, and the
    error they left. *)
Definition NewOptions (opts : list (Options -> Options)) : Options * option error :=
  let o := fold_left (fun o opt => opt o) opts zero in
  (o, err o).

(** [Options.Error]. *)
Definition Error (o : Options) (e : option error) : option error :=
  match e with
  | Some e' => if ignoreNotFound o && isNotFound e' then None else Some e'
  | None => None
  end.

(** The options of this file, by name. *)
Inductive Option : Type :=
| OptTable (t : gostring)
| OptTableOptions (options : list gostring)
| OptIgnoreNotFoundErr
| OptTotal (t : option Ref)
| OptSelector (s : gostring)
| OptLimit (off lim : Z)
| OptCols (l : list gostring)
| OptOrderby (l : list gostring)
| OptSample (s : option Sample).

Definition apply (opt : Option) : Options -> Options :=
  match opt with
  | OptTable t => WithTable t
  | OptTableOptions l => WithTableOptions l
  | OptIgnoreNotFoundErr => WithIgnoreNotFoundErr
  | OptTotal t => WithTotal t
  | OptSelector s => WithSelector s
  | OptLimit off lim => WithLimit off lim
  | OptCols l => WithCols l
  | OptOrderby l => WithOrderby l
  | OptSample s => WithSample s
  end.

(** The text of the last selector option of a list, if there is one. *)
Fixpoint lastSelector (opts : list Option) : option gostring :=
  match opts with
  | [] => None
  | opt :: rest =>
    match lastSelector rest with
    | Some s => Some s
    | None => match opt with OptSelector s => Some s | _ => None end
    end
  end.

(** The table options of a list, in order. *)
Definition allTableOptions (opts : list Option) : list gostring :=
  flat_map (fun opt => match opt with OptTableOptions l => l | _ => [] end) opts.

End Options.
End StatementOptions.

(* ================================================================== *)
(** * Part II: properties *)
(* ================================================================== *)

(** ** The tokenizer *)


Lemma streq_nil (s : gostring) :
  streq s [] = match s with [] => true | _ => false end.
Proof. destruct s; reflexivity. Qed.

Lemma isQuoteRune_pos (c : rune) : isQuoteRune c = true -> (0 <? c) = true.
Proof.
  unfold isQuoteRune, r_squote, r_dquote, r_bquote.
  rewrite !orb_true_iff, !N.eqb_eq, N.ltb_lt. lia.
Qed.

Lemma isQuoteRune_special (c : rune) :
  isQuoteRune c = true ->
  (c =? r_lparen) = false /\ (c =? r_rparen) = false /\ (c =? r_comma) = false.
Proof.
  unfold isQuoteRune, r_squote, r_dquote, r_bquote, r_lparen, r_rparen, r_comma.
  rewrite !orb_true_iff, !N.eqb_eq, !N.eqb_neq. lia.
Qed.

Lemma quote_flag (q : rune) : (q =? 0) = negb (0 <? q).
Proof.
  destruct (N.eqb_spec q 0) as [->|Hq]; [reflexivity|].
  symmetry. apply negb_false_iff, N.ltb_lt. lia.
Qed.

Lemma afterLoop_spec (h : gostring) (st : scanState) :
  afterLoop h st =
    if negb (bracketLevel st =? 0)%Z then Err errUnbalanced
    else Ok (mkDDL h (scanned st ++ clauses (bracketLevel st) (buf st) [])).
Proof.
  unfold afterLoop. rewrite streq_nil.
  destruct (bracketLevel st =? 0)%Z; simpl; [|reflexivity].
  destruct (buf st); simpl; [rewrite app_nil_r|]; reflexivity.
Qed.

(** The loop computes what the token reading prescribes, from any reachable
    state of the scan. *)
Lemma scanLoop_spec (h : gostring) :
  forall (n : nat) (rs : list rune) (st : scanState),
    (length rs <= n)%nat ->
    (0 <= bracketLevel st)%Z ->
    scanLoop h rs st =
      let ts := classify (0 <? quote st) rs in
      if goesNegative (bracketLevel st) ts then Err errUnbalanced
      else if negb (bracketLevel st + depth ts =? 0)%Z then Err errUnbalanced
      else Ok (mkDDL h (scanned st ++ clauses (bracketLevel st) (buf st) ts)).
Proof.
  induction n as [|n IH]; intros rs st Hlen Hlvl.
  - destruct rs; [|simpl in Hlen; lia].
    cbn [scanLoop classify goesNegative depth]. cbn zeta.
    rewrite Z.add_0_r. apply afterLoop_spec.
  - destruct rs as [|c rest].
    { cbn [scanLoop classify goesNegative depth]. cbn zeta.
      rewrite Z.add_0_r. apply afterLoop_spec. }
    simpl in Hlen.
    destruct st as [lvl q b fs]. simpl in Hlvl.
    cbn [scanLoop]. unfold loopBody. cbn [bracketLevel quote buf scanned].
    assert (Hneg : (lvl <? 0)%Z = false) by (apply Z.ltb_ge; lia).
    destruct (isQuoteRune c) eqn:Hq.
    + (* a quote rune *)
      destruct rest as [|nx rest'].
      * cbn [hd].
        replace (c =? 0) with false
          by (symmetry; apply N.eqb_neq; apply isQuoteRune_pos, N.ltb_lt in Hq; lia).
        cbn [classify]. rewrite Hq.
        destruct (0 <? q) eqn:Hact; rewrite Hneg; cbn [scanLoop];
          rewrite afterLoop_spec;
          cbn [bracketLevel quote buf scanned goesNegative depth weight clauses tokenRune];
          rewrite ?Z.add_0_r, ?Hneg; reflexivity.
      * cbn [hd classify]. rewrite Hq.
        destruct (c =? nx) eqn:Hcn.
        -- rewrite Hneg. cbn [bracketLevel quote buf scanned].
           rewrite (IH rest'); [|simpl in Hlen; lia|simpl; lia].
           cbn [bracketLevel quote buf scanned goesNegative depth weight clauses tokenRune].
           rewrite !Z.add_0_r, Hneg. cbn [orb]. cbn zeta.
           rewrite Z.add_0_l, <- !app_assoc. reflexivity.
        -- destruct (0 <? q) eqn:Hact; rewrite Hneg; cbn [bracketLevel quote buf scanned];
             (rewrite (IH (nx :: rest')); [|simpl in Hlen |- *; lia|simpl; lia]);
             cbn [bracketLevel quote buf scanned goesNegative depth weight clauses tokenRune negb];
             rewrite ?Z.add_0_r, ?Hneg, ?Z.add_0_l; cbn [orb]; cbn zeta;
             rewrite ?(isQuoteRune_pos c Hq); reflexivity.
    + (* not a quote rune *)
      rewrite quote_flag. cbn [classify]. rewrite Hq.
      destruct (0 <? q) eqn:Hact; cbn [negb].
      * rewrite Hneg. cbn [bracketLevel quote buf scanned].
        rewrite (IH rest); [|lia|simpl; lia].
        cbn [bracketLevel quote buf scanned goesNegative depth weight clauses tokenRune].
        rewrite Hact, ?Z.add_0_r, ?Hneg, ?Z.add_0_l. reflexivity.
      * destruct (c =? r_lparen) eqn:Hlp.
        { cbn [bracketLevel quote buf scanned].
          replace (lvl + 1 <? 0)%Z with false by (symmetry; apply Z.ltb_ge; lia).
          rewrite (IH rest); [|lia|simpl; lia].
          cbn [bracketLevel quote buf scanned goesNegative depth weight clauses tokenRune].
          rewrite Hact.
          replace (lvl + 1 <? 0)%Z with false by (symmetry; apply Z.ltb_ge; lia).
          apply N.eqb_eq in Hlp. subst c.
          rewrite Z.add_assoc. reflexivity. }
        destruct (c =? r_rparen) eqn:Hrp.
        { cbn [bracketLevel quote buf scanned goesNegative depth weight clauses tokenRune].
          replace (lvl + -1)%Z with (lvl - 1)%Z by lia.
          destruct (lvl - 1 <? 0)%Z eqn:Hn1; [reflexivity|].
          rewrite (IH rest); [|lia|simpl; apply Z.ltb_ge in Hn1; lia].
          cbn [bracketLevel quote buf scanned orb]. rewrite Hact.
          apply N.eqb_eq in Hrp. subst c.
          replace (lvl + (-1 + depth (classify false rest)))%Z
            with (lvl - 1 + depth (classify false rest))%Z by lia.
          reflexivity. }
        destruct (c =? r_comma) eqn:Hcm.
        { cbn [goesNegative depth weight clauses tokenRune].
          rewrite Z.add_0_r, Hneg. cbn [orb].
          destruct (lvl =? 0)%Z eqn:Hz.
          - rewrite (IH rest); [|lia|simpl; lia].
            cbn [bracketLevel quote buf scanned]. rewrite Hact, Z.add_0_l.
            rewrite <- app_assoc. reflexivity.
          - cbn [bracketLevel quote buf scanned].
            rewrite (IH rest); [|lia|simpl; lia].
            cbn [bracketLevel quote buf scanned]. rewrite Hact, Z.add_0_l.
            apply N.eqb_eq in Hcm. subst c. reflexivity. }
        cbn [goesNegative depth weight clauses tokenRune].
        rewrite Z.add_0_r, Hneg. cbn [orb].
        assert (Hstep :
          scanLoop h rest (mkScan lvl q (b ++ [c]) fs) =
          (if goesNegative lvl (classify false rest) then Err errUnbalanced
           else if negb (lvl + (0 + depth (classify false rest)) =? 0)%Z
                then Err errUnbalanced
                else Ok (mkDDL h (fs ++ clauses lvl (b ++ [c]) (classify false rest))))).
        { rewrite (IH rest); [|lia|simpl; lia].
          cbn [bracketLevel quote buf scanned]. rewrite Hact, Z.add_0_l. reflexivity. }
        destruct (lvl =? 0)%Z; rewrite ?Hneg; cbn [bracketLevel quote buf scanned];
          exact Hstep.
Qed.


(** The reading of the document, spelled out on [classify]: a doubled quote
    is two literal runes and leaves the quoting state as it was. *)
Lemma classify_doubled_quote (q : bool) (c : rune) (rest : list rune) :
  isQuoteRune c = true ->
  classify q (c :: c :: rest) = TLiteral c :: TLiteral c :: classify q rest.
Proof. intros Hq. cbn [classify]. rewrite Hq, N.eqb_refl. reflexivity. Qed.

(** Inside a quoted span, parentheses and commas are literal. *)
Lemma classify_quoted_literal (c : rune) (rest : list rune) :
  isQuoteRune c = false ->
  classify true (c :: rest) = TLiteral c :: classify true rest.
Proof. intros Hq. cbn [classify]. rewrite Hq. reflexivity. Qed.


(** C2 at the failing inputs. The nesting is judged on the text the header
    pattern captured, which is not the text between the parentheses of the
    statement when the statement runs over several lines or is not closed.
    A balanced statement on two lines whose first line holds a parenthesised
    size is refused as unbalanced (the capture stops at the last closing
    parenthesis of the first line); a statement that is never closed is
    accepted, with no clause; so is a balanced statement on two lines with no
    closing parenthesis on the first. Last, a quoted span is ended by any
    quote character, so that the comma inside a single-quoted value that
    holds a double quote separates two clauses. *)
Theorem sqliteParseDDL_misjudges_nesting :
  (sqliteParseDDL
     (str "CREATE TABLE t (a DECIMAL(10,2)," ++ [r_newline] ++ str " b TEXT)")
   = Err errUnbalanced
   /\ depth (classify false (str "a DECIMAL(10,2)," ++ [r_newline] ++ str " b TEXT"))
      = 0%Z
   /\ goesNegative 0
        (classify false (str "a DECIMAL(10,2)," ++ [r_newline] ++ str " b TEXT"))
      = false)
  /\ (sqliteParseDDL (str "CREATE TABLE t (a INT, b TEXT")
      = Ok (mkDDL (str "CREATE TABLE t") [])
      /\ depth (classify false (str "(a INT, b TEXT")) = 1%Z)
  /\ sqliteParseDDL (str "CREATE TABLE t (a INT," ++ [r_newline] ++ str " b TEXT)")
     = Ok (mkDDL (str "CREATE TABLE t") [])
  /\ sqliteParseDDL
       (str "CREATE TABLE t (a TEXT DEFAULT 'x" ++ [r_dquote] ++ str "y,z')")
     = Ok (mkDDL (str "CREATE TABLE t")
             [str "a TEXT DEFAULT 'x" ++ [r_dquote] ++ str "y"; str "z'"]).
Proof.
  repeat split; vm_compute; reflexivity.
Qed.

(** C3 as stated fails: on the example statement [getColumns] does not
    return the bare names a and b. *)
Lemma getColumns_example_not_bare :
  exists d, sqliteParseDDL exampleDDL = Ok d
            /\ length (fields d) = 3%nat
            /\ getColumns d <> [str "a"; str "b"].
Proof.
  eexists. split; [vm_compute; reflexivity|].
  split; [reflexivity|].
  vm_compute. discriminate.
Qed.

(** C3 (amended). On the example statement [sqliteParseDDL] yields exactly
    the three top-level clauses (the comma inside the quoted default value
    separates nothing), and [getColumns] returns the two column names, each
    wrapped in backticks, leaving the constraint clause out. *)
Theorem sqliteParseDDL_example :
  exists d,
    sqliteParseDDL exampleDDL = Ok d
    /\ fields d =
         [ str "`a` INT"; str "`b` TEXT DEFAULT 'x,y'";
           str "CONSTRAINT " ++ [r_dquote] ++ str "pk" ++ [r_dquote]
             ++ str " PRIMARY KEY(`a`)" ]
    /\ length (fields d) = 3%nat
    /\ getColumns d = [str "`a`"; str "`b`"].
Proof.
  eexists. split; [vm_compute; reflexivity|].
  cbn [fields]. repeat split; vm_compute; reflexivity.
Qed.

(** ** The recreate procedure *)

Lemma runAll_snoc {S : Type} (p : DB S) (log : list statement) (st : statement) (s : S) :
  runAll p (log ++ [st]) s = snd (Exec p (fst st) (snd st) (runAll p log s)).
Proof. unfold runAll. rewrite fold_left_app. reflexivity. Qed.


Lemma outcomes_snoc {S : Type} (p : DB S) (log : list statement) (st : statement) :
  forall s : S,
    outcomes p (log ++ [st]) s
    = outcomes p log s ++ [fst (Exec p (fst st) (snd st) (runAll p log s))].
Proof.
  induction log as [|x log IH]; intros s; [reflexivity|].
  cbn [app outcomes]. rewrite IH. reflexivity.
Qed.


Lemma bind_logged_getRawDDL {S A : Type} (p : DB S) (table : gostring)
    (k : result gostring -> M (S * list statement) A) (s : S) (log : list statement) :
  (do r <- getRawDDL (logged p) table; k r) (s, log) =
    k (fst (getRawDDL p table s)) (snd (getRawDDL p table s), log).
Proof.
  unfold bindM, getRawDDL. cbn [logged QueryRowString].
  destruct (QueryRowString p _ _ s) as [r s0]. reflexivity.
Qed.

Section RecreateTable.
Context {Re : Type} (regexp : Regexp Re).
Context {S : Type} (p : DB S) (o : SqlOptions).
Context (getCreateSQL : gostring -> result (gostring * list gostring)).

(** [present s]: the original table exists in state [s]. What the database
    does is not the driver's: reading the catalogue, creating a table and
    copying rows are taken not to remove it. *)
Variable present : S -> Prop.
Hypothesis fetch_keeps :
  forall s, present s -> present (snd (getRawDDL p (Table o) s)).
Hypothesis create_keeps :
  forall sql args s d,
    sqliteParseDDL sql = Ok d -> present s -> present (snd (Exec p sql args s)).
Hypothesis insert_keeps :
  forall sql s,
    HasPrefix sql (str "INSERT INTO ") = true ->
    present s -> present (snd (Exec p sql [] s)).


End RecreateTable.









(** ** Automigrate *)

Lemma streq_eq (a b : gostring) : streq a b = true <-> a = b.
Proof.
  revert b. induction a as [|x a IH]; intros [|y b]; cbn [streq];
    try (split; [discriminate|intros H; discriminate H]); [tauto|].
  rewrite andb_true_iff, N.eqb_eq, IH. split.
  - intros [-> ->]. reflexivity.
  - intros [= -> ->]. split; reflexivity.
Qed.

Lemma streq_refl (a : gostring) : streq a a = true.
Proof. apply streq_eq. reflexivity. Qed.


Lemma foundField_Some (actualFields : list FieldOptions) (n : gostring) (a : FieldOptions) :
  foundField actualFields n = Some a -> In a actualFields /\ name a = n.
Proof.
  induction actualFields as [|b rest IH]; cbn [foundField In]; [discriminate|].
  destruct (streq (name b) n) eqn:Heq.
  - intros [= <-]. apply streq_eq in Heq. split; [left; reflexivity|exact Heq].
  - intros H. destruct (IH H) as [Hin Hn]. split; [right; exact Hin|exact Hn].
Qed.


Lemma issuing_run {S A : Type} (op : M S A) (ev : event) (s : S) (log : list event) :
  issuing op ev (s, log) = (fst (op s), (snd (op s), log ++ [ev])).
Proof. unfold issuing. destruct (op s). reflexivity. Qed.

Lemma asking_run {S A : Type} (q : M S A) (ev : A -> event) (s : S) (log : list event) :
  asking q ev (s, log) = (fst (q s), (snd (q s), log ++ [ev (fst (q s))])).
Proof. unfold asking. destruct (q s). reflexivity. Qed.


Lemma bind_asking {S A B : Type} (q : M S A) (ev : A -> event)
    (k : A -> M (S * list event) B) (s : S) (log : list event) :
  (do a <- asking q ev; k a) (s, log) =
    k (fst (q s)) (snd (q s), log ++ [ev (fst (q s))]).
Proof. unfold bindM. rewrite asking_run. reflexivity. Qed.








Section AutoMigratePlan.
Context {S : Type} (p : Driver S) (o : SqlOptions).



End AutoMigratePlan.





Lemma runDeferred_logged {S : Type} (p : DB S) (o : SqlOptions) :
  forall (deferred : list field) (err : option error) (s : S) (log : list statement),
    let run := runDeferred (logged p) deferred o err (s, log) in
    fst run = None ->
    err = None /\ snd (snd run) = log ++ indexStatements o (rev deferred).
Proof.
  induction deferred as [|f rest IH]; intros err s log; cbn zeta.
  - cbn. intros ->. rewrite app_nil_r. split; reflexivity.
  - cbn [runDeferred]. unfold bindM.
    specialize (IH err s log). cbn zeta in IH.
    destruct (runDeferred (logged p) rest o err (s, log)) as [[e|] [s1 log1]];
      cbn [fst snd] in IH |- *; [discriminate|].
    destruct (IH eq_refl) as [-> ->].
    unfold Sqlite_CreateIndex, indexStatements.
    cbn [rev]. rewrite flat_map_app. cbn [flat_map].
    destruct (tableFieldLookup o (name f)) as [f'|]; [|discriminate].
    cbn [logged Exec]. fold (createIndexSQL o f').
    destruct (Exec p (createIndexSQL o f') [] s1) as [r s2]. cbn [fst snd].
    intros ->. split; [reflexivity|]. rewrite app_nil_r, app_assoc. reflexivity.
Qed.



(** ** Running automigrate twice *)

(** C5 at the failing input. The table exists with columns id and name,
    name being the last one and nullable; the desired schema wants name NOT
    NULL. The first run calls AlterColumn for name and returns nil, but the
    pattern of AlterColumn wants a comma after the clause of the column, which
    the last clause does not have: the statement is not rewritten, the table
    is recreated with the definition it had, and the second run calls
    AlterColumn for name again. When the same column is not the last one, its
    clause is rewritten and the second run makes no call that changes the
    schema. *)
Theorem AutoMigrate_repeats_alter :
  (AutoMigrate (traced (Sqlite namePatterns (logged reportingDB))) memberTable
     ((memberCatalogue, []), [])
   = (None,
      ((memberCatalogue,
        [ (str "CREATE TABLE `t__temp` (`id` integer,`name` text)", []);
          (str "INSERT INTO `t__temp`(`id`,`name`) SELECT `id`,`name` FROM `t`", []);
          (str "DROP TABLE `t`", []);
          (str "ALTER TABLE `t__temp` RENAME TO `t`", []) ]),
       [ QHasTable (str "t") true;
         QColumnTypes
           (Ok [ mkFieldOptions (str "id") (str "integer") None (Some false) None [] [];
                 mkFieldOptions (str "name") (str "text") None (Some false) None [] [] ]);
         OpAlterColumn (str "name") ]))
   /\ ddlOps (snd (snd (AutoMigrate (traced (Sqlite namePatterns reportingDB))
                          memberTable (memberCatalogue, []))))
      = [OpAlterColumn (str "name")])
  /\ (AutoMigrate (Sqlite namePatterns reportingDB) leadingTable leadingCatalogue
      = (None, [(str "t", str "CREATE TABLE `t` (`name` text NOT NULL,`id` integer)")])
      /\ ddlOps (snd (snd (AutoMigrate (traced (Sqlite namePatterns reportingDB))
                             leadingTable
                             ([(str "t",
                                str "CREATE TABLE `t` (`name` text NOT NULL,`id` integer)")],
                              []))))
         = []).
Proof.
  repeat split; vm_compute; reflexivity.
Qed.


(** ** Fetching rows *)

Section FetchFacts.
Context {R V C B P : Type} (sc : Scanner R V C B P).

(** C6. On an empty result set of a query that succeeded, [Row] returns
    the NotFound error when ignore-not-found is off, and returns nil when it
    is on; in both cases the destinations are what they were (and the cursor
    is closed). *)
Theorem Rows_Row_empty (p : Rows R) (dsts : list (target V C)) :
  err p = None ->
  pending (rows p) = [] ->
  Rows_Row sc p dsts =
    (if ignoreNotFound p then None else Some (StatusNotFound (str "object")),
     dsts, rowsClose (rows p))
  /\ isNotFound (StatusNotFound (str "object")) = true.
Proof.
  intros Herr Hempty. unfold Rows_Row, rowsNext. rewrite Herr, Hempty.
  cbn [current]. split; [|reflexivity].
  destruct (ignoreNotFound p); reflexivity.
Qed.

(** [transfer.unmarshal] never returns an error. *)
Lemma unmarshal_nil (t : transfer P) (v : V) : fst (unmarshal sc t v) = None.
Proof.
  unfold unmarshal. destruct (dstProxy t); cbn [fst]; try reflexivity.
  destruct (jsonUnmarshal sc b (dst t) _). reflexivity.
Qed.

Lemma unmarshalAll_nil (tran : list (transfer P)) :
  forall v : V, fst (unmarshalAll sc tran v) = None.
Proof.
  induction tran as [|t rest IH]; intros v; cbn [unmarshalAll]; [reflexivity|].
  pose proof (unmarshal_nil t v) as H.
  destruct (unmarshal sc t v) as [[e|] v']; cbn [fst] in H; [discriminate|apply IH].
Qed.

(** The rows [Rows] reads under a cap: as many as the cap says, and one when
    the cap is zero or negative. *)
Lemma scanStructs_exact (b : binder) (limit : Z) :
  forall (remaining : list R) (n : Z) (elems : list V),
    scanStructs sc b limit remaining n elems =
      elems ++ List.map (fun r => snd (binder_scan sc b r (zeroV sc)))
                 (take (Z.to_nat (Z.max 1 (limit - n))) remaining).
Proof.
  induction remaining as [|r rest IH]; intros n elems; cbn [scanStructs].
  - rewrite take_nil. cbn [List.map]. rewrite app_nil_r. reflexivity.
  - destruct (binder_scan sc b r (zeroV sc)) as [e row] eqn:Hrow.
    destruct (n + 1 >=? limit)%Z eqn:Hcap.
    + rewrite Z.geb_leb in Hcap. apply Z.leb_le in Hcap.
      replace (Z.to_nat (Z.max 1 (limit - n))) with 1%nat by lia.
      cbn [take List.map]. rewrite take_0, Hrow. reflexivity.
    + rewrite Z.geb_leb in Hcap. apply Z.leb_gt in Hcap.
      rewrite IH.
      replace (Z.to_nat (Z.max 1 (limit - n)))
        with (S (Z.to_nat (Z.max 1 (limit - (n + 1))))) by lia.
      cbn [take List.map]. rewrite Hrow, <- app_assoc. reflexivity.
Qed.

Lemma scanScalars_exact (limit : Z) :
  forall (remaining : list R) (n : Z) (elems : list C),
    let taken := take (Z.to_nat (Z.max 1 (limit - n))) remaining in
    (Forall (fun r => fst (sqlScanScalar sc r (zeroC sc)) = None) taken ->
     scanScalars sc limit remaining n elems =
       (None, elems ++ List.map (fun r => snd (sqlScanScalar sc r (zeroC sc))) taken))
    /\ (forall before r after e,
          taken = before ++ r :: after ->
          Forall (fun r => fst (sqlScanScalar sc r (zeroC sc)) = None) before ->
          fst (sqlScanScalar sc r (zeroC sc)) = Some e ->
          scanScalars sc limit remaining n elems =
            (Some (errorString (str "rows.scan() err: " ++ errText e)),
             elems ++ List.map (fun r => snd (sqlScanScalar sc r (zeroC sc))) before)).
Proof.
  induction remaining as [|r rest IH]; intros n elems; cbn zeta.
  - rewrite take_nil. split.
    + intros _. cbn. rewrite app_nil_r. reflexivity.
    + intros [|? ?] ? ? ? Hsplit; discriminate.
  - cbn [scanScalars].
    destruct (n + 1 >=? limit)%Z eqn:Hcap.
    + rewrite Z.geb_leb in Hcap. apply Z.leb_le in Hcap.
      replace (Z.to_nat (Z.max 1 (limit - n))) with 1%nat by lia.
      cbn [take]. rewrite take_0. split.
      * intros Hall. inversion Hall as [|? ? Hr _]; subst.
        destruct (sqlScanScalar sc r (zeroC sc)) as [[e|] row] eqn:Hrow; [discriminate|].
        cbn [List.map]. rewrite Hrow. reflexivity.
      * intros before r0 after e Hsplit Hbefore Hfail.
        destruct before as [|b0 before]; [|destruct before; discriminate].
        injection Hsplit as <- _.
        destruct (sqlScanScalar sc r (zeroC sc)) as [[e'|] row]; [|discriminate].
        cbn [fst] in Hfail. injection Hfail as ->. cbn. rewrite app_nil_r. reflexivity.
    + rewrite Z.geb_leb in Hcap. apply Z.leb_gt in Hcap.
      replace (Z.to_nat (Z.max 1 (limit - n)))
        with (S (Z.to_nat (Z.max 1 (limit - (n + 1))))) by lia.
      cbn [take]. split.
      * intros Hall. inversion Hall as [|? ? Hr Hrest]; subst.
        destruct (sqlScanScalar sc r (zeroC sc)) as [[e|] row] eqn:Hrow; [discriminate|].
        rewrite (proj1 (IH (n + 1)%Z (elems ++ [row])) Hrest).
        cbn [List.map]. rewrite Hrow, <- app_assoc. reflexivity.
      * intros before r0 after e Hsplit Hbefore Hfail.
        destruct before as [|b0 before].
        -- injection Hsplit as <- _.
           destruct (sqlScanScalar sc r (zeroC sc)) as [[e'|] row]; [|discriminate].
           cbn [fst] in Hfail. injection Hfail as ->. cbn. rewrite app_nil_r. reflexivity.
        -- injection Hsplit as <- Hsplit.
           inversion Hbefore as [|? ? Hb0 Hbefore']; subst.
           destruct (sqlScanScalar sc r (zeroC sc)) as [[e'|] row] eqn:Hrow; [discriminate|].
           rewrite (proj2 (IH (n + 1)%Z (elems ++ [row])) before r0 after e Hsplit Hbefore' Hfail).
           cbn [List.map]. rewrite Hrow, <- app_assoc. reflexivity.
Qed.


(** With a cap of at least one, [Rows] appends at most that many rows, and
    reaching the cap is no error. *)
Lemma scanScalars_bound (limit : Z) :
  forall (remaining : list R) (n : Z) (elems : list C),
    (n < limit)%Z ->
    (Z.of_nat (length (snd (scanScalars sc limit remaining n elems)))
       <= Z.of_nat (length elems) + (limit - n))%Z.
Proof.
  induction remaining as [|r rest IH]; intros n elems Hn; cbn [scanScalars].
  - cbn [snd]. lia.
  - destruct (sqlScanScalar sc r (zeroC sc)) as [[e|] row]; cbn [snd]; [lia|].
    destruct (n + 1 >=? limit)%Z eqn:Hcap; cbn [snd].
    + rewrite length_app. cbn [length]. lia.
    + rewrite Z.geb_leb in Hcap. apply Z.leb_gt in Hcap.
      specialize (IH (n + 1)%Z (elems ++ [row]) Hcap).
      rewrite length_app in IH. cbn [length] in IH. lia.
Qed.

Lemma scanStructs_bound (b : binder) (limit : Z) :
  forall (remaining : list R) (n : Z) (elems : list V),
    (n < limit)%Z ->
    (Z.of_nat (length (scanStructs sc b limit remaining n elems))
       <= Z.of_nat (length elems) + (limit - n))%Z.
Proof.
  induction remaining as [|r rest IH]; intros n elems Hn; cbn [scanStructs].
  - lia.
  - destruct (binder_scan sc b r (zeroV sc)) as [e row].
    destruct (n + 1 >=? limit)%Z eqn:Hcap.
    + rewrite length_app. cbn [length]. lia.
    + rewrite Z.geb_leb in Hcap. apply Z.leb_gt in Hcap.
      specialize (IH (n + 1)%Z (elems ++ [row]) Hcap).
      rewrite length_app in IH. cbn [length] in IH. lia.
Qed.

(** With a cap of at least one, [Rows] leaves in the slice at most as many
    elements more than it held as the cap says, whatever the number of rows
    in the result and whether the call fails or not. *)
Theorem Rows_Rows_capped (p : Rows R) (dst : sliceTarget V C) :
  (1 <= maxRows p)%Z ->
  (sliceLength (snd (Rows_Rows sc p dst)) <= sliceLength dst + maxRows p)%Z.
Proof.
  intros Hcap. unfold Rows_Rows.
  destruct (err p); cbn [snd]; [lia|].
  destruct dst as [| | |elems|elems]; cbn [snd sliceLength]; try lia.
  - pose proof (scanScalars_bound (maxRows p) (pending (rows p)) 0 elems) as H.
    destruct (scanScalars sc (maxRows p) (pending (rows p)) 0 elems) as [e elems'].
    cbn [snd sliceLength] in H |- *. lia.
  - destruct (genBinder p) as [b|e]; cbn [snd sliceLength]; [|lia].
    pose proof (scanStructs_bound b (maxRows p) (pending (rows p)) 0 elems). lia.
Qed.

End FetchFacts.

(** C6 at the result set in memory. *)
Lemma Rows_Row_empty_witness :
  (Rows_Row userScanner (userQuery false 1000 []) [Scalar 5%Z] =
     (Some (StatusNotFound (str "object")), [Scalar 5%Z], rowsClose (userRows []))
   /\ isNotFound (StatusNotFound (str "object")) = true)
  /\ (Rows_Row userScanner (userQuery true 1000 []) [Struct true (mkUser 5 None)] =
        (None, [Struct true (mkUser 5 None)], rowsClose (userRows []))
      /\ isNotFound (StatusNotFound (str "object")) = true).
Proof.
  split.
  - exact (Rows_Row_empty userScanner (userQuery false 1000 []) [Scalar 5%Z]
             eq_refl eq_refl).
  - exact (Rows_Row_empty userScanner (userQuery true 1000 [])
             [Struct true (mkUser 5 None)] eq_refl eq_refl).
Defined.

(** C7 at the failing input: with a cap of zero and two rows in the result
    set, [Rows] appends one row, one more than the cap, and reports no
    error. The default cap is 1000, and [WithMaxRows] takes any integer. *)
Theorem Rows_Rows_cap_zero :
  Rows_Rows userScanner
    (userQuery false (optMaxRows (WithMaxRows 0 NewDefaultDBOptions))
       [mkUserRow (Some 1%Z) (str "true"); mkUserRow (Some 2%Z) (str "false")])
    (ScalarSlice [])
  = (None, ScalarSlice [1%Z])
  /\ Rows_Rows userScanner
       (userQuery false (optMaxRows (WithMaxRows 0 NewDefaultDBOptions))
          [mkUserRow (Some 1%Z) (str "true"); mkUserRow (Some 2%Z) (str "false")])
       (StructSlice [])
     = (None, StructSlice [mkUser 1 (Some true)])
  /\ optMaxRows NewDefaultDBOptions = 1000%Z.
Proof.
  split; [vm_compute; reflexivity|].
  split; [vm_compute; reflexivity|reflexivity].
Qed.

(** [Rows_Rows_capped] at the result set in memory, with a cap of one. *)
Lemma Rows_Rows_capped_witness :
  (sliceLength
     (snd (Rows_Rows userScanner
             (userQuery false 1
                [mkUserRow (Some 1%Z) (str "true"); mkUserRow (Some 2%Z) (str "false")])
             (StructSlice [])))
   <= sliceLength (StructSlice (C := Z) ([] : list user)) + 1)%Z.
Proof.
  exact (Rows_Rows_capped userScanner
           (userQuery false 1
              [mkUserRow (Some 1%Z) (str "true"); mkUserRow (Some 2%Z) (str "false")])
           (StructSlice []) ltac:(cbn; lia)).
Defined.



(** ** Bulk script execution *)

Lemma splitLines_line (line : gostring) :
  noNewline line = true ->
  forall (s cur : gostring), splitLines (line ++ s) cur = splitLines s (cur ++ line).
Proof.
  induction line as [|c line IH]; intros Hline s cur.
  - rewrite app_nil_r. reflexivity.
  - cbn [noNewline forallb] in Hline. apply andb_true_iff in Hline.
    destruct Hline as [Hc Hline]. cbn [app splitLines].
    apply negb_true_iff in Hc. rewrite Hc.
    rewrite (IH Hline), <- app_assoc. reflexivity.
Qed.

Lemma splitLines_Join (lines : list gostring) :
  forallb noNewline lines = true ->
  forall (first cur : gostring),
    noNewline first = true ->
    splitLines (Join (first :: lines) [r_newline]) cur = (cur ++ first) :: lines.
Proof.
  induction lines as [|l lines IH]; intros Hlines first cur Hfirst.
  - cbn [Join]. rewrite <- (app_nil_r first) at 1.
    rewrite (splitLines_line first Hfirst). reflexivity.
  - cbn [forallb] in Hlines. apply andb_true_iff in Hlines. destruct Hlines as [Hl Hlines].
    change (Join (first :: l :: lines) [r_newline])
      with (first ++ [r_newline] ++ Join (l :: lines) [r_newline]).
    rewrite (splitLines_line first Hfirst). cbn [app splitLines].
    change (r_newline =? r_newline) with true. cbn iota.
    rewrite (IH Hlines l [] Hl). reflexivity.
Qed.

Lemma endsWithSemicolon_continued (cmd t : gostring) :
  endsWithSemicolon (cmd ++ str " " ++ t) = endsWithSemicolon t.
Proof.
  unfold endsWithSemicolon. rewrite !rev_app_distr.
  destruct (rev t) as [|c r]; reflexivity.
Qed.

Lemma scriptLoop_cmd (lines : list gostring) :
  forall (c1 c2 : gostring) (cmds : list gostring),
    scriptLoop lines c1 false cmds = scriptLoop lines c2 false cmds.
Proof.
  induction lines as [|line rest IH]; intros c1 c2 cmds; cbn [scriptLoop]; [reflexivity|].
  destruct (isSkipped line); [apply IH|].
  destruct (indexRune r_space line) as [[|n']|]; try apply IH.
  destruct (isKeyword (take (S n') line)); [|apply IH].
  destruct (endsWithSemicolon line); reflexivity.
Qed.

Lemma scriptLoop_continued :
  forall (more rest : list gostring) (cmd : gostring) (cmds : list gostring),
    continues more = true ->
    scriptLoop (more ++ rest) cmd true cmds =
      scriptLoop rest (statementText cmd more) false (cmds ++ [statementText cmd more]).
Proof.
  induction more as [|line more IH]; intros rest cmd cmds Hcont; [discriminate|].
  destruct more as [|line2 more'].
  - cbn [continues] in Hcont. apply andb_true_iff in Hcont. destruct Hcont as [Hskip Hend].
    apply negb_true_iff in Hskip.
    cbn [app scriptLoop statementText fold_left]. rewrite Hskip.
    rewrite endsWithSemicolon_continued, Hend. reflexivity.
  - change (continues (line :: line2 :: more'))
      with ((isSkipped line || negb (endsWithSemicolon (TrimSpace line)))
            && continues (line2 :: more')) in Hcont.
    apply andb_true_iff in Hcont. destruct Hcont as [Hline Hcont].
    change ((line :: line2 :: more') ++ rest) with (line :: (line2 :: more') ++ rest).
    cbn [scriptLoop]. unfold statementText. cbn [fold_left].
    destruct (isSkipped line) eqn:Hskip.
    + exact (IH rest cmd cmds Hcont).
    + cbn [orb] in Hline. apply negb_true_iff in Hline.
      rewrite endsWithSemicolon_continued, Hline.
      exact (IH rest _ cmds Hcont).
Qed.

(** On a well-formed script the loop finds the statements, all of them and
    nothing else. *)
Lemma scriptLoop_script :
  forall (script : list chunk) (rest : list gostring) (cmd : gostring)
         (cmds : list gostring),
    forallb wellFormed script = true ->
    scriptLoop (flat_map chunkLines script ++ rest) cmd false cmds =
      scriptLoop rest [] false (cmds ++ statements script).
Proof.
  induction script as [|c script IH]; intros rest cmd cmds Hwf.
  - cbn [flat_map app statements]. rewrite app_nil_r. apply scriptLoop_cmd.
  - cbn [forallb] in Hwf. apply andb_true_iff in Hwf. destruct Hwf as [Hc Hwf].
    cbn [flat_map statements]. rewrite <- app_assoc.
    destruct c as [line|first more]; cbn [chunkLines wellFormed] in Hc |- *.
    + apply andb_true_iff in Hc. destruct Hc as [_ Hno].
      unfold startsStatement in Hno. cbn [app scriptLoop].
      destruct (isSkipped line); [exact (IH rest cmd cmds Hwf)|].
      cbn [negb andb] in Hno.
      destruct (indexRune r_space line) as [[|n']|]; try exact (IH rest cmd cmds Hwf).
      apply negb_true_iff in Hno. rewrite Hno. exact (IH rest cmd cmds Hwf).
    + apply andb_true_iff in Hc. destruct Hc as [Hc Hshape].
      apply andb_true_iff in Hc. destruct Hc as [_ Hstart].
      unfold startsStatement in Hstart. apply andb_true_iff in Hstart.
      destruct Hstart as [Hskip Hkey]. apply negb_true_iff in Hskip.
      change ((first :: more) ++ flat_map chunkLines script ++ rest)
        with (first :: more ++ flat_map chunkLines script ++ rest).
      cbn [scriptLoop]. rewrite Hskip.
      destruct (indexRune r_space first) as [[|n']|]; try discriminate.
      rewrite Hkey.
      destruct more as [|line more'].
      * rewrite Hshape. cbn [app].
        rewrite (IH rest first _ Hwf), <- app_assoc. reflexivity.
      * apply andb_true_iff in Hshape. destruct Hshape as [Hend Hcont].
        apply negb_true_iff in Hend. rewrite Hend.
        rewrite scriptLoop_continued by exact Hcont.
        rewrite (IH rest _ _ Hwf), <- app_assoc. reflexivity.
Qed.

Lemma wellFormed_lines (script : list chunk) :
  forallb wellFormed script = true ->
  forallb noNewline (flat_map chunkLines script) = true.
Proof.
  induction script as [|c script IH]; intros Hwf; [reflexivity|].
  cbn [forallb] in Hwf. apply andb_true_iff in Hwf. destruct Hwf as [Hc Hwf].
  cbn [flat_map]. rewrite forallb_app, (IH Hwf), andb_true_r.
  destruct c as [line|first more]; cbn [chunkLines wellFormed forallb] in Hc |- *.
  - apply andb_true_iff in Hc. rewrite (proj1 Hc). reflexivity.
  - apply andb_true_iff in Hc. destruct Hc as [Hc _].
    apply andb_true_iff in Hc. destruct Hc as [Hc _]. exact Hc.
Qed.

(** The script format. The commands [ExecRows] reads off the text of a
    well-formed script (lines joined by newlines; a statement starts on a
    line with SET, CREATE, INSERT or DROP and a space, and ends with the
    first line whose last character is a semicolon, a continuation line
    being trimmed first; blank lines and lines starting with two dashes and
    a space are passed over) are exactly its statements, in order: the first
    line as it is, then each continuation line trimmed, after a space. *)
Theorem scriptCommands_render (script : list chunk) :
  forallb wellFormed script = true ->
  scriptCommands (render script) = statements script.
Proof.
  intros Hwf. unfold scriptCommands, render.
  pose proof (wellFormed_lines script Hwf) as Hlines.
  pose proof (scriptLoop_script script [] [] [] Hwf) as Hloop.
  rewrite app_nil_r in Hloop. cbn [scriptLoop app] in Hloop.
  destruct (flat_map chunkLines script) as [|first lines] eqn:Hflat.
  - cbn [Join splitLines scriptLoop]. cbn. exact Hloop.
  - cbn [forallb] in Hlines. apply andb_true_iff in Hlines. destruct Hlines as [Hf Hl].
    rewrite (splitLines_Join lines Hl first [] Hf). exact Hloop.
Qed.

Lemma bindM_noting {S A B : Type} (op : M S A) (ev : txEvent)
    (k : A -> M (S * list txEvent) B) (s : S) (log : list txEvent) :
  (do a <- noting op ev; k a) (s, log) = k (fst (op s)) (snd (op s), log ++ [ev]).
Proof. unfold bindM, noting. destruct (op s). reflexivity. Qed.

Lemma txRunAll_snoc {S : Type} (p : SqlDB S) (cmds : list gostring) (cmd : gostring) (s : S) :
  txRunAll p (cmds ++ [cmd]) s = snd (TxExec p cmd (txRunAll p cmds s)).
Proof. unfold txRunAll. rewrite fold_left_app. reflexivity. Qed.

Lemma execCommands_all {S : Type} (p : SqlDB S) (cmds : list gostring) :
  forall (s : S) (log : list txEvent),
    allSucceed p cmds s ->
    execCommands (recorded p) cmds (s, log) =
      (None, (txRunAll p cmds s, log ++ List.map EvExec cmds)).
Proof.
  induction cmds as [|cmd rest IH]; intros s log Hall.
  - cbn. rewrite app_nil_r. reflexivity.
  - destruct Hall as [Hcmd Hrest]. cbn [execCommands recorded TxExec].
    rewrite bindM_noting, Hcmd, (IH _ _ Hrest).
    cbn [List.map]. rewrite <- app_assoc. reflexivity.
Qed.

Lemma execCommands_failing {S : Type} (p : SqlDB S) (pre : list gostring) :
  forall (cmd : gostring) (post : list gostring) (e0 : error) (s : S) (log : list txEvent),
    allSucceed p pre s ->
    fst (TxExec p cmd (txRunAll p pre s)) = Some e0 ->
    execCommands (recorded p) (pre ++ cmd :: post) (s, log) =
      (Some (errorString (str "sql " ++ cmd ++ [r_newline] ++ str "err " ++ errText e0)),
       (txRunAll p (pre ++ [cmd]) s, log ++ List.map EvExec (pre ++ [cmd]))).
Proof.
  induction pre as [|c pre IH]; intros cmd post e0 s log Hall Hfail.
  - cbn [app execCommands recorded TxExec]. rewrite bindM_noting.
    cbn [txRunAll fold_left] in Hfail. rewrite Hfail. reflexivity.
  - destruct Hall as [Hc Hrest].
    cbn [app execCommands recorded TxExec]. rewrite bindM_noting, Hc.
    fold (recorded p). rewrite (IH cmd post e0 _ _ Hrest Hfail).
    cbn [List.map]. rewrite <- app_assoc. reflexivity.
Qed.

Lemma allSucceed_or_fails {S : Type} (p : SqlDB S) (cmds : list gostring) :
  forall s : S,
    allSucceed p cmds s
    \/ exists pre cmd post e0,
         cmds = pre ++ cmd :: post
         /\ allSucceed p pre s
         /\ fst (TxExec p cmd (txRunAll p pre s)) = Some e0.
Proof.
  induction cmds as [|c rest IH]; intros s; [left; exact I|].
  destruct (fst (TxExec p c s)) as [e0|] eqn:Hc.
  - right. exists [], c, rest, e0. repeat split. exact Hc.
  - destruct (IH (snd (TxExec p c s))) as [Hall|(pre & cmd & post & e0 & -> & Hall & Hfail)].
    + left. split; assumption.
    + right. exists (c :: pre), cmd, post, e0. repeat split; assumption.
Qed.

(** [ExecRows] runs the commands it read off the text in one transaction:
    after Begin, the commands are executed in order; if all of them succeed
    the transaction is committed and nil returned; at the first one that
    fails the rest is not run, the transaction is rolled back and the error
    returned, wrapped with the text of the command; so a run commits, or
    returns nil, only if every command succeeded. With a database whose
    rollback restores the state at Begin, a failing run leaves the database
    as it was. When Begin fails nothing else is called. *)
Theorem ExecRows_transaction {S : Type} (p : SqlDB S) (bytes : gostring) (s : S) :
  (forall s0 s1 cmds,
     Begin p s0 = (None, s1) -> snd (TxRollback p (txRunAll p cmds s1)) = s0) ->
  let cmds := scriptCommands bytes in
  let run := ExecRows (recorded p) bytes (s, []) in
  (forall e, fst (Begin p s) = Some e ->
     fst run = Some (errorString (str "Begin() err: " ++ errText e))
     /\ snd (snd run) = [EvBegin])
  /\ (fst (Begin p s) = None ->
      let s1 := snd (Begin p s) in
      (allSucceed p cmds s1 ->
         fst run = None
         /\ snd (snd run) = EvBegin :: List.map EvExec cmds ++ [EvCommit]
         /\ fst (snd run) = snd (TxCommit p (txRunAll p cmds s1)))
      /\ (forall pre cmd post e0,
            cmds = pre ++ cmd :: post ->
            allSucceed p pre s1 ->
            fst (TxExec p cmd (txRunAll p pre s1)) = Some e0 ->
            fst run =
              Some (errorString (str "sql " ++ cmd ++ [r_newline] ++ str "err "
                                 ++ errText e0))
            /\ snd (snd run) =
                 EvBegin :: List.map EvExec (pre ++ [cmd]) ++ [EvRollback]
            /\ fst (snd run) = s)
      /\ (fst run = None \/ In EvCommit (snd (snd run)) -> allSucceed p cmds s1)).
Proof.
  intros Hrollback. cbn zeta.
  unfold ExecRows. cbn [recorded Begin TxCommit TxRollback]. rewrite bindM_noting.
  fold (recorded p). cbn [app].
  generalize (scriptCommands bytes) as cmds. intros cmds.
  split.
  - intros e He. rewrite He. split; reflexivity.
  - intros Hbegin. rewrite Hbegin.
    assert (Hcommit : allSucceed p cmds (snd (Begin p s)) ->
      (do err <- execCommands (recorded p) cmds;
       do _ <- match err with
               | Some _ => noting (TxRollback p) EvRollback
               | None => noting (TxCommit p) EvCommit
               end;
       ret err) (snd (Begin p s), [EvBegin])
      = (None, (snd (TxCommit p (txRunAll p cmds (snd (Begin p s)))),
                EvBegin :: List.map EvExec cmds ++ [EvCommit]))).
    { intros Hall. unfold bindM.
      rewrite (execCommands_all p _ _ _ Hall). unfold noting, ret.
      destruct (TxCommit p _) as [r s2]. cbn [fst snd].
      rewrite <- app_assoc. reflexivity. }
    assert (Hfails : forall pre cmd post e0,
      cmds = pre ++ cmd :: post ->
      allSucceed p pre (snd (Begin p s)) ->
      fst (TxExec p cmd (txRunAll p pre (snd (Begin p s)))) = Some e0 ->
      (do err <- execCommands (recorded p) cmds;
       do _ <- match err with
               | Some _ => noting (TxRollback p) EvRollback
               | None => noting (TxCommit p) EvCommit
               end;
       ret err) (snd (Begin p s), [EvBegin])
      = (Some (errorString (str "sql " ++ cmd ++ [r_newline] ++ str "err " ++ errText e0)),
         (s, EvBegin :: List.map EvExec (pre ++ [cmd]) ++ [EvRollback]))).
    { intros pre cmd post e0 Hsplit Hall Hfail. unfold bindM.
      rewrite Hsplit, (execCommands_failing p pre cmd post e0 _ _ Hall Hfail).
      unfold noting, ret.
      pose proof (Hrollback s (snd (Begin p s)) (pre ++ [cmd])) as Hback.
      destruct (TxRollback p _) as [r s2]. cbn [fst snd] in Hback |- *.
      rewrite <- app_assoc.
      rewrite Hback; [reflexivity|].
      destruct (Begin p s) as [r0 s1]. cbn [fst snd] in *. subst r0. reflexivity. }
    split; [|split].
    + intros Hall. rewrite (Hcommit Hall). repeat split; reflexivity.
    + intros pre cmd post e0 Hsplit Hall Hfail.
      rewrite (Hfails pre cmd post e0 Hsplit Hall Hfail). repeat split; reflexivity.
    + intros Hres.
      destruct (allSucceed_or_fails p cmds (snd (Begin p s)))
        as [Hall|(pre & cmd & post & e0 & Hsplit & Hall & Hfail)]; [exact Hall|].
      exfalso. rewrite (Hfails pre cmd post e0 Hsplit Hall Hfail) in Hres.
      cbn [fst snd] in Hres. destruct Hres as [Hnil|Hin]; [discriminate|].
      destruct Hin as [Hin|Hin]; [discriminate|].
      apply in_app_or in Hin. destruct Hin as [Hin|[Hin|[]]]; [|discriminate].
      apply in_map_iff in Hin. destruct Hin as (c & Hc & _). discriminate.
Qed.

(** C9 at the failing input. A statement on one line that ends with a
    semicolon followed by a space is not read as a command: the first line
    of a statement is tested on its last character as it is, while a
    continuation line is trimmed first. The text holds one INSERT
    statement, no command is read off it, and the run, when Begin succeeds,
    executes nothing, commits and returns nil. The same statement broken
    over two lines, with the same space at the end, is read and run. On a
    text with carriage returns before the newlines, the first two
    statements are read as one command. *)
Theorem ExecRows_trailing_space {S : Type} (p : SqlDB S) (s : S) :
  fst (Begin p s) = None ->
  scriptCommands (str "INSERT INTO t VALUES (1); ") = []
  /\ ExecRows (recorded p) (str "INSERT INTO t VALUES (1); ") (s, [])
     = (None, (snd (TxCommit p (snd (Begin p s))), [EvBegin; EvCommit]))
  /\ scriptCommands (str "INSERT INTO t" ++ [r_newline] ++ str "VALUES (1); ")
     = [str "INSERT INTO t VALUES (1);"]
  /\ scriptCommands (str "SET a;" ++ [13; r_newline] ++ str "SET b;"
                     ++ [13; r_newline] ++ str "SET c;")
     = [str "SET a;" ++ [13] ++ str " SET b;"; str "SET c;"].
Proof.
  intros Hbegin.
  assert (Hcmds : scriptCommands (str "INSERT INTO t VALUES (1); ") = [])
    by (vm_compute; reflexivity).
  split; [exact Hcmds|]. split; [|split; vm_compute; reflexivity].
  unfold ExecRows. cbn [recorded Begin TxCommit TxRollback]. rewrite bindM_noting.
  rewrite Hbegin, Hcmds. cbn [execCommands]. unfold bindM, ret, noting.
  destruct (TxCommit p (snd (Begin p s))) as [r s2]. reflexivity.
Qed.

Lemma memTx_committed (cmds : list gostring) :
  forall s : txStore, committed (txRunAll memTx cmds s) = committed s.
Proof.
  induction cmds as [|cmd rest IH]; intros s; [reflexivity|].
  change (txRunAll memTx (cmd :: rest) s)
    with (txRunAll memTx rest (snd (TxExec memTx cmd s))).
  rewrite IH. cbn [memTx TxExec]. destruct (working s); [|reflexivity].
  destruct (streq cmd (str "DROP TABLE missing;")); reflexivity.
Qed.

Lemma memTx_rollback (s0 s1 : txStore) (cmds : list gostring) :
  Begin memTx s0 = (None, s1) ->
  snd (TxRollback memTx (txRunAll memTx cmds s1)) = s0.
Proof.
  cbn [memTx Begin TxRollback snd]. destruct s0 as [c w]. cbn [working committed].
  destruct w; [discriminate|]. intros [= <-].
  rewrite memTx_committed. reflexivity.
Qed.

(** The script format at the example script. *)
Lemma scriptCommands_render_witness :
  scriptCommands (render exampleScript)
  = [str "SET NAMES utf8;"; str "CREATE TABLE t ( a INT, b TEXT);"].
Proof.
  exact (scriptCommands_render exampleScript eq_refl).
Defined.

(** [ExecRows_transaction] at the transactional store in memory: a text
    of three commands of which the second fails. The first command is
    undone with it, the third is not run. *)
Lemma ExecRows_transaction_witness :
  let bytes := str "INSERT INTO t VALUES (1);" ++ [r_newline]
               ++ str "DROP TABLE missing;" ++ [r_newline]
               ++ str "INSERT INTO t VALUES (2);" in
  let run := ExecRows (recorded memTx) bytes (mkTxStore [] None, []) in
  fst run = Some (errorString (str "sql DROP TABLE missing;" ++ [r_newline]
                               ++ str "err no such table: missing"))
  /\ snd (snd run) = [EvBegin; EvExec (str "INSERT INTO t VALUES (1);");
                      EvExec (str "DROP TABLE missing;"); EvRollback]
  /\ fst (snd run) = mkTxStore [] None.
Proof.
  cbn zeta.
  pose proof (ExecRows_transaction memTx
                (str "INSERT INTO t VALUES (1);" ++ [r_newline]
                 ++ str "DROP TABLE missing;" ++ [r_newline]
                 ++ str "INSERT INTO t VALUES (2);")
                (mkTxStore [] None) memTx_rollback) as [_ H].
  destruct (H eq_refl) as (_ & Hfail & _).
  exact (Hfail [str "INSERT INTO t VALUES (1);"] (str "DROP TABLE missing;")
           [str "INSERT INTO t VALUES (2);"]
           (errorString (str "no such table: missing"))
           eq_refl ltac:(repeat split) eq_refl).
Defined.

(** C9's failing input at the transactional store in memory. *)
Lemma ExecRows_trailing_space_witness :
  scriptCommands (str "INSERT INTO t VALUES (1); ") = []
  /\ ExecRows (recorded memTx) (str "INSERT INTO t VALUES (1); ")
       (mkTxStore [] None, [])
     = (None, (mkTxStore [] None, [EvBegin; EvCommit])).
Proof.
  destruct (ExecRows_trailing_space memTx (mkTxStore [] None) eq_refl)
    as (Hcmds & Hrun & _).
  split; [exact Hcmds|exact Hrun].
Defined.

(** The statements of the example script, and a run in which the second
    statement fails: the first one is undone with it. *)
Example ExecRows_example :
  statements exampleScript =
    [str "SET NAMES utf8;"; str "CREATE TABLE t ( a INT, b TEXT);"]
  /\ ExecRows (recorded memTx) (render exampleScript) (mkTxStore [] None, [])
     = (None,
        (mkTxStore [str "SET NAMES utf8;"; str "CREATE TABLE t ( a INT, b TEXT);"] None,
         [EvBegin; EvExec (str "SET NAMES utf8;");
          EvExec (str "CREATE TABLE t ( a INT, b TEXT);"); EvCommit]))
  /\ snd (ExecRows (recorded memTx)
            (str "INSERT INTO t VALUES (1);" ++ [r_newline] ++ str "DROP TABLE missing;"
             ++ [r_newline] ++ str "INSERT INTO t VALUES (2);")
            (mkTxStore [] None, []))
     = (mkTxStore [] None,
        [EvBegin; EvExec (str "INSERT INTO t VALUES (1);");
         EvExec (str "DROP TABLE missing;"); EvRollback]).
Proof.
  split; [vm_compute; reflexivity|].
  split; vm_compute; reflexivity.
Qed.

(** ** Opening a connection *)

Section OpenFacts.
Context {Drv RawDB : Type} (sql : SqlPackage RawDB).
Context (dbFactories : gmap gostring (DBFactory Drv RawDB)) (nonDriver : Drv).

Lemma openOptions_driver (driverName dataSourceName : gostring)
    (opts : list (DBOptions -> DBOptions)) :
  driver (openOptions driverName dataSourceName opts) = driverName
  /\ dsn (openOptions driverName dataSourceName opts) = dataSourceName.
Proof.
  unfold openOptions. rewrite fold_left_app. split; reflexivity.
Qed.

(** C10. Opening a connection under a dialect name for which no factory
    is registered does not fail: when the options are valid, [sql.Open]
    succeeds and the ping, unless it is switched off, succeeds, [Open]
    returns a DB whose driver is [nonDriver]. No unknown-dialect error is
    raised. *)
Theorem Open_unregistered_dialect (driverName dataSourceName : gostring)
    (opts : list (DBOptions -> DBOptions)) (raw : RawDB) :
  let o := openOptions driverName dataSourceName opts in
  dbFactories !! driverName = None ->
  Validate o = None ->
  sqlOpen sql driverName dataSourceName = Ok raw ->
  (withoutPing o = true \/ Ping sql raw = None) ->
  exists db,
    Open sql dbFactories nonDriver driverName dataSourceName opts = Ok db
    /\ open sql dbFactories nonDriver o = Ok db
    /\ dbDriver db = nonDriver
    /\ Options db = o.
Proof.
  cbn zeta. intros Hreg Hvalid Hopen Hping.
  destruct (openOptions_driver driverName dataSourceName opts) as [Hd Hs].
  unfold Open. rewrite Hvalid. unfold open. rewrite Hd, Hs, Hopen.
  assert (Hp : (if negb (withoutPing (openOptions driverName dataSourceName opts))
                then Ping sql raw else None) = None).
  { destruct Hping as [-> | ->]; [reflexivity|].
    destruct (negb _); reflexivity. }
  rewrite Hp.
  match goal with
  | |- context [match ?x with Some _ => _ | None => _ end] =>
    replace x with (@None (DBFactory Drv RawDB)) by (symmetry; exact Hreg)
  end.
  eexists. repeat split; reflexivity.
Qed.

End OpenFacts.

(** C10 at the registry that holds the SQLite dialect only. *)
Lemma Open_unregistered_dialect_witness :
  exists db,
    Open memSql sqliteRegistry (str "nonDriver") (str "postgres") (str "host=db") []
      = Ok db
    /\ open memSql sqliteRegistry (str "nonDriver")
         (openOptions (str "postgres") (str "host=db") []) = Ok db
    /\ dbDriver db = str "nonDriver"
    /\ Options db = openOptions (str "postgres") (str "host=db") [].
Proof.
  refine (Open_unregistered_dialect memSql sqliteRegistry (str "nonDriver")
            (str "postgres") (str "host=db") [] (mkPool None None) _ eq_refl eq_refl _).
  - unfold sqliteRegistry. apply lookup_insert_None. split; [apply lookup_empty|].
    intros H. apply (f_equal length) in H. vm_compute in H. discriminate.
  - right. reflexivity.
Defined.

(** Registering a dialect name twice is refused: the second [Register]
    panics, the first one having bound the name. *)
Theorem Register_twice {Drv RawDB : Type} (n : gostring) (d d' : DBFactory Drv RawDB)
    (dbFactories : gmap gostring (DBFactory Drv RawDB)) :
  match Register n d dbFactories with
  | Some registry => registry !! n = Some d /\ Register n d' registry = None
  | None => is_Some (dbFactories !! n)
  end.
Proof.
  unfold Register at 1.
  destruct (dbFactories !! n) as [f|] eqn:Hn.
  - exists f. reflexivity.
  - assert (Hl : (<[n:=d]> dbFactories) !! n = Some d) by apply lookup_insert_eq.
    split; [exact Hl|]. unfold Register. rewrite Hl. reflexivity.
Qed.

(** The scenario of the design document: the desired column name is NOT
    NULL and of size 10, the actual one nullable and of size 5, next to a
    column that needs nothing and a column the desired schema does not
    know. Whatever the driver behind the operations, the migration makes
    exactly one call that changes the schema, the AlterColumn of that
    column, and returns what this call returns; no call is made for any
    other column. *)
Theorem AutoMigrate_scenario {S : Type} (p : Driver S) (s : S) :
  fst (HasTable p (str "profile") s) = true ->
  fst (ColumnTypes p profileTable (snd (HasTable p (str "profile") s)))
    = Ok (columns profileSchema) ->
  let run := AutoMigrate (traced p) profileTable (s, []) in
  snd (snd run)
    = [ QHasTable (str "profile") true;
        QColumnTypes (Ok (columns profileSchema));
        OpAlterColumn (str "name") ]
  /\ fst run
     = fst (AlterColumn p (str "name") profileTable
              (snd (ColumnTypes p profileTable (snd (HasTable p (str "profile") s))))).
Proof.
  intros Hhas Hcols. cbn zeta. unfold AutoMigrate.
  cbn [traced HasTable ColumnTypes]. rewrite bind_asking.
  change (Table profileTable) with (str "profile"). rewrite Hhas. cbn [negb].
  rewrite bind_asking, Hcols. cbn [app].
  change (tableFields profileTable) with profileFields. unfold profileFields.
  cbn [migrateColumns options name].
  replace (foundField (columns profileSchema) (str "id"))
    with (Some (mkFieldOptions (str "id") (str "integer") None (Some false) None [] []))
    by (vm_compute; reflexivity).
  replace (foundField (columns profileSchema) (str "name"))
    with (Some (mkFieldOptions (str "name") (str "text") (Some 5%Z) (Some false) None [] []))
    by (vm_compute; reflexivity).
  unfold MigrateColumn.
  replace (alterColumn (mkFieldOptions (str "id") (str "integer") None None None [] [])
             (mkFieldOptions (str "id") (str "integer") None (Some false) None [] []))
    with false by reflexivity.
  replace (alterColumn
             (mkFieldOptions (str "name") (str "text") (Some 10%Z) (Some true) None [] [])
             (mkFieldOptions (str "name") (str "text") (Some 5%Z) (Some false) None [] []))
    with true by reflexivity.
  cbn [name migrateIndexes indexKey]. unfold andThen, bindM, ret.
  cbn [traced AlterColumn]. rewrite issuing_run.
  destruct (fst (AlterColumn p (str "name") profileTable _)) as [e|];
    cbn [fst snd app]; split; reflexivity.
Qed.

Lemma AutoMigrate_scenario_witness :
  snd (snd (AutoMigrate (traced memDriver) profileTable (profileSchema, [])))
  = [ QHasTable (str "profile") true;
      QColumnTypes (Ok (columns profileSchema));
      OpAlterColumn (str "name") ].
Proof.
  exact (proj1 (AutoMigrate_scenario memDriver profileSchema eq_refl eq_refl)).
Defined.

(** ** The document model *)

Lemma dropConstraint_has (n : gostring) (fs : list gostring) :
  match dropConstraint n fs with
  | Some fs' =>
    existsb (matchConstraint n) fs = true
    /\ exists before f after,
         fs = before ++ f :: after /\ fs' = before ++ after
         /\ matchConstraint n f = true
         /\ existsb (matchConstraint n) before = false
  | None => existsb (matchConstraint n) fs = false
  end.
Proof.
  induction fs as [|f rest IH]; cbn [dropConstraint existsb]; [reflexivity|].
  destruct (matchConstraint n f) eqn:Hf.
  - split; [reflexivity|]. exists [], f, rest. repeat split. exact Hf.
  - destruct (dropConstraint n rest) as [rest'|].
    + destruct IH as (Hex & before & g & after & -> & -> & Hg & Hbefore).
      split; [exact Hex|]. exists (f :: before), g, after.
      cbn [app existsb]. rewrite Hf, Hbefore. repeat split. exact Hg.
    + exact IH.
Qed.

(** [removeConstraint] reports a removal exactly when [hasConstraint] held;
    it then removes one clause, the first one that matches, and keeps the
    others in order; otherwise the document is unchanged. *)
Theorem removeConstraint_spec (n : gostring) (p : sqliteDDL) :
  fst (removeConstraint n p) = hasConstraint n p
  /\ head (snd (removeConstraint n p)) = head p
  /\ (hasConstraint n p = false -> snd (removeConstraint n p) = p)
  /\ (hasConstraint n p = true ->
      exists before f after,
        fields p = before ++ f :: after
        /\ fields (snd (removeConstraint n p)) = before ++ after
        /\ matchConstraint n f = true
        /\ existsb (matchConstraint n) before = false).
Proof.
  unfold removeConstraint, hasConstraint.
  pose proof (dropConstraint_has n (fields p)) as H.
  destruct (dropConstraint n (fields p)) as [fs'|]; cbn [fst snd head fields].
  - destruct H as (Hex & before & f & after & Hfs & -> & Hf & Hbefore).
    rewrite Hex. split; [reflexivity|]. split; [reflexivity|].
    split; [discriminate|].
    intros _. exists before, f, after. repeat split; assumption.
  - rewrite H. split; [reflexivity|]. split; [reflexivity|].
    split; [reflexivity|discriminate].
Qed.

Lemma replaceConstraint_first (n sql : gostring) (fs : list gostring) :
  match replaceConstraint n sql fs with
  | Some fs' =>
    exists before f after,
      fs = before ++ f :: after /\ fs' = before ++ sql :: after
      /\ matchConstraint n f = true
      /\ existsb (matchConstraint n) before = false
  | None => existsb (matchConstraint n) fs = false
  end.
Proof.
  induction fs as [|f rest IH]; cbn [replaceConstraint existsb]; [reflexivity|].
  destruct (matchConstraint n f) eqn:Hf.
  - exists [], f, rest. repeat split. exact Hf.
  - destruct (replaceConstraint n sql rest) as [rest'|].
    + destruct IH as (before & g & after & -> & -> & Hg & Hbefore).
      exists (f :: before), g, after. cbn [app existsb]. rewrite Hf, Hbefore.
      repeat split. exact Hg.
    + exact IH.
Qed.

(** [addConstraint] replaces the first clause that matches the name, and
    only that one, by the new clause, which takes its place; when no clause
    matches, the new clause is appended after the last one. The header and
    the other clauses are kept as they are, in order; so the new clause is
    in the document, and the number of clauses grows by one exactly when no
    clause matched. *)
Theorem addConstraint_spec (n sql : gostring) (p : sqliteDDL) :
  head (addConstraint n sql p) = head p
  /\ (hasConstraint n p = false ->
      fields (addConstraint n sql p) = fields p ++ [sql])
  /\ (hasConstraint n p = true ->
      exists before f after,
        fields p = before ++ f :: after
        /\ fields (addConstraint n sql p) = before ++ sql :: after
        /\ matchConstraint n f = true
        /\ existsb (matchConstraint n) before = false)
  /\ In sql (fields (addConstraint n sql p))
  /\ length (fields (addConstraint n sql p)) =
       (if hasConstraint n p then length (fields p) else S (length (fields p))).
Proof.
  unfold addConstraint, hasConstraint.
  pose proof (replaceConstraint_first n sql (fields p)) as H.
  destruct (replaceConstraint n sql (fields p)) as [fs|]; cbn [head fields].
  - destruct H as (before & f & after & Hfs & -> & Hf & Hbefore).
    assert (Hex : existsb (matchConstraint n) (fields p) = true).
    { rewrite Hfs, existsb_app. cbn [existsb]. rewrite Hf, orb_true_r. reflexivity. }
    rewrite Hex. split; [reflexivity|]. split; [discriminate|].
    split; [intros _; exists before, f, after; repeat split; assumption|].
    split; [apply in_or_app; right; left; reflexivity|].
    rewrite Hfs, !length_app. reflexivity.
  - rewrite H. split; [reflexivity|]. split; [reflexivity|].
    split; [discriminate|].
    split; [apply in_or_app; right; left; reflexivity|].
    rewrite length_app. cbn [length]. lia.
Qed.

(** The document of the example statement: its constraint is found under its
    name, removed by [removeConstraint], and the document compiles back to
    one line. *)
Example constraint_example :
  exists d,
    sqliteParseDDL exampleDDL = Ok d
    /\ hasConstraint (str "pk") d = true
    /\ hasConstraint (str "p") d = false
    /\ compile (snd (removeConstraint (str "pk") d)) =
         str "CREATE TABLE " ++ [r_dquote] ++ str "t" ++ [r_dquote]
         ++ str " (`a` INT,`b` TEXT DEFAULT 'x,y')".
Proof.
  eexists. split; [vm_compute; reflexivity|].
  repeat split; vm_compute; reflexivity.
Qed.

(** ** The statement of CreateTable read back *)

Lemma fold_left_concat {A B : Type} (g : A -> list B) (l : list A) :
  forall init : list B,
    fold_left (fun SQL f => SQL ++ g f) l init = init ++ concat (List.map g l).
Proof.
  induction l as [|a l IH]; intros init; cbn [fold_left List.map concat].
  - rewrite app_nil_r. reflexivity.
  - rewrite IH, <- app_assoc. reflexivity.
Qed.

Lemma trimSuffixRune_snoc (s : gostring) (c : rune) : trimSuffixRune (s ++ [c]) c = s.
Proof.
  unfold trimSuffixRune. rewrite rev_app_distr. cbn [rev app].
  rewrite N.eqb_refl. apply rev_involutive.
Qed.

Lemma Join_cons2 (a b : gostring) (l : list gostring) (sep : gostring) :
  Join (a :: b :: l) sep = a ++ sep ++ Join (b :: l) sep.
Proof. reflexivity. Qed.

Lemma concat_sep_Join (l : list gostring) (c : rune) :
  l <> [] ->
  concat (List.map (fun x => x ++ [c]) l) = Join l [c] ++ [c].
Proof.
  induction l as [|a l IH]; intros Hne; [congruence|].
  destruct l as [|b l].
  - cbn. rewrite app_nil_r. reflexivity.
  - cbn [List.map concat]. cbn [List.map concat] in IH.
    rewrite IH by discriminate. rewrite Join_cons2, <- !app_assoc. reflexivity.
Qed.

Lemma Join_snoc (l : list gostring) (x sep : gostring) :
  l <> [] -> Join (l ++ [x]) sep = Join l sep ++ sep ++ x.
Proof.
  induction l as [|a l IH]; intros Hne; [congruence|].
  destruct l as [|b l].
  - reflexivity.
  - change ((a :: b :: l) ++ [x]) with (a :: b :: (l ++ [x])).
    rewrite !Join_cons2. change (b :: l ++ [x]) with ((b :: l) ++ [x]).
    rewrite IH by discriminate. rewrite <- !app_assoc. reflexivity.
Qed.

(** The statement of [CreateTable] is the header, then its clauses joined
    by commas between parentheses. *)
Lemma createTableSQL_shape (o : SqlOptions) :
  createTableSQL o =
    (str "CREATE TABLE `" ++ Table o ++ str "`") ++ str " ("
      ++ Join (createTableClauses o) [r_comma] ++ str ")".
Proof.
  unfold createTableSQL, createTableClauses, primaryKeyClauses, tableFields.
  generalize (sample o) as fs. intros fs.
  rewrite (fold_left_concat
             (fun f : field => str "`" ++ name f ++ str "` " ++ FullDataTypeOf f ++ str ",")).
  assert (Hmap :
    List.map (fun f : field => str "`" ++ name f ++ str "` " ++ FullDataTypeOf f ++ str ",") fs
    = List.map (fun x => x ++ [r_comma]) (List.map columnClause fs)).
  { rewrite List.map_map. apply List.map_ext. intros f. unfold columnClause.
    rewrite <- !app_assoc. reflexivity. }
  rewrite Hmap. clear Hmap.
  change (fun f : field => str "`" ++ name f ++ str "`") with quotedName.
  unfold gostring in *.
  assert (Hcases : fs = [] \/ fs <> []) by (destruct fs; [left; reflexivity|right; discriminate]).
  destruct Hcases as [->|Hfs].
  - cbn [List.map List.filter concat app Join]. rewrite app_nil_r.
    change (str "CREATE TABLE `" ++ Table o ++ str "` (")
      with (str "CREATE TABLE `" ++ Table o ++ str "` " ++ [r_lparen]).
    unfold trimSuffixRune. rewrite !app_assoc, rev_app_distr. cbn [rev app].
    change (r_lparen =? r_comma) with false. cbn iota.
    rewrite <- !app_assoc. reflexivity.
  - assert (Hne : List.map columnClause fs <> []) by (destruct fs; [congruence|discriminate]).
    unfold gostring in *.
    rewrite (concat_sep_Join _ r_comma Hne).
    match goal with
    | |- context [match ?x with [] => _ | _ :: _ => _ end] => destruct x as [|pk pks]
    end.
    + rewrite !app_assoc. rewrite trimSuffixRune_snoc.
      rewrite <- !app_assoc. rewrite app_nil_r.
      change (str "` (") with (str "`" ++ str " ("). rewrite <- !app_assoc. reflexivity.
    + rewrite (Join_snoc _ _ _ Hne).
      change (str "),") with (str ")" ++ [r_comma]).
      rewrite !app_assoc. rewrite trimSuffixRune_snoc. rewrite <- !app_assoc.
      change (str "` (") with (str "`" ++ str " ("). rewrite <- !app_assoc. reflexivity.
Qed.

(** *** Scanning the text of a clause *)

Lemma isWord_isPlain (c : rune) : isWord c = true -> isPlain c = true.
Proof.
  unfold isWord, isPlain, isQuoteRune, r_squote, r_dquote, r_bquote, r_lparen,
    r_rparen, r_comma, r_newline.
  rewrite !orb_true_iff, !andb_true_iff, !negb_true_iff, !orb_false_iff,
    !N.leb_le, !N.eqb_eq, !N.eqb_neq. lia.
Qed.

Lemma isPlain_spec (c : rune) :
  isPlain c = true ->
  isQuoteRune c = false /\ (c =? r_lparen) = false /\ (c =? r_rparen) = false
  /\ (c =? r_comma) = false /\ (c =? r_newline) = false.
Proof.
  unfold isPlain. rewrite !andb_true_iff, !negb_true_iff. tauto.
Qed.

(** A plain rune is appended to the text being read, whatever the state. *)
Lemma loopBody_plain (c next : rune) (lvl : Z) (q : rune) (b : gostring)
    (fs : list gostring) :
  (0 <= lvl)%Z -> isPlain c = true ->
  loopBody c next (mkScan lvl q b fs) = Proceed (mkScan lvl q (b ++ [c]) fs) false.
Proof.
  intros Hlvl Hc. apply isPlain_spec in Hc.
  destruct Hc as (Hq & Hl & Hr & Hcm & _).
  unfold loopBody. cbn [bracketLevel quote buf scanned].
  rewrite Hq, Hl, Hr, Hcm.
  replace (lvl <? 0)%Z with false by (symmetry; apply Z.ltb_ge; lia).
  destruct (q =? 0); [destruct (lvl =? 0)%Z|]; reflexivity.
Qed.

Lemma scan_plain (h : gostring) (w : gostring) :
  forall (rest : gostring) (lvl : Z) (q : rune) (b : gostring) (fs : list gostring),
    (0 <= lvl)%Z -> forallb isPlain w = true ->
    scanLoop h (w ++ rest) (mkScan lvl q b fs) = scanLoop h rest (mkScan lvl q (b ++ w) fs).
Proof.
  induction w as [|c w IH]; intros rest lvl q b fs Hlvl Hw.
  - rewrite app_nil_r. reflexivity.
  - cbn [forallb] in Hw. apply andb_true_iff in Hw. destruct Hw as [Hc Hw].
    cbn [app scanLoop]. rewrite (loopBody_plain c _ lvl q b fs Hlvl Hc).
    rewrite (IH rest lvl q (b ++ [c]) fs Hlvl Hw), <- app_assoc. reflexivity.
Qed.

Lemma isWordName_spec (n : gostring) :
  isWordName n = true -> n <> [] /\ forallb isWord n = true.
Proof.
  unfold isWordName. rewrite andb_true_iff, negb_true_iff. intros [Hne Hw].
  split; [|exact Hw]. intros ->. discriminate.
Qed.

Lemma forallb_word_plain (n : gostring) :
  forallb isWord n = true -> forallb isPlain n = true.
Proof.
  induction n as [|c n IH]; [reflexivity|]. cbn [forallb].
  rewrite !andb_true_iff. intros [Hc Hn]. split; [apply isWord_isPlain, Hc|apply IH, Hn].
Qed.

Lemma isWord_not_bquote (c : rune) : isWord c = true -> (r_bquote =? c) = false.
Proof.
  unfold isWord, r_bquote.
  rewrite !orb_true_iff, !andb_true_iff, !N.leb_le, !N.eqb_eq, N.eqb_neq. lia.
Qed.

(** A name between backticks, met outside quotes, is text. *)
Lemma scan_quoted_name (h : gostring) (n rest : gostring) (lvl : Z) (b : gostring)
    (fs : list gostring) :
  (0 <= lvl)%Z -> isWordName n = true -> (r_bquote =? hd 0 rest) = false ->
  scanLoop h ((str "`" ++ n ++ str "`") ++ rest) (mkScan lvl 0 b fs) =
    scanLoop h rest (mkScan lvl 0 (b ++ str "`" ++ n ++ str "`") fs).
Proof.
  intros Hlvl Hn Hrest. apply isWordName_spec in Hn. destruct Hn as [Hne Hw].
  change (str "`") with [r_bquote]. rewrite <- !app_assoc.
  assert (Hneg : (lvl <? 0)%Z = false) by (apply Z.ltb_ge; lia).
  cbn [app scanLoop].
  assert (Hfirst : (r_bquote =? hd 0 (n ++ r_bquote :: rest)) = false).
  { destruct n as [|c n']; [congruence|]. cbn [app hd forallb] in Hw |- *.
    apply andb_true_iff in Hw. apply isWord_not_bquote, Hw. }
  unfold loopBody at 1. cbn [bracketLevel quote buf scanned].
  change (isQuoteRune r_bquote) with true. cbn iota. rewrite Hfirst.
  change (0 <? 0) with false. cbn iota. cbn [bracketLevel quote buf scanned]. rewrite Hneg.
  rewrite (scan_plain h n (r_bquote :: rest) lvl r_bquote _ fs Hlvl (forallb_word_plain n Hw)).
  cbn [scanLoop hd]. unfold loopBody. cbn [bracketLevel quote buf scanned].
  change (isQuoteRune r_bquote) with true. cbn iota. rewrite Hrest.
  change (0 <? r_bquote) with true. cbn iota. cbn [bracketLevel quote buf scanned]. rewrite Hneg.
  rewrite <- !app_assoc. reflexivity.
Qed.

(** A comma at depth 0 outside quotes ends the clause. *)
Lemma scan_separator (h : gostring) (rest b : gostring) (fs : list gostring) :
  scanLoop h (r_comma :: rest) (mkScan 0 0 b fs) =
    scanLoop h rest (mkScan 0 0 [] (fs ++ [TrimSpace b])).
Proof. reflexivity. Qed.

Lemma scan_open (h : gostring) (rest b : gostring) (lvl : Z) (fs : list gostring) :
  (0 <= lvl)%Z ->
  scanLoop h (r_lparen :: rest) (mkScan lvl 0 b fs) =
    scanLoop h rest (mkScan (lvl + 1) 0 (b ++ [r_lparen]) fs).
Proof.
  intros Hlvl. cbn [scanLoop]. unfold loopBody. cbn [bracketLevel quote buf scanned].
  change (isQuoteRune r_lparen) with false. change (0 =? 0) with true.
  change (r_lparen =? r_lparen) with true. cbn iota. cbn [bracketLevel quote buf scanned].
  replace (lvl + 1 <? 0)%Z with false by (symmetry; apply Z.ltb_ge; lia). reflexivity.
Qed.

Lemma scan_close (h : gostring) (rest b : gostring) (lvl : Z) (fs : list gostring) :
  (1 <= lvl)%Z ->
  scanLoop h (r_rparen :: rest) (mkScan lvl 0 b fs) =
    scanLoop h rest (mkScan (lvl - 1) 0 (b ++ [r_rparen]) fs).
Proof.
  intros Hlvl. cbn [scanLoop]. unfold loopBody. cbn [bracketLevel quote buf scanned].
  change (isQuoteRune r_rparen) with false. change (0 =? 0) with true.
  change (r_rparen =? r_lparen) with false. change (r_rparen =? r_rparen) with true.
  cbn iota. cbn [bracketLevel quote buf scanned].
  replace (lvl - 1 <? 0)%Z with false by (symmetry; apply Z.ltb_ge; lia). reflexivity.
Qed.

Lemma scan_nested_comma (h : gostring) (rest b : gostring) (lvl : Z) (fs : list gostring) :
  (1 <= lvl)%Z ->
  scanLoop h (r_comma :: rest) (mkScan lvl 0 b fs) =
    scanLoop h rest (mkScan lvl 0 (b ++ [r_comma]) fs).
Proof.
  intros Hlvl. cbn [scanLoop]. unfold loopBody. cbn [bracketLevel quote buf scanned].
  change (isQuoteRune r_comma) with false. change (0 =? 0) with true.
  change (r_comma =? r_lparen) with false. change (r_comma =? r_rparen) with false.
  cbn iota.
  replace (lvl =? 0)%Z with false by (symmetry; apply Z.eqb_neq; lia).
  replace (lvl <? 0)%Z with false by (symmetry; apply Z.ltb_ge; lia). reflexivity.
Qed.

(** The clause of a column is read as text. *)
Lemma scan_columnClause (h : gostring) (f : field) (rest b : gostring) (fs : list gostring) :
  isWordName (name f) = true -> forallb isPlain (FullDataTypeOf f) = true ->
  scanLoop h (columnClause f ++ rest) (mkScan 0 0 b fs) =
    scanLoop h rest (mkScan 0 0 (b ++ columnClause f) fs).
Proof.
  intros Hn Ht. unfold columnClause.
  change (str "` ") with (str "`" ++ [r_space]).
  replace ((str "`" ++ name f ++ (str "`" ++ [r_space]) ++ FullDataTypeOf f) ++ rest)
    with ((str "`" ++ name f ++ str "`") ++ ([r_space] ++ FullDataTypeOf f) ++ rest)
    by (rewrite <- !app_assoc; reflexivity).
  rewrite scan_quoted_name; [|lia|exact Hn|reflexivity].
  rewrite scan_plain; [|lia|cbn [app forallb]; rewrite Ht; reflexivity].
  rewrite <- !app_assoc. reflexivity.
Qed.

Lemma scan_quotedName (h : gostring) (f : field) (rest : gostring) (lvl : Z)
    (b : gostring) (fs : list gostring) :
  (0 <= lvl)%Z -> isWordName (name f) = true -> (r_bquote =? hd 0 rest) = false ->
  scanLoop h (quotedName f ++ rest) (mkScan lvl 0 b fs) =
    scanLoop h rest (mkScan lvl 0 (b ++ quotedName f) fs).
Proof. apply scan_quoted_name. Qed.

(** The names of the primary key, between the parentheses. *)
Lemma scan_keyNames (h : gostring) (pks : list field) :
  forall (rest b : gostring) (fs : list gostring),
    Forall (fun f : field => isWordName (name f) = true) pks ->
    (r_bquote =? hd 0 rest) = false ->
    scanLoop h (Join (List.map quotedName pks) [r_comma] ++ rest) (mkScan 1 0 b fs) =
      scanLoop h rest (mkScan 1 0 (b ++ Join (List.map quotedName pks) [r_comma]) fs).
Proof.
  induction pks as [|f pks IH]; intros rest b fs Hall Hrest.
  - cbn [List.map Join app]. rewrite app_nil_r. reflexivity.
  - inversion Hall as [|? ? Hf Hall']; subst.
    destruct pks as [|g pks'].
    + cbn [List.map Join].
      rewrite scan_quotedName; [reflexivity|lia|exact Hf|exact Hrest].
    + change (List.map quotedName (f :: g :: pks'))
        with (quotedName f :: List.map quotedName (g :: pks')).
      change (Join (quotedName f :: List.map quotedName (g :: pks')) [r_comma])
        with (quotedName f ++ [r_comma] ++ Join (List.map quotedName (g :: pks')) [r_comma]).
      rewrite <- !app_assoc.
      rewrite scan_quotedName; [|lia|exact Hf|reflexivity].
      cbn [app]. rewrite scan_nested_comma by lia.
      rewrite (IH rest _ fs Hall' Hrest).
      rewrite <- !app_assoc. reflexivity.
Qed.

(** Clauses that are read as text, joined by commas, are read back one by
    one. *)
Lemma scan_clauses (h : gostring) (cs : list gostring) :
  Forall (fun c : gostring =>
            c <> []
            /\ forall (rest b : gostring) (fs : list gostring),
                 (r_bquote =? hd 0 rest) = false ->
                 scanLoop h (c ++ rest) (mkScan 0 0 b fs) =
                   scanLoop h rest (mkScan 0 0 (b ++ c) fs)) cs ->
  forall fs : list gostring,
    scanLoop h (Join cs [r_comma]) (mkScan 0 0 [] fs) =
      Ok (mkDDL h (fs ++ List.map TrimSpace cs)).
Proof.
  induction cs as [|c cs IH]; intros Hall fs.
  - cbn. rewrite app_nil_r. reflexivity.
  - inversion Hall as [|? ? [Hne Hc] Hall']; subst.
    destruct cs as [|c2 cs'].
    + cbn [Join List.map]. rewrite <- (app_nil_r c) at 1.
      rewrite Hc by reflexivity. cbn [scanLoop app]. unfold afterLoop.
      cbn [bracketLevel quote buf scanned]. change (0 =? 0)%Z with true. cbn [negb].
      rewrite streq_nil. destruct c; [congruence|reflexivity].
    + rewrite Join_cons2. rewrite Hc by reflexivity. cbn [app].
      rewrite scan_separator. rewrite (IH Hall').
      cbn [List.map]. rewrite <- app_assoc. reflexivity.
Qed.

(** *** The header of the statement *)

Lemma matchFold_self (pat rest : gostring) :
  matchFold pat (pat ++ rest) = Some (pat, rest).
Proof.
  induction pat as [|p pat IH]; [reflexivity|].
  cbn [app matchFold]. unfold eqFold. rewrite N.eqb_refl. cbn [orb].
  rewrite IH. reflexivity.
Qed.

Lemma span_app (p : rune -> bool) (a b : gostring) :
  forallb p a = true -> p (hd 0 b) = false -> b <> [] ->
  span p (a ++ b) = (a, b).
Proof.
  intros Ha Hb Hne. induction a as [|c a IH].
  - destruct b as [|x b]; [congruence|]. cbn [app span hd] in Hb |- *.
    rewrite Hb. reflexivity.
  - cbn [forallb] in Ha. apply andb_true_iff in Ha. destruct Ha as [Hc Ha].
    cbn [app span]. rewrite Hc, (IH Ha). reflexivity.
Qed.

Lemma span_all (p : rune -> bool) (a : gostring) :
  forallb p a = true -> span p a = (a, []).
Proof.
  induction a as [|c a IH]; [reflexivity|].
  cbn [forallb span]. rewrite andb_true_iff. intros [-> Ha].
  rewrite (IH Ha). reflexivity.
Qed.

Lemma lastIndex_snoc (c : rune) (l : gostring) :
  lastIndex c (l ++ [c]) = Some (length l).
Proof.
  induction l as [|x l IH].
  - cbn. rewrite N.eqb_refl. reflexivity.
  - cbn [app lastIndex length]. rewrite IH. reflexivity.
Qed.

Lemma isWord_isWordFold (n : gostring) :
  forallb isWord n = true -> forallb isWordFold n = true.
Proof.
  induction n as [|c n IH]; [reflexivity|]. cbn [forallb].
  rewrite !andb_true_iff. intros [Hc Hn]. split; [|apply IH, Hn].
  unfold isWordFold. rewrite Hc. reflexivity.
Qed.


Lemma noNewline_app (a b : gostring) :
  noNewline (a ++ b) = noNewline a && noNewline b.
Proof. apply forallb_app. Qed.

Lemma noNewline_plain (s : gostring) : forallb isPlain s = true -> noNewline s = true.
Proof.
  induction s as [|c s IH]; [reflexivity|]. unfold noNewline in *. cbn [forallb].
  rewrite !andb_true_iff. intros [Hc Hs]. split; [|apply IH, Hs].
  apply isPlain_spec in Hc. rewrite (proj2 (proj2 (proj2 (proj2 Hc)))). reflexivity.
Qed.

Lemma noNewline_Join (cs : list gostring) :
  forallb noNewline cs = true -> noNewline (Join cs [r_comma]) = true.
Proof.
  induction cs as [|c cs IH]; [reflexivity|].
  cbn [forallb]. rewrite andb_true_iff. intros [Hc Hcs].
  destruct cs as [|c2 cs']; [exact Hc|].
  rewrite Join_cons2, !noNewline_app, Hc, (IH Hcs). reflexivity.
Qed.

(** The header pattern on a statement made of CREATE TABLE, a name between
    backticks and a body between parentheses. *)
Lemma findHeader_created (table body : gostring) :
  isWordName table = true -> noNewline body = true ->
  findHeader ((str "CREATE TABLE `" ++ table ++ str "`") ++ str " (" ++ body ++ str ")")
  = Some (str "CREATE TABLE `" ++ table ++ str "`", body).
Proof.
  intros Ht Hb. apply isWordName_spec in Ht. destruct Ht as [Hne Hw].
  assert (Hat : headerAt ((str "CREATE TABLE `" ++ table ++ str "`")
                          ++ str " (" ++ body ++ str ")")
                = Some (str "CREATE TABLE `" ++ table ++ str "`", body)).
  { unfold headerAt.
    change (str "CREATE TABLE `") with (str "CREATE TABLE " ++ [r_bquote]).
    rewrite <- !app_assoc. rewrite matchFold_self.
    cbn [app optRune]. change (isNameQuote r_bquote) with true. cbn iota.
    change (str "`") with [r_bquote].
    rewrite (span_app isWordFold table); [|apply isWord_isWordFold, Hw|reflexivity|discriminate].
    destruct table as [|t0 table']; [congruence|].
    cbn [app optRune]. change (isNameQuote r_bquote) with true. cbn iota.
    f_equal. f_equal.
    unfold bodyGroup. change (str " (") with [r_space; r_lparen]. cbn [app].
    change ((r_space =? r_space) && (r_lparen =? r_lparen)) with true. cbn iota.
    change (str ")") with [r_rparen].
    rewrite (span_all (fun c => negb (c =? r_newline)) (body ++ [r_rparen])).
    - cbn [fst]. rewrite lastIndex_snoc. rewrite take_app_length. reflexivity.
    - change (forallb (fun c => negb (c =? r_newline)) (body ++ [r_rparen]))
        with (noNewline (body ++ [r_rparen])).
      rewrite noNewline_app, Hb. reflexivity. }
  destruct ((str "CREATE TABLE `" ++ table ++ str "`") ++ str " (" ++ body ++ str ")");
    cbn [findHeader]; rewrite Hat; reflexivity.
Qed.

(** *** Reading the columns back *)

Lemma dropWhile_stops (p : rune -> bool) (l1 : gostring) (y : rune) (r : gostring) :
  p y = false -> exists l1', dropWhile p (l1 ++ y :: r) = l1' ++ y :: r.
Proof.
  intros Hy. induction l1 as [|c l1 IH].
  - exists []. cbn [app dropWhile]. rewrite Hy. reflexivity.
  - cbn [app dropWhile]. destruct (p c).
    + exact IH.
    + exists (c :: l1). reflexivity.
Qed.

(** Trimming keeps what stands between two runes that are not spaces. *)
Lemma TrimSpace_keeps (x y : rune) (m b : gostring) :
  isSpace x = false -> isSpace y = false ->
  exists b', TrimSpace (x :: m ++ y :: b) = x :: m ++ y :: b'.
Proof.
  intros Hx Hy. unfold TrimSpace. cbn [dropWhile]. rewrite Hx.
  change (x :: m ++ y :: b) with ((x :: m) ++ y :: b).
  rewrite rev_app_distr. cbn [rev]. rewrite <- !app_assoc. cbn [app].
  destruct (dropWhile_stops isSpace (rev b) y (rev m ++ [x]) Hy) as [l1' ->].
  exists (rev l1'). rewrite rev_app_distr. cbn [rev]. rewrite rev_app_distr.
  cbn [rev app]. rewrite rev_involutive, <- !app_assoc. reflexivity.
Qed.

Lemma HasPrefix_app (p r : gostring) : HasPrefix (p ++ r) p = true.
Proof.
  induction p as [|c p IH]; [destruct r; reflexivity|].
  cbn [app HasPrefix]. rewrite N.eqb_refl, IH. reflexivity.
Qed.

Lemma columnsOf_column (n rest : gostring) (fs : list gostring) :
  isWordName n = true ->
  columnsOf ((r_bquote :: n ++ r_bquote :: rest) :: fs)
  = (str "`" ++ n ++ str "`") :: columnsOf fs.
Proof.
  intros Hn. apply isWordName_spec in Hn. destruct Hn as [Hne Hw].
  cbn [columnsOf]. cbn [ToUpper List.map].
  change (toUpperRune r_bquote) with r_bquote.
  change (str "PRIMARY KEY") with (80 :: str "RIMARY KEY").
  change (str "CHECK") with (67 :: str "HECK").
  change (str "CONSTRAINT") with (67 :: str "ONSTRAINT").
  cbn [HasPrefix]. change (r_bquote =? 80) with false. change (r_bquote =? 67) with false.
  cbn [andb orb]. unfold columnIdent. cbn [optRune].
  change (isNameQuote r_bquote) with true. cbn iota.
  rewrite (span_app isWord n (r_bquote :: rest) Hw); [|reflexivity|discriminate].
  cbn [fst]. destruct n; [congruence|reflexivity].
Qed.

Lemma columnsOf_primaryKey (rest : gostring) (fs : list gostring) :
  columnsOf ((str "PRIMARY KEY" ++ rest) :: fs) = columnsOf fs.
Proof.
  cbn [columnsOf]. unfold ToUpper. rewrite List.map_app.
  change (List.map toUpperRune (str "PRIMARY KEY")) with (str "PRIMARY KEY").
  rewrite HasPrefix_app. reflexivity.
Qed.

Lemma columnsOf_columnClauses (fs : list field) (tail : list gostring) :
  Forall (fun f : field => isWordName (name f) = true) fs ->
  columnsOf (List.map TrimSpace (List.map columnClause fs) ++ tail)
  = List.map quotedName fs ++ columnsOf tail.
Proof.
  induction fs as [|f fs IH]; intros Hall; [reflexivity|].
  inversion Hall as [|? ? Hf Hall']; subst.
  cbn [List.map app]. unfold columnClause at 1.
  change (str "`") with [r_bquote]. change (str "` ") with [r_bquote; r_space].
  cbn [app].
  destruct (TrimSpace_keeps r_bquote r_bquote (name f) (r_space :: FullDataTypeOf f))
    as [b' Hb]; [reflexivity|reflexivity|].
  replace (name f ++ [r_bquote; r_space] ++ FullDataTypeOf f)
    with (name f ++ r_bquote :: r_space :: FullDataTypeOf f) by reflexivity.
  rewrite Hb. rewrite (columnsOf_column _ _ _ Hf). rewrite (IH Hall'). reflexivity.
Qed.

Lemma columnsOf_primaryKeyClauses (fs : list field) :
  columnsOf (List.map TrimSpace (primaryKeyClauses fs)) = [].
Proof.
  unfold primaryKeyClauses.
  destruct (List.map quotedName (List.filter primaryKey fs)) as [|pk pks]; [reflexivity|].
  cbn [List.map].
  change (str "PRIMARY KEY (") with (80 :: str "RIMARY KEY (").
  change (str ")") with [r_rparen]. cbn [app].
  destruct (TrimSpace_keeps 80 r_rparen (str "RIMARY KEY (" ++ Join (pk :: pks) [r_comma]) [])
    as [b' Hb]; [reflexivity|reflexivity|].
  rewrite <- app_assoc in Hb. rewrite Hb. rewrite <- app_assoc.
  change (80 :: str "RIMARY KEY (" ++ Join (pk :: pks) [r_comma] ++ r_rparen :: b')
    with (str "PRIMARY KEY" ++ (str " (" ++ Join (pk :: pks) [r_comma] ++ r_rparen :: b')).
  rewrite columnsOf_primaryKey. reflexivity.
Qed.

Lemma noNewline_word (n : gostring) : forallb isWord n = true -> noNewline n = true.
Proof. intros H. apply noNewline_plain, forallb_word_plain, H. Qed.

Lemma filter_Forall {A : Type} (P : A -> Prop) (f : A -> bool) (l : list A) :
  Forall P l -> Forall P (List.filter f l).
Proof.
  induction 1 as [|a l Ha Hl IH]; cbn [List.filter]; [constructor|].
  destruct (f a); [constructor; assumption|assumption].
Qed.

Lemma noNewline_keyNames (pks : list field) :
  Forall (fun f : field => isWordName (name f) = true) pks ->
  noNewline (Join (List.map quotedName pks) [r_comma]) = true.
Proof.
  intros Hall. apply noNewline_Join. rewrite forallb_forall. intros c Hc.
  apply in_map_iff in Hc. destruct Hc as (f & <- & Hin).
  rewrite List.Forall_forall in Hall. specialize (Hall f Hin).
  apply isWordName_spec in Hall. unfold quotedName.
  rewrite !noNewline_app, (noNewline_word _ (proj2 Hall)). reflexivity.
Qed.

(** The statement [CreateTable] builds is one [sqliteParseDDL] reads back:
    for a table and columns named by word runes and column types free of
    quotes, parentheses, commas and newlines, parsing the statement gives
    the header CREATE TABLE with the name between backticks and, as
    clauses, the trimmed clause of each column in order, followed by the
    PRIMARY KEY clause when a column is flagged as primary key; and
    [getColumns] returns exactly the names of the columns, in order, each
    between backticks. *)
Theorem createTableSQL_parses (o : SqlOptions) :
  isWordName (Table o) = true ->
  Forall (fun f : field =>
            isWordName (name f) = true /\ forallb isPlain (FullDataTypeOf f) = true)
         (tableFields o) ->
  exists d,
    sqliteParseDDL (createTableSQL o) = Ok d
    /\ head d = str "CREATE TABLE `" ++ Table o ++ str "`"
    /\ fields d = List.map TrimSpace (createTableClauses o)
    /\ getColumns d = List.map quotedName (tableFields o).
Proof.
  intros Ht Hfs.
  assert (Hnames : Forall (fun f : field => isWordName (name f) = true) (tableFields o)).
  { eapply List.Forall_impl; [|exact Hfs]. intros f [H _]. exact H. }
  assert (Hkeys : Forall (fun f : field => isWordName (name f) = true)
                         (List.filter primaryKey (tableFields o))).
  { apply filter_Forall, Hnames. }
  (* every clause is read as text *)
  assert (Hclauses :
    Forall (fun c : gostring =>
              c <> []
              /\ forall (rest b : gostring) (fs : list gostring),
                   (r_bquote =? hd 0 rest) = false ->
                   scanLoop (str "CREATE TABLE `" ++ Table o ++ str "`") (c ++ rest)
                     (mkScan 0 0 b fs) =
                   scanLoop (str "CREATE TABLE `" ++ Table o ++ str "`") rest
                     (mkScan 0 0 (b ++ c) fs))
           (createTableClauses o)).
  { unfold createTableClauses. apply List.Forall_app. split.
    - rewrite List.Forall_forall. intros c Hc. apply in_map_iff in Hc.
      destruct Hc as (f & <- & Hin). rewrite List.Forall_forall in Hfs.
      destruct (Hfs f Hin) as [Hn Hty]. split; [discriminate|].
      intros rest b fs _. apply scan_columnClause; assumption.
    - unfold primaryKeyClauses.
      destruct (List.map quotedName (List.filter primaryKey (tableFields o)))
        as [|pk pks] eqn:Hpk; [constructor|].
      constructor; [|constructor]. split; [discriminate|].
      intros rest b fs _. rewrite <- Hpk.
      change (str "PRIMARY KEY (") with (str "PRIMARY KEY " ++ [r_lparen]).
      change (str ")") with [r_rparen]. rewrite <- !app_assoc.
      rewrite scan_plain; [|lia|reflexivity].
      cbn [app]. rewrite scan_open by lia.
      rewrite scan_keyNames; [|exact Hkeys|reflexivity].
      cbn [app]. rewrite scan_close by lia.
      rewrite <- !app_assoc. reflexivity. }
  (* no clause holds a newline *)
  assert (Hlines : noNewline (Join (createTableClauses o) [r_comma]) = true).
  { apply noNewline_Join. unfold createTableClauses. rewrite forallb_app.
    apply andb_true_iff. split.
    - rewrite forallb_forall. intros c Hc. apply in_map_iff in Hc.
      destruct Hc as (f & <- & Hin). rewrite List.Forall_forall in Hfs.
      destruct (Hfs f Hin) as [Hn Hty]. apply isWordName_spec in Hn.
      unfold columnClause. rewrite !noNewline_app.
      rewrite (noNewline_word _ (proj2 Hn)), (noNewline_plain _ Hty). reflexivity.
    - unfold primaryKeyClauses.
      destruct (List.map quotedName (List.filter primaryKey (tableFields o)))
        as [|pk pks] eqn:Hpk; [reflexivity|].
      cbn [forallb]. rewrite andb_true_r. rewrite <- Hpk.
      rewrite !noNewline_app, (noNewline_keyNames _ Hkeys). reflexivity. }
  exists (mkDDL (str "CREATE TABLE `" ++ Table o ++ str "`")
                (List.map TrimSpace (createTableClauses o))).
  split; [|split; [reflexivity|split; [reflexivity|]]].
  - unfold sqliteParseDDL. rewrite createTableSQL_shape.
    rewrite (findHeader_created _ _ Ht Hlines).
    rewrite (scan_clauses _ _ Hclauses). reflexivity.
  - unfold getColumns. cbn [fields]. unfold createTableClauses.
    rewrite List.map_app, (columnsOf_columnClauses _ _ Hnames).
    rewrite columnsOf_primaryKeyClauses, app_nil_r. reflexivity.
Qed.

Lemma createTableSQL_parses_witness :
  exists d,
    sqliteParseDDL (createTableSQL userTable) = Ok d
    /\ head d = str "CREATE TABLE `" ++ Table userTable ++ str "`"
    /\ fields d = List.map TrimSpace (createTableClauses userTable)
    /\ getColumns d = List.map quotedName (tableFields userTable).
Proof.
  apply createTableSQL_parses.
  - reflexivity.
  - repeat constructor.
Defined.

(** ** What [getColumns] hands to the INSERT of the recreate procedure *)

Lemma span_forallb (p : rune -> bool) (s : gostring) : forallb p (fst (span p s)) = true.
Proof.
  induction s as [|c s IH]; [reflexivity|]. cbn [span].
  destruct (p c) eqn:Hc; [|reflexivity].
  destruct (span p s) as [a b]. cbn [fst forallb] in IH |- *. rewrite Hc, IH. reflexivity.
Qed.

Lemma columnIdent_word (f w : gostring) :
  columnIdent f = Some w -> isWordName w = true.
Proof.
  unfold columnIdent. destruct (optRune isNameQuote f) as [q r].
  pose proof (span_forallb isWord r) as Hw.
  destruct (fst (span isWord r)) as [|c w'] eqn:Hs; [discriminate|].
  intros [= <-]. unfold isWordName. rewrite Hw. reflexivity.
Qed.

(** Every name [getColumns] returns is a non-empty run of word runes
    (ASCII letters, digits, underscore) between two backticks, whatever the
    clauses of the document hold; there is at most one name per clause, and
    a clause that starts, in any case, with PRIMARY KEY, CHECK or
    CONSTRAINT gives none. *)
Theorem getColumns_names (p : sqliteDDL) :
  Forall (fun c : gostring =>
            exists w, c = [r_bquote] ++ w ++ [r_bquote] /\ isWordName w = true)
         (getColumns p)
  /\ (length (getColumns p) <= length (fields p))%nat
  /\ (forall f : gostring,
        HasPrefix (ToUpper f) (str "PRIMARY KEY") = true
        \/ HasPrefix (ToUpper f) (str "CHECK") = true
        \/ HasPrefix (ToUpper f) (str "CONSTRAINT") = true ->
        getColumns (mkDDL (head p) (f :: fields p)) = getColumns p).
Proof.
  unfold getColumns. cbn [fields]. split; [|split].
  - induction (fields p) as [|f fs IH]; cbn [columnsOf]; [constructor|].
    destruct (HasPrefix (ToUpper f) (str "PRIMARY KEY")
              || HasPrefix (ToUpper f) (str "CHECK")
              || HasPrefix (ToUpper f) (str "CONSTRAINT")); [exact IH|].
    destruct (columnIdent f) as [w|] eqn:Hw; [|exact IH].
    constructor; [|exact IH]. exists w. split; [reflexivity|].
    exact (columnIdent_word f w Hw).
  - induction (fields p) as [|f fs IH]; cbn [columnsOf length]; [lia|].
    destruct (HasPrefix (ToUpper f) (str "PRIMARY KEY")
              || HasPrefix (ToUpper f) (str "CHECK")
              || HasPrefix (ToUpper f) (str "CONSTRAINT")); [lia|].
    destruct (columnIdent f); cbn [length]; lia.
  - intros f Hf. cbn [columnsOf].
    replace (HasPrefix (ToUpper f) (str "PRIMARY KEY")
             || HasPrefix (ToUpper f) (str "CHECK")
             || HasPrefix (ToUpper f) (str "CONSTRAINT")) with true; [reflexivity|].
    symmetry. rewrite !orb_true_iff. tauto.
Qed.

(** ** What [sqliteParseDDL] returns *)

Lemma dropWhile_idem (p : rune -> bool) (s : gostring) :
  dropWhile p (dropWhile p s) = dropWhile p s.
Proof.
  induction s as [|c s IH]; [reflexivity|]. cbn [dropWhile].
  destruct (p c) eqn:Hc; [exact IH|]. cbn [dropWhile]. rewrite Hc. reflexivity.
Qed.

Lemma dropWhile_split (p : rune -> bool) (s : gostring) :
  exists sp, s = sp ++ dropWhile p s /\ forallb p sp = true.
Proof.
  induction s as [|c s IH]; [exists []; split; reflexivity|].
  cbn [dropWhile]. destruct (p c) eqn:Hc.
  - destruct IH as (sp & Hs & Hp). exists (c :: sp). split.
    + cbn [app]. rewrite <- Hs. reflexivity.
    + cbn [forallb]. rewrite Hc, Hp. reflexivity.
  - exists []. split; reflexivity.
Qed.

Lemma dropWhile_head (p : rune -> bool) (s : gostring) :
  match dropWhile p s with [] => True | c :: _ => p c = false end.
Proof.
  induction s as [|c s IH]; [exact I|]. cbn [dropWhile].
  destruct (p c) eqn:Hc; [exact IH|exact Hc].
Qed.

Lemma dropWhile_fixed (p : rune -> bool) (s : gostring) :
  match s with [] => True | c :: _ => p c = false end -> dropWhile p s = s.
Proof. destruct s as [|c s]; [reflexivity|]. cbn [dropWhile]. intros ->. reflexivity. Qed.

(** [strings.TrimSpace] has nothing left to trim in its own result. *)
Lemma TrimSpace_idem (s : gostring) : TrimSpace (TrimSpace s) = TrimSpace s.
Proof.
  unfold TrimSpace. set (t := dropWhile isSpace s).
  set (u := dropWhile isSpace (rev t)).
  assert (Hu : dropWhile isSpace (rev u) = rev u).
  { apply dropWhile_fixed.
    destruct (dropWhile_split isSpace (rev t)) as (sp & Hsplit & _). fold u in Hsplit.
    assert (Ht : t = rev u ++ rev sp).
    { rewrite <- (rev_involutive t), Hsplit, rev_app_distr. reflexivity. }
    pose proof (dropWhile_head isSpace s) as Hh. fold t in Hh.
    destruct (rev u) as [|c r]; [exact I|]. rewrite Ht in Hh. exact Hh. }
  rewrite Hu, rev_involutive. unfold u. rewrite dropWhile_idem. reflexivity.
Qed.

Lemma clauses_trimmed (ts : list token) :
  forall (d : Z) (cur : gostring),
    Forall (fun f => TrimSpace f = f) (clauses d cur ts).
Proof.
  induction ts as [|t ts IH]; intros d cur.
  - cbn [clauses]. destruct cur; constructor; [apply TrimSpace_idem|constructor].
  - destruct t; cbn [clauses]; try apply IH.
    destruct (d =? 0)%Z; [|apply IH].
    constructor; [apply TrimSpace_idem|apply IH].
Qed.

Lemma matchFold_upper (pat s m r : gostring) :
  forallb (fun p => (65 <=? p) && (p <=? 90) || (p =? 32)) pat = true ->
  matchFold pat s = Some (m, r) -> ToUpper m = pat /\ s = m ++ r.
Proof.
  revert s m r. induction pat as [|p pat IH]; intros s m r Hpat.
  - cbn [matchFold]. intros [= <- <-]. split; reflexivity.
  - cbn [forallb] in Hpat. apply andb_true_iff in Hpat. destruct Hpat as [Hp Hpat].
    destruct s as [|c s]; [discriminate|]. cbn [matchFold].
    destruct (eqFold p c) eqn:Hc; [|discriminate].
    destruct (matchFold pat s) as [[m' r']|] eqn:Hm; [|discriminate].
    intros [= <- <-]. destruct (IH s m' r' Hpat Hm) as [Hup ->].
    split; [|reflexivity]. cbn [ToUpper List.map]. fold (ToUpper m'). rewrite Hup.
    f_equal. unfold eqFold in Hc. unfold toUpperRune.
    rewrite orb_true_iff, !andb_true_iff, !N.leb_le, N.eqb_eq in Hp.
    rewrite orb_true_iff, !andb_true_iff, !N.leb_le, !N.eqb_eq in Hc.
    destruct ((97 <=? c) && (c <=? 122)) eqn:Hlow.
    + apply andb_true_iff in Hlow. rewrite !N.leb_le in Hlow. lia.
    + apply andb_false_iff in Hlow. rewrite !N.leb_gt in Hlow.
      destruct (c =? 305) eqn:H1; [apply N.eqb_eq in H1; lia|].
      destruct (c =? 383) eqn:H2; [apply N.eqb_eq in H2; lia|]. lia.
Qed.

Lemma headerAt_shape (s h b : gostring) :
  headerAt s = Some (h, b) ->
  HasPrefix (ToUpper h) (str "CREATE TABLE ") = true /\ HasPrefix s h = true.
Proof.
  unfold headerAt.
  destruct (matchFold (str "CREATE TABLE ") s) as [[kw r0]|] eqn:Hm; [|discriminate].
  apply matchFold_upper in Hm; [|reflexivity]. destruct Hm as [Hup ->].
  assert (Hopt : forall x, fst (optRune isNameQuote x) ++ snd (optRune isNameQuote x) = x).
  { intros [|c x]; [reflexivity|]. cbn [optRune]. destruct (isNameQuote c); reflexivity. }
  assert (Hspan : forall x, fst (span isWordFold x) ++ snd (span isWordFold x) = x).
  { induction x as [|c x IHx]; [reflexivity|]. cbn [span].
    destruct (isWordFold c); [|reflexivity].
    destruct (span isWordFold x) as [a b0]. cbn [fst snd app] in IHx |- *.
    rewrite IHx. reflexivity. }
  pose proof (Hopt r0) as H1. destruct (optRune isNameQuote r0) as [q1 r1].
  pose proof (Hspan r1) as H2. destruct (span isWordFold r1) as [w r2].
  destruct w as [|w0 w']; [discriminate|].
  pose proof (Hopt r2) as H3. destruct (optRune isNameQuote r2) as [q2 r3].
  cbn [fst snd] in H1, H2, H3. intros [= <- <-]. split.
  - unfold ToUpper. rewrite List.map_app. fold (ToUpper kw). rewrite Hup.
    apply HasPrefix_app.
  - rewrite <- H1, <- H2, <- H3.
    replace (kw ++ q1 ++ (w0 :: w') ++ q2 ++ r3)
      with ((kw ++ q1 ++ (w0 :: w') ++ q2) ++ r3)
      by (rewrite <- !app_assoc; reflexivity).
    apply HasPrefix_app.
Qed.

Lemma findHeader_shape (sql h b : gostring) :
  findHeader sql = Some (h, b) ->
  HasPrefix (ToUpper h) (str "CREATE TABLE ") = true
  /\ exists pre post, sql = pre ++ h ++ post.
Proof.
  induction sql as [|c sql IH].
  - cbn [findHeader]. destruct (headerAt []) as [[h' b']|] eqn:Hat; [|discriminate].
    discriminate.
  - cbn [findHeader]. destruct (headerAt (c :: sql)) as [[h' b']|] eqn:Hat.
    + intros [= <- <-]. apply headerAt_shape in Hat. destruct Hat as [Hup Hpre].
      split; [exact Hup|]. exists [].
      assert (Hex : forall s p, HasPrefix s p = true -> exists r, s = p ++ r).
      { intros s p. revert s. induction p as [|x p IHp]; intros s Hs.
        - exists s. reflexivity.
        - destruct s as [|y s]; [discriminate|]. cbn [HasPrefix] in Hs.
          apply andb_true_iff in Hs. destruct Hs as [Hxy Hs]. apply N.eqb_eq in Hxy.
          subst y. destruct (IHp s Hs) as [r ->]. exists r. reflexivity. }
      destruct (Hex _ _ Hpre) as [r Hr]. exists r. exact Hr.
    + intros Hf. destruct (IH Hf) as [Hup (pre & post & ->)].
      split; [exact Hup|]. exists (c :: pre), post. reflexivity.
Qed.

(** Whatever statement [sqliteParseDDL] accepts, the document it returns
    is well formed: the header is a piece of the statement that reads
    CREATE TABLE and a space when upper-cased, and every clause is trimmed
    (trimming it again changes nothing). The only errors are the two
    invalid-DDL errors. *)
Theorem sqliteParseDDL_document (sql : gostring) :
  match sqliteParseDDL sql with
  | Ok d =>
    HasPrefix (ToUpper (head d)) (str "CREATE TABLE ") = true
    /\ (exists pre post, sql = pre ++ head d ++ post)
    /\ Forall (fun f => TrimSpace f = f) (fields d)
  | Err e => e = errInvalidDDL \/ e = errUnbalanced
  end.
Proof.
  unfold sqliteParseDDL.
  destruct (findHeader sql) as [[h b]|] eqn:Hh; [|left; reflexivity].
  apply findHeader_shape in Hh. destruct Hh as [Hup Hin].
  rewrite (scanLoop_spec h (length b) b (mkScan 0 0 [] [])); [|lia|simpl; lia].
  cbn [bracketLevel quote buf scanned]. cbn zeta.
  destruct (goesNegative 0 (classify (0 <? 0) b)); [right; reflexivity|].
  match goal with
  | |- context [if negb ?c then _ else _] => destruct c; cbn [negb]
  end; [|right; reflexivity].
  cbn [head fields app]. split; [exact Hup|]. split; [exact Hin|].
  apply clauses_trimmed.
Qed.

(** ** Adding and removing a constraint *)

Lemma replaceConstraint_at (n sql x : gostring) (before after : list gostring) :
  existsb (matchConstraint n) before = false -> matchConstraint n x = true ->
  replaceConstraint n sql (before ++ x :: after) = Some (before ++ sql :: after).
Proof.
  intros Hb Hx. induction before as [|f before IH]; cbn [app replaceConstraint].
  - rewrite Hx. reflexivity.
  - cbn [existsb] in Hb. apply orb_false_iff in Hb. destruct Hb as [Hf Hb].
    rewrite Hf, (IH Hb). reflexivity.
Qed.

Lemma dropConstraint_at (n x : gostring) (before after : list gostring) :
  existsb (matchConstraint n) before = false -> matchConstraint n x = true ->
  dropConstraint n (before ++ x :: after) = Some (before ++ after).
Proof.
  intros Hb Hx. induction before as [|f before IH]; cbn [app dropConstraint].
  - rewrite Hx. reflexivity.
  - cbn [existsb] in Hb. apply orb_false_iff in Hb. destruct Hb as [Hf Hb].
    rewrite Hf, (IH Hb). reflexivity.
Qed.

(** Adding a constraint clause under its own name and removing it
    again: when the clause added matches the constraint pattern for the
    name, the document then has a constraint of that name, adding the clause
    a second time changes nothing, and removing the name afterwards leaves
    what removing it from the original document leaves; in particular a
    document that had no constraint of that name is restored. *)
Theorem constraint_add_remove (n sql : gostring) (p : sqliteDDL) :
  matchConstraint n sql = true ->
  hasConstraint n (addConstraint n sql p) = true
  /\ addConstraint n sql (addConstraint n sql p) = addConstraint n sql p
  /\ removeConstraint n (addConstraint n sql p) = (true, snd (removeConstraint n p))
  /\ (hasConstraint n p = false ->
      removeConstraint n (addConstraint n sql p) = (true, p)).
Proof.
  intros Hsql. destruct p as [h fs].
  assert (Hshape : exists before after,
            existsb (matchConstraint n) before = false
            /\ fields (addConstraint n sql (mkDDL h fs)) = before ++ sql :: after
            /\ head (addConstraint n sql (mkDDL h fs)) = h
            /\ snd (removeConstraint n (mkDDL h fs)) = mkDDL h (before ++ after)
            /\ (hasConstraint n (mkDDL h fs) = false -> before ++ after = fs)).
  { unfold addConstraint, removeConstraint, hasConstraint. cbn [head fields].
    pose proof (replaceConstraint_first n sql fs) as Hr.
    destruct (replaceConstraint n sql fs) as [fs'|].
    - destruct Hr as (before & f & after & -> & -> & Hf & Hb).
      exists before, after. rewrite (dropConstraint_at n f before after Hb Hf).
      cbn [head fields snd]. repeat split; try assumption.
      rewrite existsb_app, Hb. cbn [existsb orb]. rewrite Hf. discriminate.
    - exists fs, []. pose proof (dropConstraint_has n fs) as Hd.
      destruct (dropConstraint n fs) as [fs'|].
      + destruct Hd as [Hex _]. rewrite Hex in Hr. discriminate.
      + cbn [head fields snd]. rewrite app_nil_r. repeat split. exact Hr. }
  destruct Hshape as (before & after & Hb & Hfs & Hh & Hrm & Hno).
  destruct (addConstraint n sql (mkDDL h fs)) as [h1 fs1] eqn:Hadd.
  cbn [head fields] in Hfs, Hh. subst h1 fs1.
  assert (Hremove : removeConstraint n (mkDDL h (before ++ sql :: after))
                    = (true, mkDDL h (before ++ after))).
  { unfold removeConstraint. cbn [fields head].
    rewrite (dropConstraint_at n sql before after Hb Hsql). reflexivity. }
  split; [|split; [|split]].
  - unfold hasConstraint. cbn [fields]. rewrite existsb_app. cbn [existsb].
    rewrite Hsql, orb_true_r. reflexivity.
  - unfold addConstraint at 1. cbn [fields head].
    rewrite (replaceConstraint_at n sql sql before after Hb Hsql). reflexivity.
  - rewrite Hremove, Hrm. reflexivity.
  - intros Hnone. rewrite Hremove, (Hno Hnone). reflexivity.
Qed.

Lemma constraint_add_remove_witness :
  let p := mkDDL (str "CREATE TABLE `t`") [str "`a` INT"] in
  let sql := str "CONSTRAINT `pk` PRIMARY KEY (`a`)" in
  removeConstraint (str "pk") (addConstraint (str "pk") sql p) = (true, p).
Proof.
  exact (proj2 (proj2 (proj2
    (constraint_add_remove (str "pk") (str "CONSTRAINT `pk` PRIMARY KEY (`a`)")
       (mkDDL (str "CREATE TABLE `t`") [str "`a` INT"]) eq_refl))) eq_refl).
Defined.

(** ** The driver and the statements it sends *)

(** A column that is not among the column bindings of the sample is
    never put into a statement: [AddColumn], [CreateIndex] and
    [AlterColumn] return an error and send nothing to the database.
    ([AlterColumn] reads the catalogue first; its error is the error of
    that read when it fails, the lookup error otherwise.) *)
Theorem Sqlite_unknown_field {Re S : Type} (regexp : Regexp Re) (p : DB S)
    (o : SqlOptions) (n : gostring) (s : S) (log : list statement) :
  tableFieldLookup o n = None ->
  Sqlite_AddColumn (logged p) n o (s, log)
    = (Some (errorString (str "failed to look up field with name: " ++ n)), (s, log))
  /\ Sqlite_CreateIndex (logged p) n o (s, log)
     = (Some (errorString (str "failed to create index with name " ++ n)), (s, log))
  /\ (let run := Sqlite_AlterColumn regexp (logged p) n o (s, log) in
      snd (snd run) = log
      /\ fst run =
           Some (match fst (getRawDDL p (Table o) s) with
                 | Err e => e
                 | Ok _ => errorString (str "failed to look up field with name: " ++ n)
                 end)).
Proof.
  intros Hlook. split; [|split].
  - unfold Sqlite_AddColumn. rewrite Hlook. reflexivity.
  - unfold Sqlite_CreateIndex. rewrite Hlook. reflexivity.
  - cbn zeta. unfold Sqlite_AlterColumn, recreateTable, bindM, getRawDDL.
    cbn [logged QueryRowString].
    destruct (QueryRowString p _ [str "table"; Table o; Table o] s) as [[rawDDL|e] s1];
      cbn [fst snd].
    + unfold alterColumnSQL. rewrite Hlook. cbn [ret fst snd]. split; reflexivity.
    + cbn [ret fst snd]. split; reflexivity.
Qed.

Lemma Sqlite_unknown_field_witness :
  Sqlite_AddColumn (logged memDB) (str "b") exampleTable (exampleCatalogue, [])
    = (Some (errorString (str "failed to look up field with name: " ++ str "b")),
       (exampleCatalogue, [])).
Proof.
  exact (proj1 (Sqlite_unknown_field namePatterns memDB exampleTable (str "b") exampleCatalogue []
                  eq_refl)).
Defined.

Lemma runDeferred_failed {S : Type} (p : DB S) (o : SqlOptions) (e : error) :
  forall (deferred : list field) (st : S * list statement),
    runDeferred (logged p) deferred o (Some e) st = (Some e, st).
Proof.
  induction deferred as [|f rest IH]; intros st; cbn [runDeferred]; [reflexivity|].
  unfold bindM. rewrite IH. reflexivity.
Qed.

Lemma indexStatements_app (o : SqlOptions) (a b : list field) :
  indexStatements o (a ++ b) = indexStatements o a ++ indexStatements o b.
Proof. unfold indexStatements. apply flat_map_app. Qed.

Lemma runDeferred_prefix {S : Type} (p : DB S) (o : SqlOptions) :
  forall (deferred : list field) (s : S) (log : list statement),
    exists sent,
      snd (snd (runDeferred (logged p) deferred o None (s, log))) = log ++ sent
      /\ sent `prefix_of` indexStatements o (rev deferred).
Proof.
  induction deferred as [|f rest IH]; intros s log.
  - exists []. cbn. rewrite app_nil_r. split; [reflexivity|apply prefix_nil].
  - cbn [runDeferred rev]. unfold bindM. rewrite indexStatements_app.
    destruct (IH s log) as (sent & Hlog & Hpre).
    pose proof (runDeferred_logged p o rest None s log) as Hall. cbn zeta in Hall.
    destruct (runDeferred (logged p) rest o None (s, log)) as [[e|] [s1 log1]];
      cbn [fst snd] in Hlog, Hall |- *.
    + exists sent. split; [exact Hlog|]. apply prefix_app_r, Hpre.
    + destruct (Hall eq_refl) as [_ Hfull].
      unfold Sqlite_CreateIndex. unfold indexStatements at 2. cbn [flat_map].
      destruct (tableFieldLookup o (name f)) as [f'|].
      * cbn [logged Exec]. fold (createIndexSQL o f').
        destruct (Exec p (createIndexSQL o f') [] s1) as [r s2]. cbn [fst snd].
        exists (indexStatements o (rev rest) ++ [(createIndexSQL o f', [])]).
        rewrite Hfull, app_nil_r, <- app_assoc. split; reflexivity.
      * cbn [ret snd]. exists (indexStatements o (rev rest)).
        rewrite Hfull, !app_nil_r. split; reflexivity.
Qed.

(** [CreateTable] sends the CREATE TABLE statement first. When that
    statement fails, its error is returned and no index is created.
    Otherwise the deferred index creations run last in, first out: the
    indexes of the index-flagged columns are created from the last column
    to the first, and the first creation that fails ends the run. *)
Theorem Sqlite_CreateTable_order {S : Type} (p : DB S) (o : SqlOptions) (s : S) :
  let run := Sqlite_CreateTable (logged p) o (s, []) in
  (exists sent,
     snd (snd run) = (createTableSQL o, []) :: sent
     /\ sent `prefix_of` indexStatements o (rev (List.filter indexKey (tableFields o))))
  /\ (forall e, fst (Exec p (createTableSQL o) [] s) = Some e ->
        run = (Some e, (snd (Exec p (createTableSQL o) [] s), [(createTableSQL o, [])])))
  /\ (fst run = None ->
        snd (snd run) =
          (createTableSQL o, [])
          :: indexStatements o (rev (List.filter indexKey (tableFields o)))).
Proof.
  cbn zeta. unfold Sqlite_CreateTable, bindM. cbn [logged Exec].
  destruct (Exec p (createTableSQL o) [] s) as [[e|] s1]; cbn [fst snd].
  - rewrite runDeferred_failed. cbn [fst snd]. split; [|split].
    + exists []. split; [reflexivity|apply prefix_nil].
    + intros e' [= <-]. reflexivity.
    + discriminate.
  - split; [|split].
    + destruct (runDeferred_prefix p o (List.filter indexKey (tableFields o)) s1
                  [(createTableSQL o, [])]) as (sent & Hlog & Hpre).
      exists sent. split; [exact Hlog|exact Hpre].
    + discriminate.
    + intros Hok. apply runDeferred_logged in Hok. exact (proj2 Hok).
Qed.

(** The questions the driver asks are answered by a count: [HasTable]
    and [HasIndex] say yes exactly when the count query returned a positive
    count, and no when the query failed. A failing
    catalogue is thus taken for a missing table: [AutoMigrate] then runs
    [CreateTable]. *)
Theorem Sqlite_count_questions {Re S : Type} (regexp : Regexp Re) (p : DB S)
    (o : SqlOptions) (s : S) :
  let asked := QueryRowCount p
      (str "SELECT count(*) FROM sqlite_master WHERE type='table' AND name=?")
      [Table o] s in
  Sqlite_HasTable p (Table o) s
    = (match fst asked with Ok c => (0 <? c)%Z | Err _ => false end, snd asked)
  /\ ((forall c, fst asked = Ok c -> (c <= 0)%Z) ->
      AutoMigrate (Sqlite regexp p) o s = Sqlite_CreateTable p o (snd asked))
  /\ (forall n,
        let askedIndex := QueryRowCount p
            (str "SELECT count(*) FROM sqlite_master WHERE type = ? AND tbl_name = ? AND name = ?")
            [str "index"; Table o; n] s in
        Sqlite_HasIndex p n o s
          = (match fst askedIndex with Ok c => (0 <? c)%Z | Err _ => false end,
             snd askedIndex)).
Proof.
  cbn zeta. split; [|split].
  - unfold Sqlite_HasTable, bindM, ret, countOf.
    destruct (QueryRowCount p _ [Table o] s) as [[c|e] s1]; reflexivity.
  - intros Hcount. unfold AutoMigrate, bindM. cbn [Sqlite HasTable CreateTable].
    unfold Sqlite_HasTable, bindM, ret, countOf.
    destruct (QueryRowCount p _ [Table o] s) as [[c|e] s1]; cbn [fst snd] in Hcount |- *.
    + specialize (Hcount c eq_refl).
      replace (0 <? c)%Z with false by (symmetry; apply Z.ltb_ge; lia). reflexivity.
    + reflexivity.
  - intros n. unfold Sqlite_HasIndex, bindM, ret, countOf.
    destruct (QueryRowCount p _ [str "index"; Table o; n] s) as [[c|e] s1]; reflexivity.
Qed.

(** ** Script commands, whatever the text *)

Lemma forallb_dropWhile (p q : rune -> bool) (s : gostring) :
  forallb p s = true -> forallb p (dropWhile q s) = true.
Proof.
  induction s as [|c s IH]; [reflexivity|]. cbn [forallb dropWhile].
  rewrite andb_true_iff. intros [Hc Hs].
  destruct (q c); [apply IH, Hs|]. cbn [forallb]. rewrite Hc, Hs. reflexivity.
Qed.

Lemma forallb_rev (p : rune -> bool) (s : gostring) : forallb p (rev s) = forallb p s.
Proof.
  induction s as [|c s IH]; [reflexivity|]. cbn [rev forallb].
  rewrite forallb_app, IH. cbn [forallb]. rewrite andb_true_r. apply andb_comm.
Qed.

Lemma noNewline_TrimSpace (s : gostring) : noNewline s = true -> noNewline (TrimSpace s) = true.
Proof.
  unfold noNewline, TrimSpace. intros Hs.
  rewrite forallb_rev. apply forallb_dropWhile. rewrite forallb_rev.
  apply forallb_dropWhile, Hs.
Qed.

Lemma splitLines_noNewline (s : gostring) :
  forall cur : gostring,
    noNewline cur = true -> Forall (fun line => noNewline line = true) (splitLines s cur).
Proof.
  induction s as [|c s IH]; intros cur Hcur; cbn [splitLines].
  - constructor; [exact Hcur|constructor].
  - destruct (c =? r_newline) eqn:Hc.
    + constructor; [exact Hcur|]. apply IH. reflexivity.
    + apply IH. rewrite noNewline_app, Hcur. unfold noNewline. cbn [forallb].
      rewrite Hc. reflexivity.
Qed.

Lemma indexRune_split (c : rune) (s : gostring) (k : nat) :
  indexRune c s = Some k -> s = take k s ++ c :: drop (S k) s.
Proof.
  revert k. induction s as [|x s IH]; intros k; [discriminate|].
  cbn [indexRune]. destruct (x =? c) eqn:Hx.
  - intros [= <-]. apply N.eqb_eq in Hx. subst x. reflexivity.
  - destruct (indexRune c s) as [k'|]; [|discriminate].
    intros [= <-]. cbn [take drop app]. rewrite <- (IH k' eq_refl). reflexivity.
Qed.

(** The shape of a command: one of the four keywords, a space, and a text
    that ends with a semicolon, all on one line. *)
Lemma scriptLoop_shape (lines : list gostring) :
  forall (cmd : gostring) (inCmd : bool) (cmds : list gostring),
    Forall (fun line => noNewline line = true) lines ->
    (inCmd = true ->
     noNewline cmd = true
     /\ exists kw rest, isKeyword kw = true /\ cmd = kw ++ [r_space] ++ rest) ->
    Forall (fun c => endsWithSemicolon c = true /\ noNewline c = true
                     /\ exists kw rest, isKeyword kw = true /\ c = kw ++ [r_space] ++ rest)
           cmds ->
    Forall (fun c => endsWithSemicolon c = true /\ noNewline c = true
                     /\ exists kw rest, isKeyword kw = true /\ c = kw ++ [r_space] ++ rest)
           (scriptLoop lines cmd inCmd cmds).
Proof.
  induction lines as [|line rest IH]; intros cmd inCmd cmds Hlines Hopen Hcmds;
    cbn [scriptLoop]; [exact Hcmds|].
  inversion Hlines as [|? ? Hline Hrest]; subst.
  destruct (isSkipped line); [apply IH; assumption|].
  destruct inCmd.
  - destruct (Hopen eq_refl) as (Hnl & kw & tl & Hkw & Hcmd).
    assert (Hnl' : noNewline (cmd ++ str " " ++ TrimSpace line) = true).
    { rewrite !noNewline_app, Hnl, (noNewline_TrimSpace _ Hline). reflexivity. }
    assert (Hshape : exists kw0 rest0, isKeyword kw0 = true
                       /\ cmd ++ str " " ++ TrimSpace line = kw0 ++ [r_space] ++ rest0).
    { exists kw, (tl ++ str " " ++ TrimSpace line). split; [exact Hkw|].
      rewrite Hcmd, <- !app_assoc. reflexivity. }
    destruct (endsWithSemicolon (cmd ++ str " " ++ TrimSpace line)) eqn:Hend.
    + apply IH; [exact Hrest|discriminate|].
      apply List.Forall_app. split; [exact Hcmds|].
      constructor; [|constructor]. split; [exact Hend|]. split; [exact Hnl'|exact Hshape].
    + apply IH; [exact Hrest| |exact Hcmds]. intros _. split; [exact Hnl'|exact Hshape].
  - destruct (indexRune r_space line) as [[|n']|] eqn:Hidx;
      try (apply IH; [exact Hrest|discriminate|exact Hcmds]).
    destruct (isKeyword (take (S n') line)) eqn:Hkw;
      [|apply IH; [exact Hrest|discriminate|exact Hcmds]].
    assert (Hshape : exists kw0 rest0, isKeyword kw0 = true
                       /\ line = kw0 ++ [r_space] ++ rest0).
    { exists (take (S n') line), (drop (S (S n')) line). split; [exact Hkw|].
      exact (indexRune_split _ _ _ Hidx). }
    destruct (endsWithSemicolon line) eqn:Hend.
    + apply IH; [exact Hrest|discriminate|].
      apply List.Forall_app. split; [exact Hcmds|].
      constructor; [|constructor]. split; [exact Hend|]. split; [exact Hline|exact Hshape].
    + apply IH; [exact Hrest| |exact Hcmds]. intros _. split; [exact Hline|exact Hshape].
Qed.

(** Whatever the bytes handed to [ExecRows], every command it reads off
    them starts with SET, CREATE, INSERT or DROP followed by a space, ends
    with a semicolon and lies on one line (the lines of a statement are
    joined by single spaces). A statement that is never closed by a line
    ending with a semicolon gives no command. *)
Theorem scriptCommands_shape (bytes : gostring) :
  Forall (fun c => endsWithSemicolon c = true /\ noNewline c = true
                   /\ exists kw rest, isKeyword kw = true /\ c = kw ++ [r_space] ++ rest)
         (scriptCommands bytes).
Proof.
  unfold scriptCommands. apply scriptLoop_shape.
  - apply splitLines_noNewline. reflexivity.
  - discriminate.
  - constructor.
Qed.

(** ** The map from column names to indexes *)





(** ** How many rows [Rows] appends, and which *)

Section RowsFacts.
Context {R V C B P : Type} (sc : Scanner R V C B P).

(** [Rows] into a slice of records, on a query that succeeded and an
    open cursor: the call returns nil and appends to what the slice held,
    in order, one record for each of the first rows of the result, bound
    from a zero record and independently of the others, whether its scan
    failed or not. The number of rows read is the cap, one when the cap is
    zero or negative, and all the rows when the result is shorter. *)
Theorem Rows_Rows_structs (p : Rows R) (elems : list V) (b : binder) :
  err p = None ->
  genBinder p = Ok b ->
  let taken := take (Z.to_nat (Z.max 1 (maxRows p))) (pending (rows p)) in
  Rows_Rows sc p (StructSlice elems) =
    (None, StructSlice
             (elems ++ List.map (fun r => snd (binder_scan sc b r (zeroV sc))) taken))
  /\ Z.of_nat (length taken)
     = Z.min (Z.of_nat (length (pending (rows p)))) (Z.max 1 (maxRows p)).
Proof.
  intros Herr Hb. cbn zeta. unfold Rows_Rows. rewrite Herr, Hb.
  rewrite (scanStructs_exact sc), Z.sub_0_r. split; [reflexivity|].
  rewrite length_take. lia.
Qed.

(** [Rows] into a slice of scalars: the rows are scanned one by one into
    fresh values that are appended to what the slice held, up to the cap
    (one row when the cap is zero or negative). When every scan succeeds
    the call returns nil; when a scan fails the call stops and returns the
    wrapped error, and the values appended before the failure stay in the
    slice. *)
Theorem Rows_Rows_scalars (p : Rows R) (elems : list C) :
  err p = None ->
  let taken := take (Z.to_nat (Z.max 1 (maxRows p))) (pending (rows p)) in
  let scanned := fun r => snd (sqlScanScalar sc r (zeroC sc)) in
  (Forall (fun r => fst (sqlScanScalar sc r (zeroC sc)) = None) taken ->
   Rows_Rows sc p (ScalarSlice elems)
     = (None, ScalarSlice (elems ++ List.map scanned taken)))
  /\ (forall before r after e,
        taken = before ++ r :: after ->
        Forall (fun r => fst (sqlScanScalar sc r (zeroC sc)) = None) before ->
        fst (sqlScanScalar sc r (zeroC sc)) = Some e ->
        Rows_Rows sc p (ScalarSlice elems)
          = (Some (errorString (str "rows.scan() err: " ++ errText e)),
             ScalarSlice (elems ++ List.map scanned before))).
Proof.
  intros Herr. cbn zeta. unfold Rows_Rows. rewrite Herr.
  pose proof (scanScalars_exact sc (maxRows p) (pending (rows p)) 0 elems) as H.
  cbn zeta in H. rewrite Z.sub_0_r in H. destruct H as [Hok Hfail]. split.
  - intros Hall. rewrite (Hok Hall). reflexivity.
  - intros before r after e Hsplit Hbefore He.
    rewrite (Hfail before r after e Hsplit Hbefore He). reflexivity.
Qed.

(** One row through the iterator is one row through [Row]: when the
    query succeeded and a row is pending, [Row] returns what [Iterator],
    [Next] (which answers true), the [Row] of the iterator and [Close]
    return together, with the same destinations and the same cursor. The
    iterator itself does not close the cursor: after its [Row] the
    following rows are still pending. *)
Theorem Rows_Row_iterates (p : Rows R) (r : R) (rest : list R)
    (dsts : list (target V C)) :
  err p = None ->
  pending (rows p) = r :: rest ->
  Rows_Iterator p = Ok p
  /\ fst (rowsIterator_Next p) = true
  /\ (let it := snd (rowsIterator_Next p) in
      pending (rows it) = rest
      /\ Rows_Row sc p dsts =
           (fst (rowsIterator_Row sc it dsts), snd (rowsIterator_Row sc it dsts),
            rows (snd (rowsIterator_Close it)))).
Proof.
  intros Herr Hpending. unfold Rows_Iterator, rowsIterator_Next, rowsNext.
  rewrite Herr, Hpending. cbn [fst snd]. split; [reflexivity|]. split; [reflexivity|].
  cbn zeta. unfold withRows. cbn [rows pending]. split; [reflexivity|].
  unfold Rows_Row, rowsNext, rowsIterator_Row, rowsIterator_Close, withRows.
  rewrite Hpending. cbn [err rows current ignoreNotFound maxRows fst snd]. rewrite Herr.
  destruct dsts as [|[settable v|c] [|d2 dsts']]; cbn [fst snd];
    try (destruct (sqlScan sc r _) as [e dsts1]; reflexivity).
  destruct (scanRow sc _ r settable v) as [e v']. reflexivity.
Qed.

End RowsFacts.

Lemma Rows_Rows_structs_witness :
  Rows_Rows userScanner (userQuery false 0 [mkUserRow (Some 1%Z) (str "true");
                                            mkUserRow None (str "x")])
    (StructSlice [])
  = (None, StructSlice [mkUser 1 (Some true)]).
Proof.
  exact (proj1 (Rows_Rows_structs userScanner
                  (userQuery false 0 [mkUserRow (Some 1%Z) (str "true");
                                      mkUserRow None (str "x")])
                  [] _ eq_refl eq_refl)).
Defined.

Lemma Rows_Rows_scalars_witness :
  Rows_Rows userScanner (userQuery false 5 [mkUserRow (Some 1%Z) (str "true");
                                            mkUserRow None (str "x");
                                            mkUserRow (Some 3%Z) (str "true")])
    (ScalarSlice [7%Z])
  = (Some (errorString (str "rows.scan() err: " ++ errText errScanNull)),
     ScalarSlice [7%Z; 1%Z]).
Proof.
  exact (proj2 (Rows_Rows_scalars userScanner
                  (userQuery false 5 [mkUserRow (Some 1%Z) (str "true");
                                      mkUserRow None (str "x");
                                      mkUserRow (Some 3%Z) (str "true")])
                  [7%Z] eq_refl)
               [mkUserRow (Some 1%Z) (str "true")] (mkUserRow None (str "x"))
               [mkUserRow (Some 3%Z) (str "true")] errScanNull
               eq_refl ltac:(repeat constructor) eq_refl).
Defined.

Lemma Rows_Row_iterates_witness :
  Rows_Row userScanner (userQuery false 10 [mkUserRow (Some 1%Z) (str "true")])
    [Scalar 0%Z]
  = (None, [Scalar 1%Z], rowsClose (userRows [])).
Proof.
  exact (proj2 (proj2 (proj2
    (Rows_Row_iterates userScanner
       (userQuery false 10 [mkUserRow (Some 1%Z) (str "true")])
       (mkUserRow (Some 1%Z) (str "true")) [] [Scalar 0%Z] eq_refl eq_refl)))).
Defined.

(** ** Opening a connection: the other outcomes *)

Section OpenOutcomes.
Context {Drv RawDB : Type} (sql : SqlPackage RawDB).
Context (dbFactories : gmap gostring (DBFactory Drv RawDB)) (nonDriver : Drv).

Lemma applyDBOption_err (opt : DBOption) (o : DBOptions) :
  optErr (applyDBOption opt o) = optErr o.
Proof. destruct opt; reflexivity. Qed.

Lemma fold_options_err (opts : list DBOption) :
  forall o : DBOptions,
    optErr (fold_left (fun o opt => opt o) (List.map applyDBOption opts) o) = optErr o.
Proof.
  induction opts as [|opt opts IH]; intros o; cbn [List.map fold_left]; [reflexivity|].
  rewrite IH. apply applyDBOption_err.
Qed.

Lemma openOptions_valid (driverName dataSourceName : gostring) (opts : list DBOption) :
  Validate (openOptions driverName dataSourceName (List.map applyDBOption opts)) = None.
Proof.
  unfold Validate, openOptions. rewrite fold_left_app. cbn [fold_left].
  unfold WithDsn, WithDirver. cbn [optErr]. rewrite fold_options_err. reflexivity.
Qed.

(** [Open] with the options of options.go never fails on the options:
    whatever options the caller passes, an error of [Open] is the error of
    [sql.Open] or, when the ping is not switched off, the error of the
    ping; and the driver name and data source name given as arguments
    override those set by options. *)
Theorem Open_failure_sources (driverName dataSourceName : gostring)
    (opts : list DBOption) (e : error) :
  let o := openOptions driverName dataSourceName (List.map applyDBOption opts) in
  Open sql dbFactories nonDriver driverName dataSourceName (List.map applyDBOption opts)
    = Err e ->
  driver o = driverName /\ dsn o = dataSourceName
  /\ (sqlOpen sql driverName dataSourceName = Err e
      \/ exists raw,
           sqlOpen sql driverName dataSourceName = Ok raw
           /\ withoutPing o = false
           /\ Ping sql raw = Some e).
Proof.
  cbn zeta.
  destruct (openOptions_driver driverName dataSourceName (List.map applyDBOption opts))
    as [Hd Hs].
  unfold Open. rewrite openOptions_valid. unfold open. rewrite Hd, Hs.
  intros Hopen. split; [reflexivity|]. split; [reflexivity|].
  destruct (sqlOpen sql driverName dataSourceName) as [raw|e0].
  - right. exists raw. split; [reflexivity|].
    destruct (withoutPing (openOptions driverName dataSourceName
                             (List.map applyDBOption opts))); cbn [negb] in Hopen.
    + exfalso.
      match type of Hopen with
      | context [match ?x with Some _ => _ | None => _ end] => destruct x
      end; discriminate.
    + split; [reflexivity|].
      destruct (Ping sql raw) as [e1|]; [injection Hopen as ->; reflexivity|].
      exfalso.
      match type of Hopen with
      | context [match ?x with Some _ => _ | None => _ end] => destruct x
      end; discriminate.
  - left. injection Hopen as ->. reflexivity.
Qed.

(** Opening a connection under a registered dialect name: when
    [sql.Open] and the ping succeed, the pool settings that were given are
    applied to the handle (idle connections, open connections, lifetime,
    idle time, in this order), and the factory registered under the name is
    called with the DB that carries the options, the handle and the no-op
    driver; what it returns becomes the driver of the DB. *)
Theorem Open_registered_dialect (driverName dataSourceName : gostring)
    (opts : list (DBOptions -> DBOptions)) (raw : RawDB)
    (f : DBFactory Drv RawDB) :
  let o := openOptions driverName dataSourceName opts in
  let handle :=
    setIf (SetConnMaxIdleTime sql) (connMaxIdletime o)
      (setIf (SetConnMaxLifetime sql) (connMaxLifetime o)
         (setIf (SetMaxOpenConns sql) (maxOpenConns o)
            (setIf (SetMaxIdleConns sql) (maxIdleCount o) raw))) in
  dbFactories !! driverName = Some f ->
  Validate o = None ->
  sqlOpen sql driverName dataSourceName = Ok raw ->
  (withoutPing o = true \/ Ping sql raw = None) ->
  Open sql dbFactories nonDriver driverName dataSourceName opts
    = Ok (mkOrmDB o handle (f (mkOrmDB o handle nonDriver))).
Proof.
  cbn zeta. intros Hreg Hvalid Hopen Hping.
  destruct (openOptions_driver driverName dataSourceName opts) as [Hd Hs].
  unfold Open. rewrite Hvalid. unfold open. rewrite Hd, Hs, Hopen.
  assert (Hp : (if negb (withoutPing (openOptions driverName dataSourceName opts))
                then Ping sql raw else None) = None).
  { destruct Hping as [-> | ->]; [reflexivity|].
    destruct (negb _); reflexivity. }
  rewrite Hp.
  match goal with
  | |- context [match ?x with Some _ => _ | None => _ end] =>
    replace x with (Some f) by (symmetry; exact Hreg)
  end.
  reflexivity.
Qed.

End OpenOutcomes.

Lemma Open_failure_sources_witness :
  sqlOpen refusingSql (str "mysql") (str "dsn") = Err (errorString (str "connection refused"))
  \/ exists raw,
       sqlOpen refusingSql (str "mysql") (str "dsn") = Ok raw
       /\ withoutPing (openOptions (str "mysql") (str "dsn")
                         (List.map applyDBOption [OptMaxRows 10%Z])) = false
       /\ Ping refusingSql raw = Some (errorString (str "connection refused")).
Proof.
  exact (proj2 (proj2
    (Open_failure_sources refusingSql sqliteRegistry (str "none")
       (str "mysql") (str "dsn") [OptMaxRows 10%Z]
       (errorString (str "connection refused")) eq_refl))).
Defined.

Lemma Open_registered_dialect_witness :
  Open memSql sqliteRegistry (str "none") (str "sqlite3") (str "file.db")
    [WithMaxRows 10%Z; WithMaxIdleCount 2%Z]
  = Ok (mkOrmDB
          (openOptions (str "sqlite3") (str "file.db")
             [WithMaxRows 10%Z; WithMaxIdleCount 2%Z])
          (mkPool (Some 2%Z) None) (str "Sqlite")).
Proof.
  exact (Open_registered_dialect memSql sqliteRegistry (str "none")
           (str "sqlite3") (str "file.db") [WithMaxRows 10%Z; WithMaxIdleCount 2%Z]
           (mkPool None None) (fun _ => str "Sqlite")
           eq_refl eq_refl eq_refl (or_intror eq_refl)).
Defined.

(** ** The options of a statement *)

Section StatementOptionsFacts.
Import StatementOptions.
Context {Selector Sample Ref : Type}.
Context (Parse : gostring -> option Selector * option error).

Lemma fold_statement_options (opts : list (@Option Sample Ref)) :
  forall o : @Options Selector Sample Ref,
    let o' := fold_left (fun o opt => opt o) (List.map (apply Parse) opts) o in
    err o' = match lastSelector opts with
             | Some s => snd (Parse s)
             | None => err o
             end
    /\ selector o' = match lastSelector opts with
                     | Some s => fst (Parse s)
                     | None => selector o
                     end
    /\ tableOptions o' = tableOptions o ++ allTableOptions opts.
Proof.
  induction opts as [|opt opts IH]; intros o; cbn zeta.
  - cbn. rewrite app_nil_r. repeat split.
  - cbn [List.map fold_left lastSelector allTableOptions flat_map].
    specialize (IH (apply Parse opt o)). cbn zeta in IH.
    destruct IH as (He & Hs & Ht). rewrite He, Hs, Ht.
    destruct (lastSelector opts) as [s|].
    + repeat split. destruct opt; cbn [apply]; unfold WithTableOptions, WithSelector;
        try destruct (Parse s0); cbn [tableOptions]; rewrite ?app_nil_r, <- ?app_assoc;
        reflexivity.
    + destruct opt; cbn [apply]; unfold WithTableOptions, WithSelector;
        try destruct (Parse s); cbn [err selector tableOptions fst snd];
        rewrite ?app_nil_r, <- ?app_assoc; repeat split; reflexivity.
Qed.

(** [NewOptions] applies the options in order. The error it returns is
    the error of parsing the last selector option, and nil when there is
    none: the failure of an earlier selector option is overwritten by a
    later one and is not reported. Table options accumulate in order. *)
Theorem NewOptions_error (opts : list (@Option Sample Ref)) :
  let r := NewOptions (List.map (apply Parse) opts) in
  snd r = match lastSelector opts with
          | Some s => snd (Parse s)
          | None => None
          end
  /\ selector (fst r) = match lastSelector opts with
                        | Some s => fst (Parse s)
                        | None => None
                        end
  /\ tableOptions (fst r) = allTableOptions opts
  /\ (forall (bad good : gostring) (sel : Selector) (e : error),
        Parse bad = (None, Some e) -> Parse good = (Some sel, None) ->
        snd (NewOptions (Sample := Sample) (Ref := Ref)
               [WithSelector Parse bad; WithSelector Parse good]) = None).
Proof.
  cbn zeta. unfold NewOptions. cbn [fst snd].
  destruct (fold_statement_options opts zero) as (He & Hs & Ht). cbn zeta in He, Hs, Ht.
  split; [exact He|]. split; [exact Hs|]. split; [exact Ht|].
  intros bad good sel e Hbad Hgood. cbn [fold_left]. unfold WithSelector.
  rewrite Hbad, Hgood. reflexivity.
Qed.

End StatementOptionsFacts.

(** ** A statement on one line *)




(** ** A column name that is no pattern *)

(** The name of the column is spliced into the pattern as it is. When the
    pattern built from it does not compile, [DropColumn] and [AlterColumn]
    return the error of the compilation once the statement of the table has
    been read, and send nothing to the database. *)
Theorem Sqlite_column_pattern_error {Re S : Type} (regexp : Regexp Re) (p : DB S)
    (o : SqlOptions) (column rawDDL : gostring) (e : error) (s : S)
    (log : list statement) :
  fst (getRawDDL p (Table o) s) = Ok rawDDL ->
  (Compile regexp (dropPatternText column) = Err e ->
   Sqlite_DropColumn regexp (logged p) column o (s, log)
     = (Some e, (snd (getRawDDL p (Table o) s), log)))
  /\ (forall f : FieldOptions,
        tableFieldLookup o column = Some f ->
        Compile regexp (alterPatternText (name f)) = Err e ->
        Sqlite_AlterColumn regexp (logged p) column o (s, log)
          = (Some e, (snd (getRawDDL p (Table o) s), log))).
Proof.
  intros Hraw. split.
  - intros Hcompile. unfold Sqlite_DropColumn, recreateTable.
    rewrite bind_logged_getRawDDL, Hraw. unfold dropColumnSQL. rewrite Hcompile.
    reflexivity.
  - intros f Hlook Hcompile. unfold Sqlite_AlterColumn, recreateTable.
    rewrite bind_logged_getRawDDL, Hraw. unfold alterColumnSQL.
    rewrite Hlook, Hcompile. reflexivity.
Qed.

Lemma Sqlite_column_pattern_error_witness :
  Sqlite_DropColumn namePatterns (logged memDB) (str "a(b") exampleTable
    (exampleCatalogue, [])
  = (Some errPattern, (exampleCatalogue, [])).
Proof.
  exact (proj1 (Sqlite_column_pattern_error namePatterns memDB exampleTable (str "a(b")
                  (str "CREATE TABLE `t` (`a` INT,`b` TEXT,`c` INT)") errPattern
                  exampleCatalogue [] eq_refl) eq_refl).
Defined.
